(** * dex-bot: the order-placement notifier

    A shallow embedding of the [onNewOrder] handler that the bot registers
    with [dfusionService.watchOrderPlacement], together with the numeric
    and string helpers it relies on, and the properties of the
    order-event-to-notification pipeline.

    Conventions of the embedding:
    - a [bignumber.js] value is a rational, [Infinity], [-Infinity] or [NaN];
      the library's default configuration is assumed (20 decimal places,
      rounding half up, exponential notation from 1e21 and below 1e-6);
      the sign of zero is not tracked, a zero counts as positive;
    - a JavaScript [number] is an IEEE 754 double: a rational that a double
      holds, an infinity or [NaN]; the sign of zero is not tracked; the
      arithmetic rounds to the nearest double, ties to even;
    - a [Date] is its number of milliseconds since the epoch;
    - a thrown exception is the [Err] case of [Result]. *)

From Stdlib Require Import ZArith QArith Qabs Qround Qreduction Qpower.
From Stdlib Require Import String Ascii List Bool Lia Lqa.
Import ListNotations.

Local Open Scope Z_scope.
Local Open Scope string_scope.

(** ** Failures *)

Inductive Error : Type :=
| InvalidOrderData.

Inductive Result (A : Type) : Type :=
| Ok (a : A)
| Err (e : Error).

Arguments Ok {A} a.
Arguments Err {A} e.

Definition bind {A B : Type} (r : Result A) (k : A -> Result B) : Result B :=
  match r with
  | Ok a => k a
  | Err e => Err e
  end.

Notation "'let*' x ':=' r 'in' k" := (bind r (fun x => k))
  (at level 10, x name, r at level 100, k at level 200).

(** ** Decimal digit strings *)

Definition newline : ascii := "010"%char.
Definition nl : string := String newline EmptyString.

(** The character of the decimal digit [d]. *)
Definition digit (d : Z) : ascii := ascii_of_N (48 + Z.to_N d).

(** The value of a decimal digit character. *)
Definition digit_value (c : ascii) : option Z :=
  let n := Z.of_N (N_of_ascii c) in
  if ((48 <=? n) && (n <=? 57))%Z then Some (n - 48) else None.

(** The [k] low-order decimal digits of [n], most significant first and
    zero padded, in front of [tail]. *)
Fixpoint fixed_digits (k : nat) (n : Z) (tail : string) : string :=
  match k with
  | O => tail
  | S k' => fixed_digits k' (n / 10) (String (digit (n mod 10)) tail)
  end.

Fixpoint ndigits_fuel (fuel : nat) (n : Z) : nat :=
  match fuel with
  | O => 1%nat
  | S f => if (n <? 10)%Z then 1%nat else S (ndigits_fuel f (n / 10))
  end.

(** Number of decimal digits of a non-negative integer (1 for 0). *)
Definition ndigits (n : Z) : nat := ndigits_fuel (Z.to_nat (Z.log2 n)) n.

(** Decimal rendering of a non-negative integer in front of [tail]. *)
Definition decimal (n : Z) (tail : string) : string :=
  fixed_digits (ndigits n) n tail.

(** The digits of [c] with a decimal point in front of the last [k] of
    them, [i] digits before the point; no point when [k] is 0. *)
Definition point_after (i : nat) (k : nat) (c : Z) (tail : string) : string :=
  fixed_digits i (c / 10 ^ Z.of_nat k)
    (match k with
     | O => tail
     | S _ => String "." (fixed_digits k (c mod 10 ^ Z.of_nat k) tail)
     end).

(** Rendering of a possibly negative integer. *)
Definition Z_toString (n : Z) : string :=
  if (n <? 0)%Z then String "-" (decimal (- n) "") else decimal n "".

(** Lines of a text, split at line feeds. *)
Fixpoint lines (s : string) : list string :=
  match s with
  | EmptyString => [EmptyString]
  | String c s' =>
      if Ascii.eqb c newline then EmptyString :: lines s'
      else match lines s' with
           | l :: ls => String c l :: ls
           | [] => [String c EmptyString]
           end
  end.

Fixpoint no_newline (s : string) : bool :=
  match s with
  | EmptyString => true
  | String c s' => negb (Ascii.eqb c newline) && no_newline s'
  end.

(** [contains p s]: [p] occurs in [s] as a substring. *)
Fixpoint contains (p s : string) : bool :=
  prefix p s ||
  match s with
  | EmptyString => false
  | String _ s' => contains p s'
  end.

(** [has_line l s]: one of the lines of [s] is [l]. *)
Definition has_line (l s : string) : bool :=
  existsb (String.eqb l) (lines s).

(** Number of lines of [s] that start with [p]. *)
Definition count_lines (p s : string) : nat :=
  List.length (filter (prefix p) (lines s)).

(** ** JavaScript numbers *)

Module JS.

Local Open Scope Q_scope.

Inductive number : Type :=
| Num (q : Q)
| Infinity (negative : bool)
| NaN.

(** The integer nearest to a/b for a positive [b], ties to even. *)
Definition roundDiv (a b : Z) : Z :=
  let q := (a / b)%Z in
  let r := (a mod b)%Z in
  if (2 * r <? b)%Z then q
  else if (b <? 2 * r)%Z then (q + 1)%Z
  else if Z.even q then q else (q + 1)%Z.

(** 2^l <= a/d *)
Definition pow2Le (l a d : Z) : bool :=
  if (0 <=? l)%Z then (d * 2 ^ l <=? a)%Z else (d <=? a * 2 ^ (- l))%Z.

(** The binary exponent of a/d for positive [a] and [d]: the [l] with
    2^l <= a/d < 2^(l+1). *)
Definition exponent (a d : Z) : Z :=
  let l := (Z.log2 a - Z.log2 d)%Z in
  if pow2Le l a d then l else (l - 1)%Z.

(** The double nearest to a/d for positive [a] and [d], ties to even: 53
    significant bits, the exponent of the last bit from -1074 to 971;
    [None] beyond the largest double. *)
Definition nearest (a d : Z) : option Q :=
  let e := (Z.max (exponent a d) (-1022) - 52)%Z in
  let m := if (0 <=? e)%Z then roundDiv a (d * 2 ^ e) else roundDiv (a * 2 ^ (- e)) d in
  if (971 <? e)%Z || ((e =? 971)%Z && (m =? 2 ^ 53)%Z) then None
  else Some (if (0 <=? e)%Z then inject_Z (m * 2 ^ e)
             else Qred (m # Z.to_pos (2 ^ (- e)))).

(** 2^-53: rounding to a normal double changes a value by at most this
    part of it. *)
Definition epsilon : Q := 1 # 9007199254740992.

(** The double that stands for the real number [q]. *)
Definition binary64 (q : Q) : number :=
  if (Qnum q =? 0)%Z then Num 0
  else
    match nearest (Z.abs (Qnum q)) (Z.pos (Qden q)) with
    | None => Infinity (Qnum q <? 0)%Z
    | Some v => Num (if (Qnum q <? 0)%Z then - v else v)
    end.

(** An integer literal. *)
Definition ofZ (z : Z) : number := binary64 (inject_Z z).

(** [x / y] *)
Definition div (x y : number) : number :=
  match x, y with
  | NaN, _ | _, NaN => NaN
  | Infinity _, Infinity _ => NaN
  | Infinity a, Num q => Infinity (xorb a (Qnum q <? 0)%Z)
  | Num _, Infinity _ => Num 0
  | Num p, Num q =>
      if Qeq_bool q 0 then (if Qeq_bool p 0 then NaN else Infinity (Qnum p <? 0)%Z)
      else binary64 (p / q)
  end.

(** [x + y] *)
Definition add (x y : number) : number :=
  match x, y with
  | NaN, _ | _, NaN => NaN
  | Infinity a, Infinity b => if Bool.eqb a b then Infinity a else NaN
  | Infinity a, Num _ | Num _, Infinity a => Infinity a
  | Num p, Num q => binary64 (p + q)
  end.

(** 10^z as a rational. *)
Definition tenTo (z : Z) : Q :=
  if (0 <=? z)%Z then inject_Z (10 ^ z) else 1 # Z.to_pos (10 ^ (- z)).

Fixpoint leadingZeros (fuel : nat) (q : Q) : nat :=
  match fuel with
  | O => 1%nat
  | S f => if Qle_bool 1 (q * inject_Z 10) then 1%nat
           else S (leadingZeros f (q * inject_Z 10))
  end.

(** The decimal exponent of a positive [q]: the [n] with
    10^n <= q < 10^(n+1). *)
Definition decimalExponent (q : Q) : Z :=
  if Qle_bool 1 q then (Z.of_nat (ndigits (Qfloor q)) - 1)%Z
  else (- Z.of_nat (leadingZeros (Pos.size_nat (Qden q)) q))%Z.

(** [c] reads back as the double [q]. *)
Definition readsAs (q c : Q) : bool :=
  match binary64 c with
  | Num q' => Qeq_bool q q'
  | _ => false
  end.

(** The decimal of [k] significant digits that reads back as the positive
    double [q], if there is one; the closest to [q] if there are two, the
    even one if they are as close. *)
Definition withDigits (q : Q) (k : nat) : option Q :=
  let scale := tenTo (decimalExponent q - Z.of_nat k + 1)%Z in
  let s := Qfloor (q / scale) in
  let lo := inject_Z s * scale in
  let hi := inject_Z (s + 1) * scale in
  match readsAs q lo, readsAs q hi with
  | true, true =>
      match (q - lo) ?= (hi - q) with
      | Lt => Some lo
      | Gt => Some hi
      | Eq => if Z.even s then Some lo else Some hi
      end
  | true, false => Some lo
  | false, true => Some hi
  | false, false => None
  end.

Fixpoint shortestFrom (count : nat) (k : nat) (q : Q) : Q :=
  match count with
  | O => q
  | S count' =>
      match withDigits q k with
      | Some c => c
      | None => shortestFrom count' (S k) q
      end
  end.

(** The value of the decimal that [String(x)] writes for the double [q]:
    the one with the fewest significant digits among the decimals that
    read back as [q] (Number::toString); 17 digits are always enough. *)
Definition shortest (q : Q) : Q :=
  if Qeq_bool q 0 then 0
  else if (Qnum q <? 0)%Z then Qred (- shortestFrom 17 1 (- q))
  else Qred (shortestFrom 17 1 q).

End JS.

(** ** bignumber.js values *)

Module BigNumber.

Inductive t : Type :=
| Fin (q : Q)
| Inf (negative : bool)
| NaN.

Definition of_Z (z : Z) : t := Fin (inject_Z z).

(** [new BigNumber(x)] for a number [x]: the decimal that [String(x)]
    writes. *)
Definition ofNumber (x : JS.number) : t :=
  match x with
  | JS.Num q => Fin (JS.shortest q)
  | JS.Infinity negative => Inf negative
  | JS.NaN => NaN
  end.

Definition DECIMAL_PLACES : nat := 20.

Definition isZero (q : Q) : bool := Qeq_bool q 0.
Definition isNeg (q : Q) : bool := (Qnum q <? 0)%Z.

(** [x.multipliedBy(y)]: the product is exact. *)
Definition multipliedBy (x y : t) : t :=
  match x, y with
  | NaN, _ | _, NaN => NaN
  | Inf a, Inf b => Inf (xorb a b)
  | Inf a, Fin q | Fin q, Inf a => if isZero q then NaN else Inf (xorb a (isNeg q))
  | Fin p, Fin q => Fin (Qred (p * q))
  end.

(** Rounding to [DECIMAL_PLACES] decimal places, ties away from zero
    (ROUND_HALF_UP). *)
Definition round (q : Q) : Q :=
  let scale := inject_Z (10 ^ Z.of_nat DECIMAL_PLACES) in
  let m := Qfloor (Qabs q * scale + (1 # 2)) in
  Qred (inject_Z (if isNeg q then - m else m) / scale).

(** [v] is [x] written with 20 decimal places: a multiple of 10^-20 that is
    within half of 10^-20 from [x], and [x] itself when [x] is such a
    multiple. *)
Definition rounds (x v : Q) : Prop :=
  (exists m : Z, v == inject_Z m / inject_Z (10 ^ 20))%Q /\
  (Qabs (v - x) <= 1 # 200000000000000000000)%Q /\
  ((exists m : Z, x == inject_Z m / inject_Z (10 ^ 20))%Q -> (v == x)%Q).

(** [x.dividedBy(y)]: [NaN] for 0/0 and Infinity/Infinity, an infinity
    for a division by zero, the rounded quotient otherwise. *)
Definition dividedBy (x y : t) : t :=
  match x, y with
  | NaN, _ | _, NaN => NaN
  | Inf _, Inf _ => NaN
  | Inf a, Fin q => Inf (xorb a (isNeg q))
  | Fin _, Inf _ => Fin 0
  | Fin p, Fin q =>
      if isZero q then (if isZero p then NaN else Inf (isNeg p))
      else Fin (round (p / q))
  end.

(** Number of decimal places of a terminating decimal. *)
Fixpoint places (fuel : nat) (q : Q) : nat :=
  match fuel with
  | O => O
  | S f => if (Z.pos (Qden (Qred q)) =? 1)%Z then O else S (places f (q * inject_Z 10))
  end.

(** Removes the trailing zeros of a positive integer. *)
Fixpoint strip_zeros (fuel : nat) (c : Z) : Z :=
  match fuel with
  | O => c
  | S f => if (c mod 10 =? 0)%Z then strip_zeros f (c / 10) else c
  end.

Definition TO_EXP_NEG : Z := -7.
Definition TO_EXP_POS : Z := 21.

(** [x.toString()] in base 10. *)
Definition toString (x : t) : string :=
  match x with
  | NaN => "NaN"
  | Inf true => "-Infinity"
  | Inf false => "Infinity"
  | Fin q =>
      let r := Qred q in
      let k := places (Pos.size_nat (Qden r)) r in
      let c := Z.abs (Qfloor (r * inject_Z (10 ^ Z.of_nat k))) in
      let sign := if isNeg r then "-" else "" in
      if isZero r then "0"
      else
        let e := (Z.of_nat (ndigits c) - 1 - Z.of_nat k)%Z in
        if (e <=? TO_EXP_NEG)%Z || (TO_EXP_POS <=? e)%Z then
          let m := strip_zeros (ndigits c) c in
          sign ++ point_after 1 (ndigits m - 1) m
                    (String "e" (if (e <? 0)%Z then Z_toString e
                                 else String "+" (Z_toString e)))
        else
          sign ++ point_after (ndigits (c / 10 ^ Z.of_nat k)) k c ""
  end.

(** [x.isGreaterThan(y)] *)
Definition isGreaterThan (x y : t) : bool :=
  match x, y with
  | NaN, _ | _, NaN => false
  | Inf a, Inf b => negb a && b
  | Inf a, Fin _ => negb a
  | Fin _, Inf b => b
  | Fin p, Fin q => negb (Qle_bool p q)
  end.

(** The value is below zero. *)
Definition isNegative (x : t) : Prop :=
  match x with
  | Fin q => (q < 0)%Q
  | Inf a => a = true
  | NaN => False
  end.

(** The value is a whole number. *)
Definition isInteger (x : t) : Prop :=
  match x with
  | Fin q => exists z : Z, (q == inject_Z z)%Q
  | _ => False
  end.

End BigNumber.

(** ** Tokens and orders *)

Record Token : Type := {
  address : string;
  symbol : option string;
  name : option string;
  decimals : nat
}.

Record Order : Type := {
  owner : string;
  buyToken : Token;
  sellToken : Token;
  validFrom : Z;
  validUntil : Z;
  priceNumerator : BigNumber.t;
  priceDenominator : BigNumber.t
}.

(** A call of the notification sink, [bot.sendMessage(chat, text, options)]. *)
Record SinkCall : Type := sendMessage {
  chat : string;
  text : string;
  parse_mode : string
}.

(** [a || b] on strings: [a] when it is defined and not empty. *)
Definition or_else (a : option string) (b : string) : string :=
  match a with
  | Some (String c s) => String c s
  | _ => b
  end.

(** [token.symbol || token.name || token.address] *)
Definition tokenLabel (token : Token) : string :=
  or_else (symbol token) (or_else (name token) (address token)).

(** ** Amount formatting *)

(** The value of a run of decimal digits, after the digits of [acc]. *)
Fixpoint parse_digits (s : string) (acc : Z) : option Z :=
  match s with
  | EmptyString => Some acc
  | String c s' =>
      match digit_value c with
      | Some v => parse_digits s' (10 * acc + v)%Z
      | None => None
      end
  end.

(** The integer that a text in base 10 denotes for bn.js: decimal digits
    behind an optional minus sign. *)
Definition parseBN (s : string) : option Z :=
  match s with
  | String c s' =>
      if Ascii.eqb c "-" then option_map Z.opp (parse_digits s' 0)
      else parse_digits s 0
  | EmptyString => Some 0%Z
  end.

(** [new BN(x.toString())]: the raw integer amount handed to the formatters.
    The text of [x] is read by bn.js, which fails on a character that is
    not a digit, such as the point of a fraction or the e of the
    exponential notation; the failure is the [InvalidOrderData] of the
    amounts. *)
Definition BN (x : BigNumber.t) : Result Z :=
  match parseBN (BigNumber.toString x) with
  | Some z => Ok z
  | None => Err InvalidOrderData
  end.

(** The digits of [amount] with the last [decimals] of them behind a
    decimal point. *)
Definition fullFormat (amount : Z) (decimals : nat) : string :=
  point_after (ndigits (amount / 10 ^ Z.of_nat decimals)) decimals amount "".

(** Modelled from the spec: [formatAmountFull] of utils/format, which is not
    among the sources: the exact value with all [decimals] fractional digits
    preserved; a negative amount is an [InvalidOrderData] failure. *)
Definition formatAmountFull (amount : Z) (decimals : nat) : Result string :=
  if (amount <? 0)%Z then Err InvalidOrderData
  else Ok (fullFormat amount decimals).

(** [amount] cut down to at most [precision] fractional digits. *)
Definition displayFormat (precision : nat) (amount : Z) (decimals : nat) : string :=
  let k := Nat.min precision decimals in
  fullFormat (amount / 10 ^ Z.of_nat (decimals - k)) k.

(** Modelled from the spec: [formatAmount] of utils/format, which is not among
    the sources: the value truncated to a fixed, small number [precision] of
    fractional digits; a negative amount is an [InvalidOrderData] failure. *)
Definition formatAmount (precision : nat) (amount : Z) (decimals : nat)
  : Result string :=
  if (amount <? 0)%Z then Err InvalidOrderData
  else Ok (displayFormat precision amount decimals).

(** Reading a full-format string back as a raw amount with [decimals]
    fractional digits. *)
Fixpoint parse_fraction (s : string) (k : nat) (acc : Z) : option Z :=
  match s with
  | EmptyString => Some (acc * 10 ^ Z.of_nat k)%Z
  | String c s' =>
      match k, digit_value c with
      | S k', Some v => parse_fraction s' k' (10 * acc + v)%Z
      | _, _ => None
      end
  end.

Fixpoint parse_integer (s : string) (decimals : nat) (acc : Z) : option Z :=
  match s with
  | EmptyString => Some (acc * 10 ^ Z.of_nat decimals)%Z
  | String c s' =>
      if Ascii.eqb c "." then parse_fraction s' decimals acc
      else match digit_value c with
           | Some v => parse_integer s' decimals (10 * acc + v)%Z
           | None => None
           end
  end.

Definition parseAmountFull (s : string) (decimals : nat) : option Z :=
  parse_integer s decimals 0.

(** ** Texts of JavaScript

    A text is kept as the bytes of its UTF-8 encoding. *)

(** The text without its first [n] bytes. *)
Fixpoint skip (n : nat) (s : string) : string :=
  match n, s with
  | S n', String _ rest => skip n' rest
  | _, _ => s
  end.

(** Length of the line terminator a text starts with, 0 when it starts with
    none: LF, CR, U+2028 or U+2029. *)
Definition lineTerminatorLength (s : string) : nat :=
  match s with
  | String c rest =>
      if Ascii.eqb c "010" || Ascii.eqb c "013" then 1%nat
      else match rest with
           | String c1 (String c2 _) =>
               if Ascii.eqb c "226" && Ascii.eqb c1 "128"
                  && (Ascii.eqb c2 "168" || Ascii.eqb c2 "169")
               then 3%nat else 0%nat
           | _ => 0%nat
           end
  | EmptyString => 0%nat
  end.

(** What a greedy [.*] takes at the start of a text: everything up to the
    first line terminator. *)
Fixpoint dotStar (s : string) : string :=
  match s with
  | EmptyString => EmptyString
  | String c rest =>
      if (lineTerminatorLength s =? 0)%nat then String c (dotStar rest)
      else EmptyString
  end.

(** The class [\w]. *)
Definition isWordChar (c : ascii) : bool :=
  let n := N_of_ascii c in
  ((48 <=? n) && (n <=? 57) || (65 <=? n) && (n <=? 90)
   || (97 <=? n) && (n <=? 122) || (n =? 95))%N.

(** The longest prefix of characters of a class, and what follows it. *)
Fixpoint takeWhile (p : ascii -> bool) (s : string) : string :=
  match s with
  | String c rest => if p c then String c (takeWhile p rest) else EmptyString
  | EmptyString => EmptyString
  end.

Fixpoint dropWhile (p : ascii -> bool) (s : string) : string :=
  match s with
  | String c rest => if p c then dropWhile p rest else s
  | EmptyString => EmptyString
  end.

Fixpoint allChars (p : ascii -> bool) (s : string) : bool :=
  match s with
  | String c rest => p c && allChars p rest
  | EmptyString => true
  end.

Definition notSlash (c : ascii) : bool := negb (Ascii.eqb c "/").

Definition startsWith (p : ascii -> bool) (s : string) : bool :=
  match s with
  | String c _ => p c
  | EmptyString => false
  end.

(** The items of the array that [RegExp.prototype.exec] returns: the whole
    match, then the capture groups, [None] for a group that did not take
    part. *)
Record RegExpExecArray : Type := {
  items : list (option string)
}.

(** [m[i]], [None] for [undefined]. *)
Definition item (m : RegExpExecArray) (i : nat) : option string :=
  nth i (items m) None.

(** A value inside a template literal or a string concatenation. *)
Definition jsString (value : option string) : string :=
  match value with
  | Some s => s
  | None => "undefined"
  end.

(** [/\/(\w+) ?(.+)?/.exec(s)]: the leftmost slash that a word character
    follows, the word after it, an optional space and the rest of the
    line. *)
Fixpoint commandRegExp_exec (s : string) : option RegExpExecArray :=
  match s with
  | EmptyString => None
  | String c rest =>
      if Ascii.eqb c "/" && startsWith isWordChar rest then
        let word := takeWhile isWordChar rest in
        let after := dropWhile isWordChar rest in
        let space := if prefix " " after then " " else "" in
        let tail := dotStar (skip (String.length space) after) in
        Some {| items := [Some (String "/" (word ++ space ++ tail));
                          Some word;
                          if String.eqb tail "" then None else Some tail] |}
      else commandRegExp_exec rest
  end.

(** [/\/echo (.+)/.exec(s)]: the leftmost [/echo ] that is followed by a
    character of the same line, and the rest of that line. *)
Fixpoint echoRegExp_exec (s : string) : option RegExpExecArray :=
  match s with
  | EmptyString => None
  | String _ rest =>
      let tail := dotStar (skip 6 s) in
      if prefix "/echo " s && negb (String.eqb tail "") then
        Some {| items := [Some ("/echo " ++ tail); Some tail] |}
      else echoRegExp_exec rest
  end.

(** *** [isNaN] of a text

    [Number(s)] is a number when [s], without the white space around it, is
    empty or a numeric literal. *)

(** Length of the white space or line terminator character a text starts
    with, 0 when it starts with none. *)
Definition whiteSpaceLength (s : string) : nat :=
  match s with
  | String c rest =>
      let n := N_of_ascii c in
      if ((9 <=? n) && (n <=? 13) || (n =? 32))%N then 1%nat
      else if prefix (String "194" (String "160" "")) s then 2%nat
      else match rest with
           | String c1 (String c2 _) =>
               let n1 := N_of_ascii c1 in
               let n2 := N_of_ascii c2 in
               if ((n =? 225) && (n1 =? 154) && (n2 =? 128)
                   || (n =? 226) && (n1 =? 128)
                      && ((128 <=? n2) && (n2 <=? 138) || (n2 =? 168)
                          || (n2 =? 169) || (n2 =? 175))
                   || (n =? 226) && (n1 =? 129) && (n2 =? 159)
                   || (n =? 227) && (n1 =? 128) && (n2 =? 128)
                   || (n =? 239) && (n1 =? 187) && (n2 =? 191))%N
               then 3%nat else 0%nat
           | _ => 0%nat
           end
  | EmptyString => 0%nat
  end.

Fixpoint skipWhiteSpace (fuel : nat) (s : string) : string :=
  match fuel with
  | O => s
  | S fuel' =>
      match whiteSpaceLength s with
      | O => s
      | n => skipWhiteSpace fuel' (skip n s)
      end
  end.

(** The text without the white space at its start. *)
Definition trimStart (s : string) : string := skipWhiteSpace (String.length s) s.

Definition isDecimalDigit (c : ascii) : bool :=
  let n := N_of_ascii c in ((48 <=? n) && (n <=? 57))%N.

Definition isHexDigit (c : ascii) : bool :=
  let n := N_of_ascii c in
  ((48 <=? n) && (n <=? 57) || (65 <=? n) && (n <=? 70) || (97 <=? n) && (n <=? 102))%N.

Definition isOctalDigit (c : ascii) : bool :=
  let n := N_of_ascii c in ((48 <=? n) && (n <=? 55))%N.

Definition isBinaryDigit (c : ascii) : bool :=
  let n := N_of_ascii c in ((48 <=? n) && (n <=? 49))%N.

(** What follows an optional [ExponentPart] at the start of a text. *)
Definition afterExponent (s : string) : string :=
  match s with
  | String c rest =>
      if Ascii.eqb c "e" || Ascii.eqb c "E" then
        let digits :=
          match rest with
          | String sign rest' =>
              if Ascii.eqb sign "+" || Ascii.eqb sign "-" then rest' else rest
          | EmptyString => rest
          end in
        if startsWith isDecimalDigit digits then dropWhile isDecimalDigit digits else s
      else s
  | EmptyString => s
  end.

(** What follows the longest [StrUnsignedDecimalLiteral] at the start of a
    text, [None] when the text starts with none. *)
Definition afterUnsignedDecimal (s : string) : option string :=
  if prefix "Infinity" s then Some (skip 8 s)
  else if startsWith isDecimalDigit s then
    match dropWhile isDecimalDigit s with
    | String c rest =>
        if Ascii.eqb c "." then Some (afterExponent (dropWhile isDecimalDigit rest))
        else Some (afterExponent (String c rest))
    | EmptyString => Some EmptyString
    end
  else
    match s with
    | String c rest =>
        if Ascii.eqb c "." && startsWith isDecimalDigit rest
        then Some (afterExponent (dropWhile isDecimalDigit rest))
        else None
    | EmptyString => None
    end.

(** The same for a [StrDecimalLiteral], which may carry a sign. *)
Definition afterDecimal (s : string) : option string :=
  match s with
  | String c rest =>
      if Ascii.eqb c "+" || Ascii.eqb c "-" then afterUnsignedDecimal rest
      else afterUnsignedDecimal s
  | EmptyString => None
  end.

(** The same for a binary, octal or hexadecimal integer literal. *)
Definition afterNonDecimal (s : string) : option string :=
  match s with
  | String c (String k rest) =>
      if Ascii.eqb c "0" then
        let digit :=
          if Ascii.eqb k "x" || Ascii.eqb k "X" then Some isHexDigit
          else if Ascii.eqb k "o" || Ascii.eqb k "O" then Some isOctalDigit
          else if Ascii.eqb k "b" || Ascii.eqb k "B" then Some isBinaryDigit
          else None in
        match digit with
        | Some p => if startsWith p rest then Some (dropWhile p rest) else None
        | None => None
        end
      else None
  | _ => None
  end.

(** Only white space is left. *)
Definition onlyWhiteSpace (s : option string) : bool :=
  match s with
  | Some rest => String.eqb (trimStart rest) ""
  | None => false
  end.

(** [isNaN(s)] for a text [s]. *)
Definition isNaN (s : string) : bool :=
  let literal := trimStart s in
  negb (String.eqb literal ""
        || onlyWhiteSpace (afterNonDecimal literal)
        || onlyWhiteSpace (afterDecimal literal)).

(** ** Telegram *)

Module Telegram.

Record User : Type := { first_name : string }.

Record Chat : Type := { id : Z }.

Record Message : Type := {
  chat : Chat;
  text : option string;
  from : option User
}.

End Telegram.

(** The chat a message is sent to: the number of a chat or the name of a
    channel. *)
Inductive ChatId : Type :=
| ChatNumber (id : Z)
| ChatName (name : string).

(** An argument of a call of a logger. *)
Inductive LogArg (Reason : Type) : Type :=
| ArgText (s : string)
| ArgMessage (msg : Telegram.Message)
| ArgMatch (m : option RegExpExecArray)
| ArgReason (r : Reason).

Arguments ArgText {Reason} s.
Arguments ArgMessage {Reason} msg.
Arguments ArgMatch {Reason} m.
Arguments ArgReason {Reason} r.

(** What a handler of the bot does, in the order in which it does it: calls
    of [bot.sendMessage], with the parse mode when one is given, and calls of
    a logger with their arguments. *)
Inductive Effect (Reason : Type) : Type :=
| Send (chatId : ChatId) (text : string) (parse_mode : option string)
| Log (level : string) (args : list (LogArg Reason)).

Arguments Send {Reason} chatId text parse_mode.
Arguments Log {Reason} level args.

(** The messages sent among some effects. *)
Fixpoint sends {Reason : Type} (effects : list (Effect Reason))
  : list (ChatId * string) :=
  match effects with
  | [] => []
  | Send chatId text _ :: rest => (chatId, text) :: sends rest
  | Log _ _ :: rest => sends rest
  end.

(** The errors logged among some effects. *)
Fixpoint errors {Reason : Type} (effects : list (Effect Reason))
  : list (list (LogArg Reason)) :=
  match effects with
  | [] => []
  | Log level args :: rest =>
      if String.eqb level "error" then args :: errors rest else errors rest
  | Send _ _ _ :: rest => errors rest
  end.

(** What [dfusionService.getAbout()] resolves to; each field stands for its
    rendering in a template literal. *)
Record About : Type := {
  blockNumber : string;
  networkId : string;
  nodeInfo : string;
  version : string;
  stablecoinConverterAddress : string
}.

(** ** Sample data *)

Definition WETH : Token :=
  {| address := "0xc778417E063141139Fce010982780140Aa0cD5Ab";
     symbol := Some "WETH"; name := Some "Wrapped Ether"; decimals := 18 |}.

Definition USDC : Token :=
  {| address := "0x4DBCdF9B62e891a7cec5A2568C3F4FAF9E8Abe2b";
     symbol := Some "USDC"; name := Some "USD Coin"; decimals := 6 |}.

(** Selling 1 WETH for 2000 USDC. *)
Definition wethUsdcOrder (from until : Z) : Order :=
  {| owner := "0x0000000000000000000000000000000000000001";
     buyToken := USDC; sellToken := WETH;
     validFrom := from; validUntil := until;
     priceNumerator := BigNumber.of_Z 2000000000;
     priceDenominator := BigNumber.of_Z 1000000000000000000 |}.

(** An order whose denominator is zero. *)
Definition zeroDenominatorOrder : Order :=
  {| owner := "0x0000000000000000000000000000000000000001";
     buyToken := USDC; sellToken := WETH;
     validFrom := 1000; validUntil := 9000;
     priceNumerator := BigNumber.of_Z 2000000000;
     priceDenominator := BigNumber.of_Z 0 |}.

(** An order that buys nothing. *)
Definition zeroNumeratorOrder : Order :=
  {| owner := "0x0000000000000000000000000000000000000001";
     buyToken := USDC; sellToken := WETH;
     validFrom := 1000; validUntil := 9000;
     priceNumerator := BigNumber.of_Z 0;
     priceDenominator := BigNumber.of_Z 1000000000000000000 |}.

(** Selling 2000 USDC for 1 WETH. *)
Definition usdcWethOrder : Order :=
  {| owner := "0x0000000000000000000000000000000000000001";
     buyToken := WETH; sellToken := USDC;
     validFrom := 1000; validUntil := 9000;
     priceNumerator := BigNumber.of_Z 1000000000000000000;
     priceDenominator := BigNumber.of_Z 2000000000 |}.

(** Selling 5 DAI for 1 WETH, two tokens of 18 decimals. *)
Definition DAI : Token :=
  {| address := "0x5592EC0cfb4dbc12D3aB100b257153436a1f0FEa";
     symbol := Some "DAI"; name := None; decimals := 18 |}.

Definition daiWethOrder : Order :=
  {| owner := "0x0000000000000000000000000000000000000002";
     buyToken := WETH; sellToken := DAI;
     validFrom := 1000; validUntil := 9000;
     priceNumerator := BigNumber.of_Z 1000000000000000000;
     priceDenominator := BigNumber.of_Z 5000000000000000000 |}.

(** Two tokens whose decimals are 309 apart, and an order that sells one
    unit of the first for one unit of the second. *)
Definition FINE : Token :=
  {| address := "0x00000000000000000000000000000000000000f1";
     symbol := Some "FINE"; name := None; decimals := 309 |}.

Definition UNIT : Token :=
  {| address := "0x00000000000000000000000000000000000000f2";
     symbol := Some "UNIT"; name := None; decimals := 0 |}.

Definition fineUnitOrder : Order :=
  {| owner := "0x0000000000000000000000000000000000000005";
     buyToken := UNIT; sellToken := FINE;
     validFrom := 1000; validUntil := 9000;
     priceNumerator := BigNumber.of_Z 1;
     priceDenominator := BigNumber.of_Z 1 |}.

(** An engine whose powers of ten are the nearest doubles. *)
Definition samplePow10 (k : nat) : JS.number := JS.ofZ (10 ^ Z.of_nat k).

(** Stand-ins for the renderings of moment and for the environment. *)
Definition sampleCalendar (now date : Z) : string := "Today at 2:30 PM".
Definition sampleFromNow (now date : Z) : string := "in 2 hours".
Definition sampleUrl : string := "https://dex.example".
Definition sampleChannel : string := "@dfusion".

(** Selling 3 WETH for 6000 USDC. *)
Definition tripleWethUsdcOrder : Order :=
  {| owner := "0x0000000000000000000000000000000000000003";
     buyToken := USDC; sellToken := WETH;
     validFrom := 1000; validUntil := 9000;
     priceNumerator := BigNumber.of_Z (3 * 2000000000);
     priceDenominator := BigNumber.of_Z (3 * 1000000000000000000) |}.

(** Selling 1 WETH for 2500 USDC. *)
Definition dearWethUsdcOrder : Order :=
  {| owner := "0x0000000000000000000000000000000000000004";
     buyToken := USDC; sellToken := WETH;
     validFrom := 1000; validUntil := 9000;
     priceNumerator := BigNumber.of_Z 2500000000;
     priceDenominator := BigNumber.of_Z 1000000000000000000 |}.

(** Messages of a user called Ada in the chat 42. *)
Definition sampleMessage (text : string) : Telegram.Message :=
  {| Telegram.chat := {| Telegram.id := 42 |};
     Telegram.text := Some text;
     Telegram.from := Some {| Telegram.first_name := "Ada" |} |}.

Definition sampleAbout : About :=
  {| blockNumber := "5012345"; networkId := "4"; nodeInfo := "Geth/v1.9.9";
     version := "0.3.0";
     stablecoinConverterAddress := "0xC576eA7bd102F7E476368a5E98FA455d1Ea34dE2" |}.

Definition sampleDelivery (chatId : ChatId) (text : string) : option string := None.

(** ** The bot *)

Section Bot.

(** [FEE_DENOMINATOR] of the module const, which is not among the sources. *)
Variable FEE_DENOMINATOR : Z.

(** The environment: [process.env.WEB_BASE_URL] and
    [process.env.TELEGRAM_CHANNEL_ID]. *)
Variable WEB_BASE_URL : string.
Variable channelId : string.

(** The fixed number of fractional digits of the display format, a constant
    of utils/format, which is not among the sources. *)
Variable precision : nat.

(** [moment(date).calendar()] and [moment(date).fromNow()] under the default
    zone Etc/GMT, when the clock shows [now]. *)
Variable calendar : Z -> Z -> string.
Variable fromNow : Z -> Z -> string.

(** [10 ** k] as the engine computes it where 10^k is no double: the
    language leaves the approximation to the implementation. *)
Variable approximatePow10 : nat -> JS.number.

(** [10 ** k]: exact up to 10^22, the last power of ten that is a double,
    and [Infinity] from 10^309 on, which is beyond the largest double. *)
Definition pow10 (k : nat) : JS.number :=
  if (k <=? 22)%nat then JS.Num (inject_Z (10 ^ Z.of_nat k))
  else if (309 <=? k)%nat then JS.Infinity false
  else approximatePow10 k.

(** [1 + 2 / FEE_DENOMINATOR] *)
Definition FACTOR_TO_FILL_ORDER : JS.number :=
  JS.add (JS.ofZ 1) (JS.div (JS.ofZ 2) (JS.ofZ FEE_DENOMINATOR)).

(** The price of one unit of the sell token in units of the buy token. *)
Definition price (order : Order) : BigNumber.t :=
  let buyToken := buyToken order in
  let sellToken := sellToken order in
  if (decimals sellToken <=? decimals buyToken)%nat then
    let precisionFactor := pow10 (decimals buyToken - decimals sellToken) in
    BigNumber.dividedBy (priceNumerator order)
      (BigNumber.multipliedBy (priceDenominator order) (BigNumber.ofNumber precisionFactor))
  else
    let precisionFactor := pow10 (decimals sellToken - decimals buyToken) in
    BigNumber.dividedBy
      (BigNumber.multipliedBy (priceNumerator order) (BigNumber.ofNumber precisionFactor))
      (priceDenominator order).

Definition tradableLine (now date : Z) : string :=
  "  - *Tradable*: `" ++ calendar now date ++ " GMT`, `" ++ fromNow now date ++ "`".

Definition expiresLine (now date : Z) : string :=
  "  - *Expires*: `" ++ calendar now date ++ " GMT`, `" ++ fromNow now date ++ "`".

(** Only display the valid from if the period hasn't started. *)
Definition datesDescription (now : Z) (order : Order) : string :=
  (if (now <? validFrom order)%Z then tradableLine now (validFrom order) ++ nl else "")
  ++ expiresLine now (validUntil order).

(** The amount of the buy token asked for in the link. *)
Definition fillAmount (order : Order) : BigNumber.t :=
  BigNumber.multipliedBy (priceNumerator order) (BigNumber.ofNumber FACTOR_TO_FILL_ORDER).

Definition headline (sellAmountFmt sellTokenLabel buyAmountFmt buyTokenLabel : string)
  : string :=
  "Sell *" ++ sellAmountFmt ++ "* `" ++ sellTokenLabel ++ "` for *"
  ++ buyAmountFmt ++ "* `" ++ buyTokenLabel ++ "`".

Definition priceLine (sellTokenLabel price buyTokenLabel : string) : string :=
  "  - *Price*:  1 `" ++ sellTokenLabel ++ "` = " ++ price ++ " `" ++ buyTokenLabel ++ "`".

Definition fillLink (buyTokenLabel sellTokenLabel fillSellAmountFmt buyAmountFullFmt : string)
  : string :=
  WEB_BASE_URL ++ "/trade/" ++ buyTokenLabel ++ "-" ++ sellTokenLabel
  ++ "?sell=" ++ fillSellAmountFmt ++ "&buy=" ++ buyAmountFullFmt.

(** The markdown template of the announcement. *)
Definition message (sellAmountFmt sellTokenLabel buyAmountFmt buyTokenLabel
                    price datesDescription fillSellAmountFmt buyAmountFullFmt : string)
  : string :=
  headline sellAmountFmt sellTokenLabel buyAmountFmt buyTokenLabel ++ nl
  ++ nl
  ++ priceLine sellTokenLabel price buyTokenLabel ++ nl
  ++ datesDescription ++ nl
  ++ nl
  ++ "Fill the order here: "
  ++ fillLink buyTokenLabel sellTokenLabel fillSellAmountFmt buyAmountFullFmt.

(** The handler of a new order, run when the clock shows [now]. *)
Definition onNewOrder (now : Z) (order : Order) : Result SinkCall :=
  let price := price order in
  let sellTokenLabel := tokenLabel (sellToken order) in
  let buyTokenLabel := tokenLabel (buyToken order) in
  let datesDescription := datesDescription now order in
  let* sellAmount := BN (priceDenominator order) in
  let* sellAmountFmt := formatAmount precision sellAmount (decimals (sellToken order)) in
  let* buyAmount := BN (priceNumerator order) in
  let* buyAmountFmt := formatAmount precision buyAmount (decimals (buyToken order)) in
  let* fillSellAmount := BN (fillAmount order) in
  let* fillSellAmountFmt := formatAmountFull fillSellAmount (decimals (buyToken order)) in
  let* buyAmountFull := BN (priceDenominator order) in
  let* buyAmountFullFmt := formatAmountFull buyAmountFull (decimals (sellToken order)) in
  Ok (sendMessage channelId
        (message sellAmountFmt sellTokenLabel buyAmountFmt buyTokenLabel
           (BigNumber.toString price) datesDescription
           fillSellAmountFmt buyAmountFullFmt)
        "Markdown").

(** The calls of the sink after a run of events, each with the time at which
    it is handled; an event whose handler fails is dropped. *)
Fixpoint pipeline (events : list (Z * Order)) : list SinkCall :=
  match events with
  | [] => []
  | (now, order) :: rest =>
      match onNewOrder now order with
      | Ok call => call :: pipeline rest
      | Err _ => pipeline rest
      end
  end.

(** ** The commands of the bot *)

(** The reasons for which a promise is rejected. *)
Variable Reason : Type.

(** What [dfusionService.getAbout()] settles to: the facts, or the reason of
    its rejection. *)
Variable getAbout : About + Reason.

(** What the promise of [bot.sendMessage(chatId, text)] settles to: [None]
    when the message is delivered, the reason of the rejection otherwise. *)
Variable delivery : ChatId -> string -> option Reason.

(** What an [async] function did, and the reason for which the promise it
    returned is rejected, [None] when that promise is fulfilled. *)
Definition Async : Type := (list (Effect Reason) * option Reason)%type.

(** Private channels are identified by numbers. *)
Definition isPublicChannel : bool := isNaN channelId.

Definition channelHandle : string :=
  if isPublicChannel then channelId else "**private chat**".

Definition helpText (msg : Telegram.Message) : string :=
  (match Telegram.from msg with
   | Some fromUser => "Hi " ++ Telegram.first_name fromUser
   | None => "Hi there"
   end) ++ "!" ++ nl
  ++ "    " ++ nl
  ++ "I don't talk much for now. I just notify every new order in dFusion channel." ++ nl
  ++ "Please, go to " ++ channelHandle ++ " to get notified on every new order." ++ nl
  ++ nl
  ++ "Also, you can ask about me by using the command: /about".

(** The reply is sent without waiting for its delivery. *)
Definition _helpCommand (msg : Telegram.Message) : Async :=
  ([Send (ChatNumber (Telegram.id (Telegram.chat msg))) (helpText msg) None], None).

Definition aboutText (about : About) : string :=
  "I'm just a bot watching dFusion smart contract." ++ nl
  ++ nl
  ++ "If you want to know more about me, checkout my code in https://github.com/gnosis/dex-telegram" ++ nl
  ++ nl
  ++ "In that github you'll be able to fork me, open issues, or even better, give me some additional functionality (Pull Requests are really welcomed 😀)." ++ nl
  ++ nl
  ++ "Some interesting facts are:" ++ nl
  ++ "- Bot version: " ++ version about ++ nl
  ++ "- Contract Address: " ++ stablecoinConverterAddress about ++ nl
  ++ "- Ethereum Network: " ++ networkId about ++ nl
  ++ "- Ethereum Node: " ++ nodeInfo about ++ nl
  ++ "- Last minded block: " ++ blockNumber about ++ nl
  ++ nl
  ++ "Also, here are some links you might find useful:" ++ nl
  ++ "- https://github.com/gnosis/dex-contracts: dFusion Smart Contracts" ++ nl
  ++ "- https://github.com/gnosis/dex-research: dFusion Research" ++ nl
  ++ "- https://github.com/gnosis/dex-services: dFusion services".

(** The facts are awaited, the reply is sent without waiting for its
    delivery. *)
Definition _aboutCommand (msg : Telegram.Message) : Async :=
  match getAbout with
  | inl about =>
      ([Send (ChatNumber (Telegram.id (Telegram.chat msg))) (aboutText about) None], None)
  | inr reason => ([], Some reason)
  end.

Definition unknownCommandText : string :=
  "I don't recognize that command! You can use this other one instead: /help".

Definition _runCommand (msg : Telegram.Message) (match_ : option RegExpExecArray)
  : Async :=
  let command :=
    match match_ with
    | Some m => item m 1
    | None => Some ""
    end in
  match command with
  | Some word =>
      if String.eqb word "start" || String.eqb word "help" then _helpCommand msg
      else if String.eqb word "about" then _aboutCommand msg
      else
        ([Send (ChatNumber (Telegram.id (Telegram.chat msg))) unknownCommandText None],
         delivery (ChatNumber (Telegram.id (Telegram.chat msg))) unknownCommandText)
  | None =>
      ([Send (ChatNumber (Telegram.id (Telegram.chat msg))) unknownCommandText None],
       delivery (ChatNumber (Telegram.id (Telegram.chat msg))) unknownCommandText)
  end.

(** The callback of [bot.onText(/\/(\w+) ?(.+)?/, ...)]. *)
Definition onText (msg : Telegram.Message) (match_ : option RegExpExecArray)
  : list (Effect Reason) :=
  Log "debug" [ArgText "New command: %o"; ArgMessage msg]
  :: fst (_runCommand msg match_)
  ++ match snd (_runCommand msg match_) with
     | Some error =>
         [Log "error" [ArgText "Error running command for message: %o"; ArgMessage msg];
          Log "error" [ArgReason error]]
     | None => []
     end.

(** [msg.text && msg.text.startsWith('/')] *)
Definition isCommand (msg : Telegram.Message) : bool :=
  match Telegram.text msg with
  | Some text => negb (String.eqb text "") && prefix "/" text
  | None => false
  end.

(** The listener of [bot.on('message', ...)]. *)
Definition onMessage (msg : Telegram.Message) : list (Effect Reason) :=
  if isCommand msg then []
  else Log "debug" [ArgText "Received msg: %o"; ArgMessage msg]
       :: fst (_helpCommand msg).

(** The way node-telegram-bot-api hands a message to the bot: first to the
    listeners of [message], then, when the message has a text that the
    regular expression matches, to the callback of [onText]. *)
Definition processUpdate (msg : Telegram.Message) : list (Effect Reason) :=
  (onMessage msg
   ++ match Telegram.text msg with
      | Some text =>
          if String.eqb text "" then []
          else match commandRegExp_exec text with
               | Some m => onText msg (Some m)
               | None => []
               end
      | None => []
      end)%list.

(** ** The echo bot *)

Definition MESSAGE_GO_TO_CHANNEL : string :=
  "Hey, for now I prefer to talk in dFusion channel." ++ nl
  ++ nl
  ++ "Please, go to t.me/dFusionPoC to get notified when there's a new standing order." ++ nl
  ++ nl
  ++ "Also, here are some links you might find useful:" ++ nl
  ++ "- https://github.com/gnosis/dex-contracts: dFusion Smart Contracts" ++ nl
  ++ "- https://github.com/gnosis/dex-research: dFusion Research" ++ nl
  ++ "- https://github.com/gnosis/dex-services: dFusion services".

(** The callback of [bot.onText(/\/echo (.+)/, ...)]. *)
Definition echoOnText (msg : Telegram.Message) (match_ : option RegExpExecArray)
  : list (Effect Reason) :=
  let resp :=
    match match_ with
    | Some m => jsString (item m 1)
    | None => "N/A"
    end in
  let text := "This is a new order: " ++ resp in
  [Log "debug" [ArgText "Received an echo message: %s, answering in 3s. %s, %o";
                ArgText resp; ArgMessage msg; ArgMatch match_];
   Log "debug" [ArgText "Writing into the channel"; ArgText text];
   Send (ChatName channelId) text None].

(** The listener of [bot.on('message', ...)] of the echo bot. *)
Definition echoOnMessage (msg : Telegram.Message) : list (Effect Reason) :=
  let chatId := Telegram.id (Telegram.chat msg) in
  [Log "debug" [ArgText "Received msg: %o"; ArgMessage msg];
   Send (ChatNumber chatId) MESSAGE_GO_TO_CHANNEL None].

(** The way node-telegram-bot-api hands a message to the echo bot. *)
Definition echoProcessUpdate (msg : Telegram.Message) : list (Effect Reason) :=
  (echoOnMessage msg
   ++ match Telegram.text msg with
      | Some text =>
          if String.eqb text "" then []
          else match echoRegExp_exec text with
               | Some m => echoOnText msg (Some m)
               | None => []
               end
      | None => []
      end)%list.

(** * Properties *)

(** ** Digit strings *)

Lemma mod10_cases (n : Z) :
  n mod 10 = 0 \/ n mod 10 = 1 \/ n mod 10 = 2 \/ n mod 10 = 3 \/ n mod 10 = 4 \/
  n mod 10 = 5 \/ n mod 10 = 6 \/ n mod 10 = 7 \/ n mod 10 = 8 \/ n mod 10 = 9.
Proof. pose proof (Z.mod_pos_bound n 10); lia. Qed.

Ltac each_digit n :=
  let H := fresh "Hd" in
  destruct (mod10_cases n) as [H|[H|[H|[H|[H|[H|[H|[H|[H|H]]]]]]]]]; rewrite H.

Lemma digit_value_digit (n : Z) : digit_value (digit (n mod 10)) = Some (n mod 10).
Proof. each_digit n; reflexivity. Qed.

Lemma digit_not_point (n : Z) : Ascii.eqb (digit (n mod 10)) "." = false.
Proof. each_digit n; reflexivity. Qed.

Lemma digit_not_newline (n : Z) : Ascii.eqb (digit (n mod 10)) newline = false.
Proof. each_digit n; reflexivity. Qed.

Lemma pow10_succ (k : nat) : 10 ^ Z.of_nat (S k) = 10 * 10 ^ Z.of_nat k.
Proof. rewrite Nat2Z.inj_succ, Z.pow_succ_r by lia; reflexivity. Qed.

Lemma pow10_pos (k : nat) : 0 < 10 ^ Z.of_nat k.
Proof. apply Z.pow_pos_nonneg; lia. Qed.

(** The low [S k] digits are the low digit and the low [k] digits of the
    rest. *)
Lemma mod_pow10_succ (n : Z) (k : nat) :
  n mod 10 ^ Z.of_nat (S k) = 10 * ((n / 10) mod 10 ^ Z.of_nat k) + n mod 10.
Proof.
  rewrite pow10_succ.
  pose proof (pow10_pos k).
  rewrite Z.rem_mul_r by lia. lia.
Qed.

Lemma ndigits_fuel_bound (fuel : nat) :
  forall n, 0 <= n < 2 ^ Z.of_nat (S fuel) -> n < 10 ^ Z.of_nat (ndigits_fuel fuel n).
Proof.
  induction fuel as [|fuel IH]; intros n Hn.
  - simpl in *. lia.
  - cbn [ndigits_fuel]. destruct (Z.ltb_spec n 10) as [Hlt|Hge].
    + simpl. lia.
    + rewrite pow10_succ.
      assert (Hq : 0 <= n / 10 < 2 ^ Z.of_nat (S fuel)).
      { split; [apply Z.div_pos; lia|].
        apply Z.div_lt_upper_bound; [lia|].
        replace (Z.of_nat (S (S fuel))) with (Z.succ (Z.of_nat (S fuel))) in Hn by lia.
        rewrite Z.pow_succ_r in Hn by lia. lia. }
      specialize (IH _ Hq).
      pose proof (Z.div_mod n 10 ltac:(lia)).
      pose proof (Z.mod_pos_bound n 10 ltac:(lia)). lia.
Qed.

(** [ndigits n] digits are enough to write [n]. *)
Lemma ndigits_bound (n : Z) : 0 <= n -> n < 10 ^ Z.of_nat (ndigits n).
Proof.
  intros Hn. unfold ndigits. apply ndigits_fuel_bound. split; [lia|].
  destruct (Z.eq_dec n 0) as [->|Hnz]; [simpl; lia|].
  rewrite Nat2Z.inj_succ, Z2Nat.id by apply Z.log2_nonneg.
  apply Z.log2_spec. lia.
Qed.

Lemma no_newline_fixed_digits (k : nat) :
  forall n tail, no_newline (fixed_digits k n tail) = no_newline tail.
Proof.
  induction k as [|k IH]; intros n tail; [reflexivity|].
  cbn [fixed_digits]. rewrite IH. cbn [no_newline].
  rewrite digit_not_newline. reflexivity.
Qed.

Lemma no_newline_point_after (i k : nat) (c : Z) (tail : string) :
  no_newline (point_after i k c tail) = no_newline tail.
Proof.
  unfold point_after. rewrite no_newline_fixed_digits.
  destruct k; [reflexivity|].
  cbn [no_newline]. rewrite no_newline_fixed_digits. reflexivity.
Qed.

(** Reading back the digits written by [fixed_digits]. *)
Lemma parse_integer_fixed_digits (k : nat) :
  forall n tail decimals acc,
    parse_integer (fixed_digits k n tail) decimals acc
    = parse_integer tail decimals (acc * 10 ^ Z.of_nat k + n mod 10 ^ Z.of_nat k).
Proof.
  induction k as [|k IH]; intros n tail decimals acc.
  - simpl. rewrite Z.mod_1_r. f_equal; lia.
  - cbn [fixed_digits]. rewrite IH. cbn [parse_integer].
    rewrite digit_not_point, digit_value_digit.
    f_equal. rewrite mod_pow10_succ, pow10_succ. lia.
Qed.

Lemma parse_fraction_fixed_digits (k : nat) :
  forall n tail j acc,
    parse_fraction (fixed_digits k n tail) (k + j) acc
    = parse_fraction tail j (acc * 10 ^ Z.of_nat k + n mod 10 ^ Z.of_nat k).
Proof.
  induction k as [|k IH]; intros n tail j acc.
  - simpl. rewrite Z.mod_1_r. f_equal; lia.
  - cbn [fixed_digits].
    replace (S k + j)%nat with (k + S j)%nat by lia.
    rewrite IH. cbn [parse_fraction].
    rewrite digit_value_digit.
    f_equal. rewrite mod_pow10_succ, pow10_succ. lia.
Qed.

(** Reading back a number written with a decimal point. *)
Lemma parse_point_after (i k : nat) (c : Z) :
  0 <= c -> c / 10 ^ Z.of_nat k < 10 ^ Z.of_nat i ->
  parseAmountFull (point_after i k c "") k = Some c.
Proof.
  intros Hc Hi. unfold parseAmountFull, point_after.
  pose proof (pow10_pos k) as Hk.
  assert (Hq : 0 <= c / 10 ^ Z.of_nat k) by (apply Z.div_pos; lia).
  rewrite parse_integer_fixed_digits, (Z.mod_small (c / _)) by lia.
  destruct k as [|k].
  - cbn [parse_integer]. f_equal. simpl in *. rewrite Z.div_1_r. lia.
  - cbn [parse_integer]. change (Ascii.eqb "." ".") with true. cbv iota.
    pose proof (parse_fraction_fixed_digits (S k) (c mod 10 ^ Z.of_nat (S k)) "" 0) as Hf.
    rewrite Nat.add_0_r in Hf. rewrite Hf. cbn [parse_fraction].
    f_equal. pose proof (Z.div_mod c (10 ^ Z.of_nat (S k)) ltac:(lia)).
    rewrite (Z.mod_small (c mod _)) by (apply Z.mod_pos_bound; lia).
    simpl (10 ^ Z.of_nat 0). lia.
Qed.

(** C8. Full-precision formatting round-trips: for every non-negative raw
    amount and every number of decimals, [formatAmountFull] yields a string,
    and reading that string back, rescaled by 10^decimals, gives the raw
    amount again. *)
Theorem formatAmountFull_roundtrip (amount : Z) (decimals : nat) :
  0 <= amount ->
  exists s, formatAmountFull amount decimals = Ok s /\
            parseAmountFull s decimals = Some amount.
Proof.
  intros Ha. unfold formatAmountFull.
  destruct (Z.ltb_spec amount 0) as [Hneg|_]; [lia|].
  eexists; split; [reflexivity|].
  apply parse_point_after; [assumption|].
  apply ndigits_bound, Z.div_pos; [assumption|apply pow10_pos].
Qed.

(** ** bignumber.js values *)

Lemma isNeg_iff (q : Q) : BigNumber.isNeg q = true <-> (q < 0)%Q.
Proof.
  unfold BigNumber.isNeg, Qlt. cbn [Qnum Qden].
  rewrite Z.ltb_lt. lia.
Qed.

Lemma isNeg_Qeq (p q : Q) : (p == q)%Q -> BigNumber.isNeg p = BigNumber.isNeg q.
Proof.
  intros H. apply eq_true_iff_eq. rewrite !isNeg_iff, H. reflexivity.
Qed.

Lemma isZero_Qeq (p q : Q) : (p == q)%Q -> BigNumber.isZero p = BigNumber.isZero q.
Proof. intros H. unfold BigNumber.isZero. rewrite H. reflexivity. Qed.

Lemma isZero_iff (q : Q) : BigNumber.isZero q = true <-> (q == 0)%Q.
Proof. unfold BigNumber.isZero. apply Qeq_bool_iff. Qed.

Lemma round_Qeq (p q : Q) : (p == q)%Q -> BigNumber.round p = BigNumber.round q.
Proof.
  intros H. unfold BigNumber.round.
  rewrite (isNeg_Qeq p q H).
  assert (Hf : Qfloor (Qabs p * inject_Z (10 ^ Z.of_nat BigNumber.DECIMAL_PLACES) + (1 # 2))
               = Qfloor (Qabs q * inject_Z (10 ^ Z.of_nat BigNumber.DECIMAL_PLACES) + (1 # 2))).
  { apply Qfloor_comp. rewrite H. reflexivity. }
  rewrite Hf. reflexivity.
Qed.

(** The divisor matters only up to its value. *)
Lemma dividedBy_Qeq_r (x : BigNumber.t) (p q : Q) :
  (p == q)%Q -> BigNumber.dividedBy x (BigNumber.Fin p) = BigNumber.dividedBy x (BigNumber.Fin q).
Proof.
  intros H. destruct x as [r|a|]; cbn [BigNumber.dividedBy].
  - rewrite (isZero_Qeq p q H).
    destruct (BigNumber.isZero q); [reflexivity|].
    f_equal. apply round_Qeq. rewrite H. reflexivity.
  - rewrite (isNeg_Qeq p q H). reflexivity.
  - reflexivity.
Qed.

(** So does the dividend. *)
Lemma dividedBy_Qeq_l (y : BigNumber.t) (p q : Q) :
  (p == q)%Q -> BigNumber.dividedBy (BigNumber.Fin p) y = BigNumber.dividedBy (BigNumber.Fin q) y.
Proof.
  intros H. destruct y as [r|a|]; cbn [BigNumber.dividedBy]; [|reflexivity|reflexivity].
  rewrite (isZero_Qeq p q H), (isNeg_Qeq p q H).
  destruct (BigNumber.isZero r); [reflexivity|].
  f_equal. apply round_Qeq. rewrite H. reflexivity.
Qed.

Lemma Qred_inject_Z (z : Z) : Qred (inject_Z z) = inject_Z z.
Proof.
  unfold Qred, inject_Z.
  pose proof (Z.ggcd_gcd z 1) as Hg.
  pose proof (Z.ggcd_correct_divisors z 1) as Hd.
  destruct (Z.ggcd z 1) as (g, (a, b)). cbn [fst snd] in *.
  rewrite Z.gcd_1_r in Hg. subst g. destruct Hd as [Ha Hb].
  replace a with z by lia. replace b with 1 by lia. reflexivity.
Qed.

(** A value whose reduced form has the denominator 1 is that integer. *)
Lemma Qred_whole (q : Q) :
  Qden (Qred q) = 1%positive -> (q == inject_Z (Qnum (Qred q)))%Q.
Proof.
  intros H. rewrite <- (Qred_correct q) at 1.
  destruct (Qred q) as [a b]. cbn [Qden Qnum] in *. subst b. reflexivity.
Qed.

(** ** The digits of a whole number *)

Lemma ndigits_fuel_succ (fuel : nat) (n : Z) : exists j, ndigits_fuel fuel n = S j.
Proof.
  destruct fuel as [|fuel]; cbn [ndigits_fuel]; [exists O; reflexivity|].
  destruct (n <? 10)%Z; eexists; reflexivity.
Qed.

Lemma ndigits_succ (n : Z) : exists j, ndigits n = S j.
Proof. apply ndigits_fuel_succ. Qed.

Lemma ndigits_fuel_lower (fuel : nat) :
  forall n, 1 <= n -> 10 ^ (Z.of_nat (ndigits_fuel fuel n) - 1) <= n.
Proof.
  induction fuel as [|fuel IH]; intros n Hn.
  - simpl. lia.
  - cbn [ndigits_fuel]. destruct (Z.ltb_spec n 10) as [Hlt|Hge].
    + simpl. lia.
    + assert (Hq : 1 <= n / 10) by (apply Z.div_le_lower_bound; lia).
      specialize (IH _ Hq).
      destruct (ndigits_fuel_succ fuel (n / 10)) as [j Hj]. rewrite Hj in *.
      replace (Z.of_nat (S (S j)) - 1) with (Z.succ (Z.of_nat (S j) - 1)) by lia.
      rewrite Z.pow_succ_r by lia.
      pose proof (Z.mul_div_le n 10 ltac:(lia)). lia.
Qed.

(** A number of [ndigits n] digits is at least 10^(ndigits n - 1). *)
Lemma ndigits_lower (n : Z) : 1 <= n -> 10 ^ (Z.of_nat (ndigits n) - 1) <= n.
Proof. apply ndigits_fuel_lower. Qed.

Lemma parse_digits_fixed_digits (k : nat) :
  forall n tail acc,
    parse_digits (fixed_digits k n tail) acc
    = parse_digits tail (acc * 10 ^ Z.of_nat k + n mod 10 ^ Z.of_nat k).
Proof.
  induction k as [|k IH]; intros n tail acc.
  - simpl. rewrite Z.mod_1_r. f_equal; lia.
  - cbn [fixed_digits]. rewrite IH. cbn [parse_digits].
    rewrite digit_value_digit.
    f_equal. rewrite mod_pow10_succ, pow10_succ. lia.
Qed.

Lemma digit_not_minus (n : Z) : Ascii.eqb (digit (n mod 10)) "-" = false.
Proof. each_digit n; reflexivity. Qed.

(** A text that starts with a digit has no sign. *)
Lemma fixed_digits_head (k : nat) :
  forall n tail, exists m rest, fixed_digits (S k) n tail = String (digit (m mod 10)) rest.
Proof.
  induction k as [|k IH]; intros n tail.
  - exists n, tail. reflexivity.
  - change (fixed_digits (S (S k)) n tail)
      with (fixed_digits (S k) (n / 10) (String (digit (n mod 10)) tail)).
    apply IH.
Qed.

Lemma parseBN_fixed_digits (k : nat) (n : Z) (tail : string) :
  parseBN (fixed_digits (S k) n tail) = parse_digits (fixed_digits (S k) n tail) 0.
Proof.
  destruct (fixed_digits_head k n tail) as (m & rest & ->).
  unfold parseBN. rewrite digit_not_minus. reflexivity.
Qed.

(** What bn.js reads in the digits of a number, with or without a sign and
    whatever follows the digits. *)
Lemma parseBN_signed (negative : bool) (k : nat) (n : Z) (tail : string) :
  parseBN ((if negative then "-" else "") ++ fixed_digits (S k) n tail)
  = option_map (fun z => if negative then - z else z)
      (parse_digits tail (n mod 10 ^ Z.of_nat (S k))).
Proof.
  destruct negative.
  - change ("-" ++ ?s) with (String "-" s). unfold parseBN.
    change (Ascii.eqb "-" "-") with true. cbv iota.
    rewrite parse_digits_fixed_digits. reflexivity.
  - change ("" ++ ?s) with s. rewrite parseBN_fixed_digits, parse_digits_fixed_digits.
    destruct (parse_digits tail _); reflexivity.
Qed.

(** The text of a value, when it is in fixed notation. *)
Lemma toString_fixed (q : Q) :
  let r := Qred q in
  let k := BigNumber.places (Pos.size_nat (Qden r)) r in
  let c := Z.abs (Qfloor (r * inject_Z (10 ^ Z.of_nat k))) in
  let e := Z.of_nat (ndigits c) - 1 - Z.of_nat k in
  BigNumber.isZero r = false ->
  BigNumber.TO_EXP_NEG < e < BigNumber.TO_EXP_POS ->
  BigNumber.toString (BigNumber.Fin q)
  = (if BigNumber.isNeg r then "-" else "")
    ++ point_after (ndigits (c / 10 ^ Z.of_nat k)) k c "".
Proof.
  intros r k c e Hz He. unfold BigNumber.toString. fold r. fold k. fold c. fold e.
  rewrite Hz.
  replace ((e <=? BigNumber.TO_EXP_NEG)%Z || (BigNumber.TO_EXP_POS <=? e)%Z) with false;
    [reflexivity|].
  symmetry. apply orb_false_iff. split; [apply Z.leb_gt|apply Z.leb_gt]; lia.
Qed.

(** bn.js reads a non-negative integer below 10^21 from its text. *)
Lemma BN_of_Z (z : Z) : 0 <= z < 10 ^ 21 -> BN (BigNumber.of_Z z) = Ok z.
Proof.
  intros Hz. unfold BN, BigNumber.of_Z.
  destruct (Z.eq_dec z 0) as [->|Hnz]; [reflexivity|].
  assert (Hzero : BigNumber.isZero (Qred (inject_Z z)) = false).
  { rewrite Qred_inject_Z. apply not_true_is_false. intros E. apply isZero_iff in E.
    unfold Qeq in E. cbn [inject_Z Qnum Qden] in E. lia. }
  pose proof (toString_fixed (inject_Z z)) as Hs. cbv zeta in Hs.
  rewrite Qred_inject_Z in Hs, Hzero.
  change (BigNumber.places (Pos.size_nat (Qden (inject_Z z))) (inject_Z z))
    with (if (Z.pos (Qden (Qred (inject_Z z))) =? 1)%Z then O
          else S (BigNumber.places 0 (inject_Z z * inject_Z 10))) in Hs.
  rewrite Qred_inject_Z in Hs.
  change (Z.pos (Qden (inject_Z z)) =? 1)%Z with true in Hs. cbv iota in Hs.
  assert (Hc : Z.abs (Qfloor (inject_Z z * inject_Z (10 ^ Z.of_nat 0))) = z).
  { unfold Qfloor, Qmult, inject_Z. cbn [Qnum Qden]. simpl (10 ^ Z.of_nat 0).
    rewrite Z.mul_1_r, Z.div_1_r. lia. }
  rewrite Hc in Hs.
  assert (Hneg : BigNumber.isNeg (inject_Z z) = false).
  { unfold BigNumber.isNeg. cbn [inject_Z Qnum]. apply Z.ltb_ge. lia. }
  rewrite Hneg in Hs.
  rewrite Hs; [|assumption|].
  - unfold point_after. simpl (10 ^ Z.of_nat 0). rewrite Z.div_1_r.
    destruct (ndigits_succ z) as [j Hj]. rewrite Hj.
    rewrite (parseBN_signed false j z ""). cbn [parse_digits option_map].
    rewrite <- Hj, Z.mod_small; [reflexivity|].
    split; [lia|]. apply ndigits_bound. lia.
  - unfold BigNumber.TO_EXP_NEG, BigNumber.TO_EXP_POS.
    pose proof (ndigits_lower z ltac:(lia)) as Hlow.
    destruct (ndigits_succ z) as [j Hj]. rewrite Hj in *.
    split; [lia|].
    destruct (Z_lt_le_dec (Z.of_nat (S j) - 1 - Z.of_nat 0) 21) as [Hlt|Hge]; [assumption|].
    exfalso.
    assert (10 ^ 21 <= 10 ^ (Z.of_nat (S j) - 1)) by (apply Z.pow_le_mono_r; lia).
    lia.
Qed.

(** What bn.js reads in the text of a value is a whole number, and it is
    the value. *)
Lemma BN_some (x : BigNumber.t) (z : Z) :
  BN x = Ok z -> exists q, x = BigNumber.Fin q /\ (q == inject_Z z)%Q.
Proof.
  unfold BN. destruct x as [q|[|]|]; try discriminate.
  exists q. split; [reflexivity|].
  revert H. unfold BigNumber.toString.
  set (r := Qred q).
  set (k := BigNumber.places (Pos.size_nat (Qden r)) r).
  set (c := Z.abs (Qfloor (r * inject_Z (10 ^ Z.of_nat k)))).
  destruct (BigNumber.isZero r) eqn:Hzero.
  { cbn. intros [= <-]. apply isZero_iff in Hzero. unfold r in Hzero.
    rewrite Qred_correct in Hzero. assumption. }
  set (sign := if BigNumber.isNeg r then "-" else "").
  destruct ((_ <=? BigNumber.TO_EXP_NEG)%Z || _).
  - (* exponential notation *)
    unfold point_after.
    change (fixed_digits 1 ?n ?t) with (fixed_digits (S O) n t).
    unfold sign. rewrite parseBN_signed.
    destruct (ndigits (BigNumber.strip_zeros (ndigits c) c) - 1)%nat; discriminate.
  - unfold point_after.
    destruct (ndigits_succ (c / 10 ^ Z.of_nat k)) as [j Hj]. rewrite Hj.
    unfold sign. rewrite parseBN_signed.
    destruct k as [|k'] eqn:Hk; [|discriminate].
    cbn [parse_digits option_map].
    assert (Hden : Qden (Qred r) = 1%positive).
    { unfold k in Hk. destruct (Pos.size_nat (Qden r)) as [|f] eqn:Hf.
      - destruct (Qden r); discriminate Hf.
      - cbn [BigNumber.places] in Hk.
        destruct (Z.eqb_spec (Z.pos (Qden (Qred r))) 1) as [E|_]; [|discriminate].
        congruence. }
    pose proof (Qred_whole r Hden) as Hr.
    assert (Hrr : Qred r = r) by (unfold r; apply Qred_complete, Qred_correct).
    rewrite Hrr in Hr.
    assert (Hfloor : Qfloor (r * inject_Z (10 ^ Z.of_nat 0)) = Qnum r).
    { rewrite (Qfloor_comp _ (inject_Z (Qnum r))); [apply Qfloor_Z|].
      simpl (10 ^ Z.of_nat 0). rewrite Hr at 1. ring. }
    assert (Hcval : c = Z.abs (Qnum r)) by (unfold c; rewrite Hfloor; reflexivity).
    simpl (10 ^ Z.of_nat 0). rewrite Z.div_1_r in *.
    rewrite <- Hj, Z.mod_small
      by (split; [unfold c; lia|apply ndigits_bound; unfold c; lia]).
    intros [= <-].
    assert (Hval : (if BigNumber.isNeg r then - c else c) = Qnum r).
    { unfold BigNumber.isNeg. rewrite Hcval.
      destruct (Z.ltb_spec (Qnum r) 0); lia. }
    rewrite Hval, <- Hr. unfold r. symmetry. apply Qred_correct.
Qed.
(** ** Doubles *)

Lemma inject_Z_pos (z : Z) : 0 < z -> (0 < inject_Z z)%Q.
Proof. intros Hz. change 0%Q with (inject_Z 0). rewrite <- Zlt_Qlt. assumption. Qed.

Lemma inject_Z_nonzero (z : Z) : z <> 0 -> ~ (inject_Z z == 0)%Q.
Proof. intros Hz E. unfold Qeq in E. cbn [inject_Z Qnum Qden] in E. lia. Qed.

(** The nearest integer is within a half of the quotient. *)
Lemma roundDiv_spec (a b : Z) :
  0 < b ->
  2 * JS.roundDiv a b * b <= 2 * a + b /\ 2 * a <= 2 * JS.roundDiv a b * b + b.
Proof.
  intros Hb. unfold JS.roundDiv.
  pose proof (Z.div_mod a b ltac:(lia)) as Hdiv.
  pose proof (Z.mod_pos_bound a b Hb) as Hmod.
  destruct (Z.ltb_spec (2 * (a mod b)) b); [nia|].
  destruct (Z.ltb_spec b (2 * (a mod b))); [nia|].
  destruct (Z.even (a / b)); nia.
Qed.

Lemma roundDiv_nonneg (a b : Z) : 0 <= a -> 0 < b -> 0 <= JS.roundDiv a b.
Proof.
  intros Ha Hb. unfold JS.roundDiv.
  pose proof (Z.div_pos a b Ha Hb).
  destruct (2 * (a mod b) <? b)%Z; [lia|].
  destruct (b <? 2 * (a mod b))%Z; [lia|].
  destruct (Z.even (a / b)); lia.
Qed.

Lemma roundDiv_one (a : Z) : JS.roundDiv a 1 = a.
Proof.
  unfold JS.roundDiv. rewrite Z.mod_1_r, Z.div_1_r. reflexivity.
Qed.

Lemma two_pos (z : Z) : (0 < 2 ^ z)%Q.
Proof. apply Qpower_0_lt. reflexivity. Qed.

Lemma two_pow_inject (z : Z) : 0 <= z -> (inject_Z (2 ^ z) == 2 ^ z)%Q.
Proof. intros Hz. rewrite Zpower_Qpower by assumption. reflexivity. Qed.

Lemma two_pow_plus (x y : Z) : (2 ^ (x + y) == 2 ^ x * 2 ^ y)%Q.
Proof. apply Qpower_plus. discriminate. Qed.

Lemma two_pow_opp (x : Z) : (2 ^ (- x) * 2 ^ x == 1)%Q.
Proof. rewrite <- two_pow_plus. replace (- x + x) with 0 by lia. reflexivity. Qed.

Lemma two_pow_le (x y : Z) : x <= y -> (2 ^ x <= 2 ^ y)%Q.
Proof.
  intros H. replace y with (x + (y - x)) by lia. rewrite two_pow_plus.
  pose proof (two_pos x) as Hx.
  assert (H1 : (1 <= 2 ^ (y - x))%Q).
  { rewrite <- two_pow_inject by lia. change 1%Q with (inject_Z 1). rewrite <- Zle_Qle.
    pose proof (Z.pow_pos_nonneg 2 (y - x) ltac:(lia) ltac:(lia)). lia. }
  setoid_replace (2 ^ x)%Q with (2 ^ x * 1)%Q at 1 by ring.
  apply Qmult_le_l; assumption.
Qed.

(** The comparison of a quotient with a power of two. *)
Lemma pow2Le_spec (l a d : Z) :
  0 < d -> JS.pow2Le l a d = true <-> (2 ^ l * inject_Z d <= inject_Z a)%Q.
Proof.
  intros Hd. unfold JS.pow2Le. destruct (Z.leb_spec 0 l) as [Hl|Hl].
  - rewrite Z.leb_le, Zle_Qle, inject_Z_mult, two_pow_inject by assumption.
    rewrite (Qmult_comm (inject_Z d)). reflexivity.
  - rewrite Z.leb_le, Zle_Qle, inject_Z_mult, two_pow_inject by lia.
    pose proof (two_pos (- l)) as Hp. pose proof (two_pow_opp (- l)) as Ho.
    replace (- - l) with l in Ho by lia.
    assert (Hs : (2 ^ l * inject_Z d * 2 ^ (- l) == inject_Z d)%Q).
    { setoid_replace (2 ^ l * inject_Z d * 2 ^ (- l))%Q
        with (2 ^ l * 2 ^ (- l) * inject_Z d)%Q by ring.
      rewrite Ho. ring. }
    split; intros H.
    + apply (Qmult_le_r _ _ (2 ^ (- l))%Q Hp). rewrite Hs. assumption.
    + apply (Qmult_le_r _ _ (2 ^ (- l))%Q Hp) in H. rewrite Hs in H. assumption.
Qed.

(** The binary exponent of a positive quotient. *)
Lemma exponent_spec (a d : Z) :
  0 < a -> 0 < d ->
  (2 ^ JS.exponent a d * inject_Z d <= inject_Z a)%Q /\
  (inject_Z a < 2 ^ (JS.exponent a d + 1) * inject_Z d)%Q.
Proof.
  intros Ha Hd.
  pose proof (Z.log2_spec a Ha) as [Ha1 Ha2].
  pose proof (Z.log2_spec d Hd) as [Hd1 Hd2].
  pose proof (Z.log2_nonneg a) as Hla. pose proof (Z.log2_nonneg d) as Hld.
  rewrite Z.pow_succ_r in Ha2, Hd2 by assumption.
  rewrite Zle_Qle in Ha1, Hd1. rewrite Zlt_Qlt in Ha2, Hd2.
  rewrite inject_Z_mult in Ha2, Hd2.
  rewrite two_pow_inject in Ha1, Ha2, Hd1, Hd2 by assumption.
  change (inject_Z 2) with 2%Q in *.
  set (la := Z.log2 a) in *. set (ld := Z.log2 d) in *.
  pose proof (two_pos la) as Hpa. pose proof (two_pos ld) as Hpd.
  pose proof (inject_Z_pos d Hd) as HD.
  assert (Hsplit : (2 ^ la == 2 ^ (la - ld) * 2 ^ ld)%Q).
  { rewrite <- two_pow_plus. replace (la - ld + ld) with la by lia. reflexivity. }
  pose proof (two_pos (la - ld)) as Hp0.
  (* 2^(l0 - 1) <= a/d < 2^(l0 + 1) *)
  assert (Hlow : (2 ^ (la - ld - 1) * inject_Z d <= inject_Z a)%Q).
  { assert (Hhalf : (2 ^ (la - ld) == 2 ^ (la - ld - 1) * 2)%Q).
    { replace (la - ld) with (la - ld - 1 + 1) at 1 by lia. rewrite two_pow_plus.
      reflexivity. }
    pose proof (two_pos (la - ld - 1)) as Hp1.
    apply Qle_trans with (2 ^ (la - ld - 1) * (2 * 2 ^ ld))%Q.
    - apply Qmult_le_l; [assumption|]. apply Qlt_le_weak. assumption.
    - rewrite Qmult_assoc, <- Hhalf, <- Hsplit. assumption. }
  assert (Hhigh : (inject_Z a < 2 ^ (la - ld + 1) * inject_Z d)%Q).
  { apply Qlt_le_trans with (2 * 2 ^ la)%Q; [assumption|].
    rewrite two_pow_plus, Hsplit.
    setoid_replace (2 * (2 ^ (la - ld) * 2 ^ ld))%Q
      with (2 ^ (la - ld) * 2 ^ 1 * 2 ^ ld)%Q by ring.
    apply Qmult_le_l; [|assumption].
    apply Qmult_lt_0_compat; [assumption|reflexivity]. }
  unfold JS.exponent. fold la ld.
  destruct (JS.pow2Le (la - ld) a d) eqn:E.
  - apply pow2Le_spec in E; [|assumption]. split; assumption.
  - split; [assumption|].
    replace (la - ld - 1 + 1) with (la - ld) by lia.
    apply Qnot_le_lt. intros Hle.
    apply (pow2Le_spec _ _ _ Hd) in Hle. congruence.
Qed.

(** The double nearest to a positive quotient a/d is within half a unit of
    its last place, 2^e with e the exponent of the quotient, or -1022 if
    that is larger, less 52. *)
Lemma nearest_spec (a d : Z) (v : Q) :
  0 < a -> 0 < d ->
  JS.nearest a d = Some v ->
  let T := (2 ^ (Z.max (JS.exponent a d) (-1022) - 52))%Q in
  (0 <= v)%Q /\
  (v * inject_Z d - T * inject_Z d * (1 # 2) <= inject_Z a)%Q /\
  (inject_Z a <= v * inject_Z d + T * inject_Z d * (1 # 2))%Q.
Proof.
  intros Ha Hd. unfold JS.nearest.
  set (e := Z.max (JS.exponent a d) (-1022) - 52).
  destruct (_ || _); [discriminate|].
  intros Hv. injection Hv as <-.
  pose proof (inject_Z_pos d Hd) as HD.
  destruct (Z.leb_spec 0 e) as [He|He].
  - assert (Ht : 0 < 2 ^ e) by (apply Z.pow_pos_nonneg; lia).
    pose proof (roundDiv_spec a (d * 2 ^ e) ltac:(nia)) as [H1 H2].
    pose proof (roundDiv_nonneg a (d * 2 ^ e) ltac:(lia) ltac:(nia)) as H0.
    rewrite <- two_pow_inject by assumption.
    set (m := JS.roundDiv a (d * 2 ^ e)) in *.
    rewrite Zle_Qle in H0, H1, H2.
    rewrite ?inject_Z_plus, ?inject_Z_mult in H1, H2.
    rewrite ?inject_Z_mult.
    change (inject_Z 2) with 2%Q in *. change (inject_Z 0) with 0%Q in *.
    pose proof (inject_Z_pos (2 ^ e) Ht) as HT.
    generalize dependent (inject_Z (2 ^ e)). intros T H1 H2 HT.
    generalize dependent (inject_Z m). intros M H0 H1 H2.
    generalize dependent (inject_Z d). intros D HD H1 H2.
    generalize dependent (inject_Z a). intros A H1 H2.
    split; [apply Qmult_le_0_compat; [assumption|apply Qlt_le_weak; assumption]|].
    setoid_replace (2 * M * (D * T))%Q with (2 * (M * T * D))%Q in H1 by ring.
    setoid_replace (2 * M * (D * T))%Q with (2 * (M * T * D))%Q in H2 by ring.
    setoid_replace (D * T)%Q with (T * D)%Q in H1 by ring.
    setoid_replace (D * T)%Q with (T * D)%Q in H2 by ring.
    generalize dependent (M * T * D)%Q. intros X H1 H2.
    generalize dependent (T * D)%Q. intros Y H1 H2.
    split; lra.
  - assert (Hu : 0 < 2 ^ (- e)) by (apply Z.pow_pos_nonneg; lia).
    pose proof (roundDiv_spec (a * 2 ^ (- e)) d Hd) as [H1 H2].
    pose proof (roundDiv_nonneg (a * 2 ^ (- e)) d ltac:(nia) Hd) as H0.
    set (m := JS.roundDiv (a * 2 ^ (- e)) d) in *.
    rewrite Zle_Qle in H0, H1, H2.
    rewrite ?inject_Z_plus, ?inject_Z_mult in H1, H2.
    change (inject_Z 2) with 2%Q in *. change (inject_Z 0) with 0%Q in *.
    pose proof (inject_Z_pos (2 ^ (- e)) Hu) as HU.
    assert (HT : (2 ^ e == / inject_Z (2 ^ (- e)))%Q).
    { rewrite two_pow_inject by lia. rewrite <- Qpower_opp.
      replace (- - e) with e by lia. reflexivity. }
    assert (Hv : (Qred (m # Z.to_pos (2 ^ (- e))) == inject_Z m / inject_Z (2 ^ (- e)))%Q).
    { rewrite Qred_correct. unfold Qeq, Qdiv, Qmult, Qinv, inject_Z. cbn [Qnum Qden].
      destruct (2 ^ (- e)) as [|u|u] eqn:E; try lia. cbn [Qnum Qden Z.to_pos]. lia. }
    rewrite Hv, HT.
    generalize dependent (inject_Z (2 ^ (- e))). intros U H1 H2 HU _ _.
    generalize dependent (inject_Z m). intros M H0 H1 H2.
    generalize dependent (inject_Z d). intros D HD H1 H2.
    generalize dependent (inject_Z a). intros A H1 H2.
    assert (HiU : (0 < / U)%Q) by (apply Qinv_lt_0_compat; assumption).
    split; [|split].
    + apply Qmult_le_0_compat; [assumption|apply Qlt_le_weak; assumption].
    + apply (Qmult_le_r _ _ U HU).
      setoid_replace ((M / U * D - / U * D * (1 # 2)) * U)%Q with (M * D - D * (1 # 2))%Q
        by (field; intros E; rewrite E in HU; discriminate).
      lra.
    + apply (Qmult_le_r _ _ U HU).
      setoid_replace ((M / U * D + / U * D * (1 # 2)) * U)%Q with (M * D + D * (1 # 2))%Q
        by (field; intros E; rewrite E in HU; discriminate).
      lra.
Qed.

Lemma Qmake_times_den (q : Q) : (q * inject_Z (Z.pos (Qden q)) == inject_Z (Qnum q))%Q.
Proof.
  destruct q as [a d]. unfold Qeq, Qmult, inject_Z. cbn [Qnum Qden]. lia.
Qed.

Lemma two_pow_exponent_le (x y : Z) (D A : Q) :
  (0 < D)%Q -> (2 ^ x * D <= A)%Q -> (A < 2 ^ y * D)%Q -> x < y.
Proof.
  intros HD H1 H2.
  destruct (Z_lt_le_dec x y) as [Hlt|Hge]; [assumption|exfalso].
  pose proof (two_pow_le y x Hge) as Hle.
  apply (Qmult_le_compat_r _ _ D) in Hle; [|apply Qlt_le_weak; assumption].
  apply (Qlt_irrefl A).
  apply Qlt_le_trans with (2 ^ y * D)%Q; [assumption|].
  apply Qle_trans with (2 ^ x * D)%Q; assumption.
Qed.

(** The error of a rounding in the range of the normal doubles. *)
Lemma nearest_normal (a d : Z) (v : Q) :
  0 < a -> 0 < d -> -1022 <= JS.exponent a d ->
  JS.nearest a d = Some v ->
  (inject_Z a - inject_Z a * JS.epsilon <= v * inject_Z d)%Q /\
  (v * inject_Z d <= inject_Z a + inject_Z a * JS.epsilon)%Q.
Proof.
  intros Ha Hd Hex Hv.
  destruct (nearest_spec a d v Ha Hd Hv) as (_ & H1 & H2).
  destruct (exponent_spec a d Ha Hd) as [Hlow _].
  rewrite Z.max_l in H1, H2 by assumption.
  replace (JS.exponent a d - 52) with (JS.exponent a d + -52) in H1, H2 by lia.
  rewrite two_pow_plus in H1, H2.
  change (2 ^ (-52))%Q with (1 # 4503599627370496)%Q in H1, H2.
  setoid_replace (2 ^ JS.exponent a d * (1 # 4503599627370496) * inject_Z d * (1 # 2))%Q
    with (2 ^ JS.exponent a d * inject_Z d * JS.epsilon)%Q in H1
    by (unfold JS.epsilon; ring).
  setoid_replace (2 ^ JS.exponent a d * (1 # 4503599627370496) * inject_Z d * (1 # 2))%Q
    with (2 ^ JS.exponent a d * inject_Z d * JS.epsilon)%Q in H2
    by (unfold JS.epsilon; ring).
  generalize dependent (2 ^ JS.exponent a d * inject_Z d)%Q. intros P H1 H2 Hlow.
  generalize dependent (v * inject_Z d)%Q. intros V H1 H2.
  generalize dependent (inject_Z a). intros A H1 H2 Hlow.
  unfold JS.epsilon in *. split; lra.
Qed.

(** A value between 2^-64 and 2^64 is rounded to a double within the
    part 2^-53 of it. *)
Lemma binary64_error (q : Q) :
  (1 # 18446744073709551616 <= q)%Q -> (q <= 18446744073709551616 # 1)%Q ->
  exists v,
    JS.binary64 q = JS.Num v /\
    (q - q * JS.epsilon <= v)%Q /\ (v <= q + q * JS.epsilon)%Q.
Proof.
  intros Hlo Hhi.
  assert (Hq : (0 < q)%Q) by (apply Qlt_le_trans with (1 # 18446744073709551616)%Q;
                              [reflexivity|assumption]).
  pose proof (Qmake_times_den q) as Hval.
  assert (Ha : 0 < Qnum q) by (unfold Qlt in Hq; cbn [Qnum Qden] in Hq; lia).
  set (a := Qnum q) in *. set (d := Z.pos (Qden q)) in *.
  assert (Hd : 0 < d) by reflexivity.
  pose proof (inject_Z_pos d Hd) as HD.
  destruct (exponent_spec a d Ha Hd) as [Hlow Hhigh].
  assert (Hex1 : -65 < JS.exponent a d + 1).
  { apply (two_pow_exponent_le _ _ (inject_Z d) (inject_Z a) HD); [|assumption].
    rewrite <- Hval. apply Qmult_le_compat_r; [|apply Qlt_le_weak; assumption].
    apply Qle_trans with (1 # 18446744073709551616)%Q; [|assumption].
    change (2 ^ (-65))%Q with (1 # 36893488147419103232)%Q. discriminate. }
  assert (Hex2 : JS.exponent a d < 65).
  { apply (two_pow_exponent_le _ _ (inject_Z d) (inject_Z a) HD); [assumption|].
    rewrite <- Hval. apply Qmult_lt_compat_r; [assumption|].
    apply Qle_lt_trans with (18446744073709551616 # 1)%Q; [assumption|].
    change (2 ^ 65)%Q with (36893488147419103232 # 1)%Q. reflexivity. }
  unfold JS.binary64. fold a.
  destruct (Z.eqb_spec a 0) as [E|_]; [lia|].
  rewrite Z.abs_eq by lia. fold d.
  destruct (JS.nearest a d) as [v|] eqn:Hv.
  - destruct (Z.ltb_spec a 0) as [E|_]; [lia|].
    exists v. split; [reflexivity|].
    destruct (nearest_normal a d v Ha Hd ltac:(lia) Hv) as [H1 H2].
    rewrite <- Hval in H1, H2.
    split.
    + apply (Qmult_le_r _ _ (inject_Z d) HD).
      setoid_replace ((q - q * JS.epsilon) * inject_Z d)%Q
        with (q * inject_Z d - q * inject_Z d * JS.epsilon)%Q by ring.
      assumption.
    + apply (Qmult_le_r _ _ (inject_Z d) HD).
      setoid_replace ((q + q * JS.epsilon) * inject_Z d)%Q
        with (q * inject_Z d + q * inject_Z d * JS.epsilon)%Q by ring.
      assumption.
  - exfalso. unfold JS.nearest in Hv.
    rewrite Z.max_l in Hv by lia.
    set (e := JS.exponent a d - 52) in *.
    destruct (Z.ltb_spec 971 e) as [E|_]; [lia|].
    destruct (Z.eqb_spec e 971) as [E|_]; [lia|].
    discriminate Hv.
Qed.

(** A double that is at least 1 stands only for values within the part
    2^-53 of themselves. *)
Lemma binary64_inverse (c v : Q) :
  JS.binary64 c = JS.Num v -> (1 <= v)%Q ->
  (c - c * JS.epsilon <= v)%Q /\ (v <= c + c * JS.epsilon)%Q.
Proof.
  unfold JS.binary64. intros Hc Hv.
  destruct (Z.eqb_spec (Qnum c) 0) as [E|Hnz].
  { injection Hc as <-. exfalso. apply (Qlt_irrefl 0).
    apply Qlt_le_trans with 1%Q; [reflexivity|assumption]. }
  set (a := Z.abs (Qnum c)) in *. set (d := Z.pos (Qden c)) in *.
  assert (Ha : 0 < a) by (unfold a; lia).
  assert (Hd : 0 < d) by reflexivity.
  pose proof (inject_Z_pos d Hd) as HD.
  destruct (JS.nearest a d) as [w|] eqn:Hw; [|discriminate].
  destruct (nearest_spec a d w Ha Hd Hw) as (Hw0 & H1 & H2).
  destruct (Z.ltb_spec (Qnum c) 0) as [Hneg|Hpos]; injection Hc as <-.
  { exfalso. apply (Qlt_irrefl 0). apply Qlt_le_trans with 1%Q; [reflexivity|].
    apply Qle_trans with (- w)%Q; [assumption|lra]. }
  pose proof (Qmake_times_den c) as Hval.
  replace (Qnum c) with a in Hval by (unfold a; lia). fold d in Hval.
  destruct (Z_le_gt_dec (-1022) (JS.exponent a d)) as [Hex|Hex].
  - destruct (nearest_normal a d w Ha Hd Hex Hw) as [H3 H4].
    rewrite <- Hval in H3, H4.
    split.
    + apply (Qmult_le_r _ _ (inject_Z d) HD).
      setoid_replace ((c - c * JS.epsilon) * inject_Z d)%Q
        with (c * inject_Z d - c * inject_Z d * JS.epsilon)%Q by ring.
      assumption.
    + apply (Qmult_le_r _ _ (inject_Z d) HD).
      setoid_replace ((c + c * JS.epsilon) * inject_Z d)%Q
        with (c * inject_Z d + c * inject_Z d * JS.epsilon)%Q by ring.
      assumption.
  - (* below the normal doubles there is no double as large as 1 *)
    exfalso.
    destruct (exponent_spec a d Ha Hd) as [_ Hhigh].
    rewrite Z.max_r in H1 by lia.
    assert (Hp : (2 ^ (JS.exponent a d + 1) * inject_Z d <= (1 # 4) * inject_Z d)%Q).
    { apply Qmult_le_compat_r; [|apply Qlt_le_weak; assumption].
      apply (two_pow_le (JS.exponent a d + 1) (-2)). lia. }
    assert (Ht : (2 ^ (-1022 - 52) * inject_Z d <= (1 # 4) * inject_Z d)%Q).
    { apply Qmult_le_compat_r; [|apply Qlt_le_weak; assumption].
      apply (two_pow_le (-1022 - 52) (-2)). lia. }
    assert (Hv' : (1 * inject_Z d <= w * inject_Z d)%Q).
    { apply Qmult_le_compat_r; [assumption|apply Qlt_le_weak; assumption]. }
    clear H2 Hval Hw.
    remember (2 ^ (JS.exponent a d + 1) * inject_Z d)%Q as P eqn:EP. clear EP.
    remember (2 ^ (-1022 - 52) * inject_Z d)%Q as T eqn:ET. clear ET.
    remember (w * inject_Z d)%Q as W eqn:EW. clear EW.
    remember (inject_Z a) as A eqn:EA. clear EA.
    remember (inject_Z d) as D eqn:ED. clear ED.
    lra.
Qed.

(** A positive integer below 2^52 is a double. *)
Lemma ofZ_exact (z : Z) : 0 < z < 2 ^ 52 -> JS.ofZ z = JS.Num (inject_Z z).
Proof.
  intros Hz. unfold JS.ofZ, JS.binary64. cbn [inject_Z Qnum Qden].
  destruct (Z.eqb_spec z 0) as [E|_]; [lia|].
  destruct (Z.ltb_spec z 0) as [E|_]; [lia|].
  rewrite Z.abs_eq by lia.
  pose proof (Z.log2_nonneg z) as Hl0.
  assert (Hl : Z.log2 z < 52) by (apply Z.log2_lt_pow2; lia).
  assert (Hex : JS.exponent z 1 = Z.log2 z).
  { unfold JS.exponent. change (Z.log2 1) with 0. rewrite Z.sub_0_r.
    unfold JS.pow2Le. destruct (Z.leb_spec 0 (Z.log2 z)) as [_|E]; [|lia].
    destruct (Z.log2_spec z ltac:(lia)) as [Hlow _].
    rewrite Z.mul_1_l. apply Z.leb_le in Hlow. rewrite Hlow. reflexivity. }
  unfold JS.nearest. rewrite Hex, Z.max_l by lia.
  set (e := Z.log2 z - 52).
  destruct (Z.leb_spec 0 e) as [E|_]; [lia|].
  destruct (Z.ltb_spec 971 e) as [E|_]; [lia|].
  destruct (Z.eqb_spec e 971) as [E|_]; [lia|].
  cbn [orb andb]. rewrite roundDiv_one. f_equal.
  rewrite <- (Qred_inject_Z z). apply Qred_complete.
  assert (Hp : 0 < 2 ^ (- e)) by (apply Z.pow_pos_nonneg; lia).
  unfold Qeq, inject_Z. cbn [Qnum Qden]. rewrite Z2Pos.id by assumption. lia.
Qed.

Lemma withDigits_reads (q c : Q) (k : nat) :
  JS.withDigits q k = Some c -> JS.readsAs q c = true.
Proof.
  unfold JS.withDigits.
  set (scale := JS.tenTo _). set (s := Qfloor _).
  destruct (JS.readsAs q (inject_Z s * scale)) eqn:Hlo;
    destruct (JS.readsAs q (inject_Z (s + 1) * scale)) eqn:Hhi;
    try discriminate.
  - destruct (_ ?= _)%Q; [destruct (Z.even s)| |]; intros [= <-]; assumption.
  - intros [= <-]; assumption.
  - intros [= <-]; assumption.
Qed.

Lemma shortestFrom_reads (count : nat) :
  forall k q,
    JS.shortestFrom count k q = q \/ JS.readsAs q (JS.shortestFrom count k q) = true.
Proof.
  induction count as [|count IH]; intros k q; cbn [JS.shortestFrom].
  - left. reflexivity.
  - destruct (JS.withDigits q k) as [c|] eqn:E.
    + right. apply (withDigits_reads q c k E).
    + apply IH.
Qed.

(** The decimal written for a double that is at least 1 is within the part
    2^-53 of itself from that double. *)
Lemma shortest_error (y : Q) :
  (1 <= y)%Q ->
  (JS.shortest y - JS.shortest y * JS.epsilon <= y)%Q /\
  (y <= JS.shortest y + JS.shortest y * JS.epsilon)%Q.
Proof.
  intros Hy. unfold JS.shortest.
  assert (Hpos : (0 < y)%Q) by (apply Qlt_le_trans with 1%Q; [reflexivity|assumption]).
  destruct (Qeq_bool y 0) eqn:E.
  { apply Qeq_bool_eq in E. rewrite E in Hpos. discriminate. }
  destruct (Z.ltb_spec (Qnum y) 0) as [Hneg|_].
  { unfold Qlt in Hpos. cbn [Qnum Qden] in Hpos. lia. }
  destruct (shortestFrom_reads 17 1 y) as [Hc|Hc].
  - rewrite Hc, Qred_correct. unfold JS.epsilon. split; lra.
  - rewrite Qred_correct. set (c := JS.shortestFrom 17 1 y) in *.
    unfold JS.readsAs in Hc.
    destruct (JS.binary64 c) as [y'| |] eqn:Hb; try discriminate.
    apply Qeq_bool_eq in Hc.
    rewrite Hc in Hy |- *. apply (binary64_inverse c y' Hb Hy).
Qed.

(** The factor of the fill amount, for a fee denominator from 1 to 2^50:
    the decimal that the library reads in the double 1 + 2/FEE_DENOMINATOR
    is above 1 and within 10^-15 of the exact 1 + 2/FEE_DENOMINATOR. *)
Lemma FACTOR_TO_FILL_ORDER_value :
  1 <= FEE_DENOMINATOR <= 2 ^ 50 ->
  exists F,
    BigNumber.ofNumber FACTOR_TO_FILL_ORDER = BigNumber.Fin F /\
    (1 < F)%Q /\
    (Qabs (F - (1 + inject_Z 2 / inject_Z FEE_DENOMINATOR)) <= 1 # 1000000000000000)%Q.
Proof.
  intros Hfee. unfold FACTOR_TO_FILL_ORDER.
  rewrite (ofZ_exact FEE_DENOMINATOR), (ofZ_exact 1), (ofZ_exact 2) by lia.
  cbn [JS.div].
  pose proof (inject_Z_pos FEE_DENOMINATOR ltac:(lia)) as HD.
  assert (Hz : Qeq_bool (inject_Z FEE_DENOMINATOR) 0 = false).
  { destruct (Qeq_bool (inject_Z FEE_DENOMINATOR) 0) eqn:E; [|reflexivity].
    apply Qeq_bool_eq in E. rewrite E in HD. discriminate. }
  rewrite Hz.
  assert (HDhi : (inject_Z FEE_DENOMINATOR <= 1125899906842624 # 1)%Q).
  { change (1125899906842624 # 1)%Q with (inject_Z (2 ^ 50)). rewrite <- Zle_Qle. lia. }
  assert (HDlo : (1 <= inject_Z FEE_DENOMINATOR)%Q).
  { change 1%Q with (inject_Z 1). rewrite <- Zle_Qle. lia. }
  set (t := (inject_Z 2 / inject_Z FEE_DENOMINATOR)%Q).
  change (inject_Z 2) with 2%Q in t.
  assert (Ht1 : (1 # 562949953421312 <= t)%Q).
  { apply Qle_shift_div_l; [assumption|].
    remember (inject_Z FEE_DENOMINATOR) as D eqn:ED. clear ED. lra. }
  assert (Ht2 : (t <= 2)%Q).
  { apply Qle_shift_div_r; [assumption|].
    remember (inject_Z FEE_DENOMINATOR) as D eqn:ED. clear ED. lra. }
  clearbody t.
  destruct (binary64_error t) as (x & -> & Hx1 & Hx2).
  { apply Qle_trans with (1 # 562949953421312)%Q; [discriminate|assumption]. }
  { apply Qle_trans with 2%Q; [assumption|discriminate]. }
  cbn [JS.add]. change (inject_Z 1) with 1%Q.
  unfold JS.epsilon in Hx1, Hx2.
  destruct (binary64_error (1 + x)) as (y & -> & Hy1 & Hy2).
  { apply Qle_trans with 1%Q; [discriminate|lra]. }
  { apply Qle_trans with 4%Q; [lra|discriminate]. }
  unfold JS.epsilon in Hy1, Hy2.
  assert (Hy : (1 <= y)%Q) by lra.
  destruct (shortest_error y Hy) as [HF1 HF2].
  cbn [BigNumber.ofNumber]. exists (JS.shortest y).
  unfold JS.epsilon in HF1, HF2.
  remember (JS.shortest y) as F eqn:EF. clear EF.
  split; [reflexivity|]. split; [lra|].
  apply Qabs_Qle_condition. split; lra.
Qed.

(** ** Rounding to 20 decimal places *)

Lemma inject_Z_pow10_pos (k : nat) : (0 < inject_Z (10 ^ Z.of_nat k))%Q.
Proof. apply inject_Z_pos, pow10_pos. Qed.

Lemma positive_sign (q : Q) :
  (0 < q)%Q -> BigNumber.isZero q = false /\ BigNumber.isNeg q = false.
Proof.
  intros Hq. split.
  - unfold BigNumber.isZero. destruct (Qeq_bool q 0) eqn:E; [|reflexivity].
    apply Qeq_bool_eq in E. rewrite E in Hq. discriminate.
  - destruct (BigNumber.isNeg q) eqn:E; [|reflexivity].
    apply isNeg_iff in E. exfalso. apply (Qlt_irrefl 0).
    apply Qlt_trans with q; assumption.
Qed.

Lemma isNeg_nonneg (q : Q) : (0 <= q)%Q -> BigNumber.isNeg q = false.
Proof.
  intros Hq. destruct (BigNumber.isNeg q) eqn:E; [|reflexivity].
  apply isNeg_iff in E. exfalso. apply (Qlt_irrefl q).
  apply Qlt_le_trans with 0%Q; assumption.
Qed.

Lemma isZero_false (q : Q) : ~ (q == 0)%Q -> BigNumber.isZero q = false.
Proof.
  intros H. destruct (BigNumber.isZero q) eqn:E; [|reflexivity].
  apply isZero_iff in E. contradiction.
Qed.

(** The integer nearest to a whole number and a half, from below. *)
Lemma Qfloor_half (z : Z) : Qfloor (inject_Z z + (1 # 2)) = z.
Proof.
  pose proof (Qfloor_le (inject_Z z + (1 # 2))) as H1.
  pose proof (Qlt_floor (inject_Z z + (1 # 2))) as H2.
  set (f := Qfloor (inject_Z z + (1 # 2))) in *.
  destruct (Z_lt_le_dec z f) as [Hlt|Hle].
  - exfalso. assert (H : z + 1 <= f) by lia.
    rewrite Zle_Qle, inject_Z_plus in H. change (inject_Z 1) with 1%Q in H.
    remember (inject_Z z) as a. remember (inject_Z f) as b. lra.
  - destruct (Z_lt_le_dec f z) as [Hlt|Hge]; [|lia].
    exfalso. assert (H : f + 1 <= z) by lia.
    rewrite Zle_Qle in H.
    remember (inject_Z z) as a. remember (inject_Z (f + 1)) as b. lra.
Qed.

(** Rounding moves a value by at most half a unit of the twentieth decimal
    place, onto a multiple of that unit, and leaves such a multiple where it
    is. *)
Lemma round_rounds (x : Q) : BigNumber.rounds x (BigNumber.round x).
Proof.
  unfold BigNumber.rounds, BigNumber.round.
  change (inject_Z (10 ^ Z.of_nat BigNumber.DECIMAL_PLACES))
    with (100000000000000000000 # 1)%Q.
  change (inject_Z (10 ^ 20)) with (100000000000000000000 # 1)%Q.
  set (m := Qfloor (Qabs x * (100000000000000000000 # 1) + (1 # 2))).
  split; [|split].
  - eexists. rewrite Qred_correct. reflexivity.
  - rewrite Qred_correct.
    pose proof (Qfloor_le (Qabs x * (100000000000000000000 # 1) + (1 # 2))) as H1.
    pose proof (Qlt_floor (Qabs x * (100000000000000000000 # 1) + (1 # 2))) as H2.
    fold m in H1, H2.
    rewrite inject_Z_plus in H2. change (inject_Z 1) with 1%Q in H2.
    destruct (BigNumber.isNeg x) eqn:E.
    + apply isNeg_iff in E.
      rewrite (Qabs_neg x) in H1, H2 by (apply Qlt_le_weak; assumption).
      rewrite inject_Z_opp.
      remember (inject_Z m) as M eqn:EM. clear EM.
      setoid_replace (- M / (100000000000000000000 # 1))%Q
        with (- M * (1 # 100000000000000000000))%Q by reflexivity.
      apply Qabs_Qle_condition. split; lra.
    + assert (Hx : (0 <= x)%Q).
      { apply Qnot_lt_le. intros Hlt. apply isNeg_iff in Hlt. congruence. }
      rewrite (Qabs_pos x Hx) in H1, H2.
      remember (inject_Z m) as M eqn:EM. clear EM.
      setoid_replace (M / (100000000000000000000 # 1))%Q
        with (M * (1 # 100000000000000000000))%Q by reflexivity.
      apply Qabs_Qle_condition. split; lra.
  - intros [k Hk]. rewrite Qred_correct.
    assert (Hm : m = Z.abs k).
    { unfold m. rewrite <- (Qfloor_half (Z.abs k)). apply Qfloor_comp.
      apply Qplus_comp; [|reflexivity].
      rewrite Hk. unfold Qdiv. rewrite Qabs_Qmult.
      change (Qabs (inject_Z k)) with (inject_Z (Z.abs k)).
      change (Qabs (/ (100000000000000000000 # 1)))
        with (1 # 100000000000000000000)%Q.
      rewrite <- Qmult_assoc.
      change ((1 # 100000000000000000000) * (100000000000000000000 # 1))%Q
        with (100000000000000000000 # 100000000000000000000)%Q.
      setoid_replace (100000000000000000000 # 100000000000000000000)%Q with 1%Q
        by reflexivity.
      ring. }
    assert (Hsign : BigNumber.isNeg x = (k <? 0)%Z).
    { apply eq_true_iff_eq. rewrite isNeg_iff, Z.ltb_lt, Hk.
      setoid_replace (inject_Z k / (100000000000000000000 # 1))%Q
        with (inject_Z k * (1 # 100000000000000000000))%Q by reflexivity.
      split; intros H.
      - destruct (Z_lt_le_dec k 0) as [Hlt|Hge]; [assumption|exfalso].
        rewrite Zle_Qle in Hge. change (inject_Z 0) with 0%Q in Hge.
        remember (inject_Z k) as K. lra.
      - rewrite Zlt_Qlt in H. change (inject_Z 0) with 0%Q in H.
        remember (inject_Z k) as K. lra. }
    rewrite Hm, Hsign, Hk.
    destruct (Z.ltb_spec k 0) as [Hneg|Hpos].
    + rewrite Z.abs_neq, Z.opp_involutive by lia. reflexivity.
    + rewrite Z.abs_eq by lia. reflexivity.
Qed.

(** ** Price normalisation *)

(** The powers of ten up to 10^22 are doubles, and the library reads them as
    they are. *)
Lemma ofNumber_pow10 (k : nat) :
  (k <= 22)%nat -> BigNumber.ofNumber (pow10 k) = BigNumber.of_Z (10 ^ Z.of_nat k).
Proof.
  intros Hk.
  do 23 (destruct k as [|k]; [vm_compute; reflexivity|]). lia.
Qed.

(** The price of an order whose decimals differ by at most 22. *)
Lemma price_exact (order : Order) :
  let n := priceNumerator order in
  let d := priceDenominator order in
  let b := decimals (buyToken order) in
  let s := decimals (sellToken order) in
  ((s <= b)%nat -> (b <= s + 22)%nat ->
   price order = BigNumber.dividedBy n
                   (BigNumber.multipliedBy d (BigNumber.of_Z (10 ^ Z.of_nat (b - s))))) /\
  ((b < s)%nat -> (s <= b + 22)%nat ->
   price order = BigNumber.dividedBy
                   (BigNumber.multipliedBy n (BigNumber.of_Z (10 ^ Z.of_nat (s - b)))) d).
Proof.
  intros n d b s. unfold price. fold n d b s. split.
  - intros H Hgap. apply Nat.leb_le in H. rewrite H, ofNumber_pow10 by lia. reflexivity.
  - intros H Hgap. apply Nat.leb_gt in H. rewrite H, ofNumber_pow10 by lia. reflexivity.
Qed.

(** Scaling the divisor by one changes nothing. *)
Lemma dividedBy_times_one (x y : BigNumber.t) :
  BigNumber.dividedBy x (BigNumber.multipliedBy y (BigNumber.of_Z 1)) = BigNumber.dividedBy x y.
Proof.
  destruct y as [q|b|]; cbn [BigNumber.multipliedBy BigNumber.of_Z].
  - apply dividedBy_Qeq_r. rewrite Qred_correct. ring.
  - change (BigNumber.isZero (inject_Z 1)) with false.
    change (BigNumber.isNeg (inject_Z 1)) with false.
    cbv iota. rewrite xorb_false_r. reflexivity.
  - reflexivity.
Qed.

(** The price of an order with a finite numerator and a finite denominator
    that is not zero. *)
Lemma price_of_values (order : Order) (p q : Q) :
  let b := decimals (buyToken order) in
  let s := decimals (sellToken order) in
  priceNumerator order = BigNumber.Fin p ->
  priceDenominator order = BigNumber.Fin q ->
  ~ (q == 0)%Q ->
  ((s <= b)%nat -> (b <= s + 22)%nat ->
   price order
   = BigNumber.Fin (BigNumber.round (p / (q * inject_Z (10 ^ Z.of_nat (b - s)))))) /\
  ((b < s)%nat -> (s <= b + 22)%nat ->
   price order
   = BigNumber.Fin (BigNumber.round (p * inject_Z (10 ^ Z.of_nat (s - b)) / q))).
Proof.
  intros b s Hn Hd Hq.
  destruct (price_exact order) as [H1 H2]. fold b s in H1, H2. rewrite Hn, Hd in H1, H2.
  split; intros Hle Hgap.
  - rewrite (H1 Hle Hgap). cbn [BigNumber.multipliedBy BigNumber.of_Z BigNumber.dividedBy].
    pose proof (inject_Z_pow10_pos (b - s)) as Hk.
    rewrite isZero_false.
    + f_equal. apply round_Qeq. rewrite Qred_correct. reflexivity.
    + rewrite Qred_correct. intros E. apply Qmult_integral in E as [E|E];
        [contradiction|rewrite E in Hk; discriminate].
  - rewrite (H2 Hle Hgap). cbn [BigNumber.multipliedBy BigNumber.of_Z BigNumber.dividedBy].
    rewrite (isZero_false q Hq).
    f_equal. apply round_Qeq. rewrite Qred_correct. reflexivity.
Qed.

(** C3, amended. For an order whose decimals differ by at most 22, with [b]
    and [s] the decimals of the buy and the sell token: the price is
    numerator / (denominator * 10^(b - s)) when b >= s and
    (numerator * 10^(s - b)) / denominator otherwise, the product and the
    quotient being those of the library; for a finite numerator and a
    finite denominator other than zero it is that quotient written with 20
    decimal places, the quotient itself when it has no more than 20
    decimals; for equal decimals it is numerator / denominator, and for
    b = 18, s = 6 it is numerator / (denominator * 10^12). *)
Theorem price_normalization (order : Order) :
  let n := priceNumerator order in
  let d := priceDenominator order in
  let b := decimals (buyToken order) in
  let s := decimals (sellToken order) in
  (b <= s + 22)%nat -> (s <= b + 22)%nat ->
  ((s <= b)%nat ->
   price order = BigNumber.dividedBy n
                   (BigNumber.multipliedBy d (BigNumber.of_Z (10 ^ Z.of_nat (b - s))))) /\
  ((b < s)%nat ->
   price order = BigNumber.dividedBy
                   (BigNumber.multipliedBy n (BigNumber.of_Z (10 ^ Z.of_nat (s - b)))) d) /\
  (b = s -> price order = BigNumber.dividedBy n d) /\
  (forall p q : Q,
     n = BigNumber.Fin p -> d = BigNumber.Fin q -> ~ (q == 0)%Q ->
     exists v,
       price order = BigNumber.Fin v /\
       ((s <= b)%nat ->
        BigNumber.rounds (p / (q * inject_Z (10 ^ Z.of_nat (b - s)))) v) /\
       ((b < s)%nat ->
        BigNumber.rounds (p * inject_Z (10 ^ Z.of_nat (s - b)) / q) v) /\
       (b = s -> BigNumber.rounds (p / q) v) /\
       (b = 18%nat -> s = 6%nat -> BigNumber.rounds (p / (q * inject_Z (10 ^ 12))) v)).
Proof.
  intros n d b s Hgap1 Hgap2.
  destruct (price_exact order) as [H1 H2]. fold n d b s in H1, H2.
  split; [|split; [|split]].
  - intros H. apply H1; assumption.
  - intros H. apply H2; assumption.
  - intros H. rewrite H1 by lia. rewrite H, Nat.sub_diag. apply dividedBy_times_one.
  - intros p q Hn Hd Hq.
    destruct (price_of_values order p q Hn Hd Hq) as [V1 V2]. fold b s in V1, V2.
    destruct (Nat.leb_spec s b) as [Hle|Hlt].
    + exists (BigNumber.round (p / (q * inject_Z (10 ^ Z.of_nat (b - s))))).
      split; [apply V1; assumption|]. split; [|split; [|split]].
      * intros _. apply round_rounds.
      * intros H. lia.
      * intros H. rewrite H, Nat.sub_diag.
        rewrite (round_Qeq _ (p / q)); [apply round_rounds|].
        simpl (10 ^ Z.of_nat 0). change (inject_Z 1) with 1%Q. rewrite Qmult_1_r.
        reflexivity.
      * intros Hb Hs. rewrite Hb, Hs. apply round_rounds.
    + exists (BigNumber.round (p * inject_Z (10 ^ Z.of_nat (s - b)) / q)).
      split; [apply V2; [assumption|lia]|]. split; [|split; [|split]].
      * intros H. lia.
      * intros _. apply round_rounds.
      * intros H. lia.
      * intros Hb Hs. lia.
Qed.

(** ** The amount of the fill link *)

(** C4, amended. With a [FEE_DENOMINATOR] from 1 to 2^50, the amount of the
    fill link of an order whose numerator is positive is the numerator times
    the decimal that the library reads in the double
    1 + 2 / FEE_DENOMINATOR; that factor is within 10^-15 of the exact
    1 + 2/FEE_DENOMINATOR, and the amount is strictly greater than the
    numerator. *)
Theorem fillAmount_margin (order : Order) (q : Q) :
  1 <= FEE_DENOMINATOR <= 2 ^ 50 ->
  priceNumerator order = BigNumber.Fin q ->
  (0 < q)%Q ->
  exists f F,
    BigNumber.ofNumber FACTOR_TO_FILL_ORDER = BigNumber.Fin F /\
    fillAmount order = BigNumber.Fin f /\
    (f / q == F)%Q /\
    (Qabs (f / q - (1 + inject_Z 2 / inject_Z FEE_DENOMINATOR))
     <= 1 # 1000000000000000)%Q /\
    (q < f)%Q /\
    BigNumber.isGreaterThan (fillAmount order) (priceNumerator order) = true.
Proof.
  intros Hfee Hn Hq.
  destruct (FACTOR_TO_FILL_ORDER_value Hfee) as (F & HF & HF1 & Herr).
  unfold fillAmount. rewrite Hn, HF.
  cbn [BigNumber.multipliedBy BigNumber.isGreaterThan].
  exists (Qred (q * F)), F.
  assert (Hratio : (Qred (q * F) / q == F)%Q).
  { rewrite Qred_correct. field. intros E. rewrite E in Hq. discriminate. }
  assert (Hlt : (q < Qred (q * F))%Q).
  { rewrite Qred_correct.
    setoid_replace q with (q * 1)%Q at 1 by ring.
    apply Qmult_lt_l; assumption. }
  split; [reflexivity|]. split; [reflexivity|]. split; [assumption|].
  split; [|split].
  - rewrite Hratio. assumption.
  - assumption.
  - apply negb_true_iff. apply not_true_is_false. intros Hle.
    apply Qle_bool_iff in Hle. apply Qle_not_lt in Hle. contradiction.
Qed.

(** ** Malformed amounts *)

Lemma formatAmount_negative (p : nat) (z : Z) (d : nat) :
  z < 0 -> formatAmount p z d = Err InvalidOrderData.
Proof. intros Hz. unfold formatAmount. apply Z.ltb_lt in Hz. rewrite Hz. reflexivity. Qed.

Lemma formatAmountFull_negative (z : Z) (d : nat) :
  z < 0 -> formatAmountFull z d = Err InvalidOrderData.
Proof. intros Hz. unfold formatAmountFull. apply Z.ltb_lt in Hz. rewrite Hz. reflexivity. Qed.

(** A malformed amount either is no raw integer or is a negative one. *)
Lemma BN_malformed (x : BigNumber.t) :
  BigNumber.isNegative x \/ ~ BigNumber.isInteger x ->
  BN x = Err InvalidOrderData \/ exists z, BN x = Ok z /\ z < 0.
Proof.
  intros H.
  destruct (BN x) as [z|[]] eqn:E; [|left; reflexivity].
  right. exists z. split; [reflexivity|].
  destruct (BN_some _ _ E) as (q & -> & Hq).
  destruct H as [Hneg|Hint].
  - cbn [BigNumber.isNegative] in Hneg. rewrite Hq in Hneg.
    change 0%Q with (inject_Z 0) in Hneg. rewrite <- Zlt_Qlt in Hneg. assumption.
  - exfalso. apply Hint. exists z. assumption.
Qed.

(** C7. A raw amount that is negative or not an integer is rejected with
    [InvalidOrderData] by the display format and by the full format, and an
    order with such a numerator, denominator or fill amount is not
    announced: its handler fails with [InvalidOrderData]. *)
Theorem malformed_amount_rejected (x : BigNumber.t) (fractionDigits : nat) :
  BigNumber.isNegative x \/ ~ BigNumber.isInteger x ->
  (let* amount := BN x in formatAmount precision amount fractionDigits)
  = Err InvalidOrderData /\
  (let* amount := BN x in formatAmountFull amount fractionDigits)
  = Err InvalidOrderData /\
  (forall now order,
     priceDenominator order = x \/ priceNumerator order = x \/ fillAmount order = x ->
     onNewOrder now order = Err InvalidOrderData).
Proof.
  intros H. pose proof (BN_malformed x H) as Hx.
  split; [|split].
  - destruct Hx as [->|(z & -> & Hz)]; [reflexivity|].
    cbn [bind]. apply formatAmount_negative, Hz.
  - destruct Hx as [->|(z & -> & Hz)]; [reflexivity|].
    cbn [bind]. apply formatAmountFull_negative, Hz.
  - intros now order Hwhich. unfold onNewOrder.
    destruct Hwhich as [Hd|Hrest].
    { rewrite Hd. destruct Hx as [->|(z & -> & Hz)]; [reflexivity|].
      cbn [bind]. rewrite (formatAmount_negative _ _ _ Hz). reflexivity. }
    destruct (BN (priceDenominator order)) as [a|[]]; [|reflexivity]. cbn [bind].
    destruct (formatAmount precision a _) as [sa|[]]; [|reflexivity]. cbn [bind].
    destruct Hrest as [Hn|Hfill].
    { rewrite Hn. destruct Hx as [->|(z & -> & Hz)]; [reflexivity|].
      cbn [bind]. rewrite (formatAmount_negative _ _ _ Hz). reflexivity. }
    destruct (BN (priceNumerator order)) as [b|[]]; [|reflexivity]. cbn [bind].
    destruct (formatAmount precision b _) as [sb|[]]; [|reflexivity]. cbn [bind].
    rewrite Hfill. destruct Hx as [->|(z & -> & Hz)]; [reflexivity|].
    cbn [bind]. rewrite (formatAmountFull_negative _ _ Hz). reflexivity.
Qed.

(** ** Texts and their lines *)

Lemma append_assoc (a b c : string) : (a ++ b) ++ c = a ++ (b ++ c).
Proof. induction a as [|x a IH]; cbn [append]; [reflexivity|]. rewrite IH. reflexivity. Qed.

Lemma no_newline_app (a b : string) :
  no_newline (a ++ b) = no_newline a && no_newline b.
Proof.
  induction a as [|x a IH]; cbn [append no_newline]; [reflexivity|].
  rewrite IH. apply andb_assoc.
Qed.

Lemma lines_nonempty (a : string) : lines a <> [].
Proof.
  destruct a as [|x a]; cbn [lines]; [discriminate|].
  destruct (Ascii.eqb x newline); [discriminate|].
  destruct (lines a); discriminate.
Qed.

(** A line feed separates the lines before it from the lines after it. *)
Lemma lines_app_newline (a b : string) :
  lines (a ++ String newline b) = (lines a ++ lines b)%list.
Proof.
  induction a as [|x a IH]; cbn [append lines].
  - rewrite Ascii.eqb_refl. reflexivity.
  - destruct (Ascii.eqb x newline).
    + rewrite IH. reflexivity.
    + rewrite IH. pose proof (lines_nonempty a) as Hne.
      destruct (lines a) as [|l ls]; [contradiction|reflexivity].
Qed.

Lemma lines_no_newline (a : string) : no_newline a = true -> lines a = [a].
Proof.
  induction a as [|x a IH]; cbn [no_newline lines]; [reflexivity|].
  intros H. apply andb_true_iff in H as [Hx Ha].
  apply negb_true_iff in Hx. rewrite Hx, (IH Ha). reflexivity.
Qed.

Lemma prefix_app (p a b : string) : prefix p a = true -> prefix p (a ++ b) = true.
Proof.
  revert a. induction p as [|x p IH]; intros a H.
  - destruct (a ++ b); reflexivity.
  - destruct a as [|y a]; cbn [prefix append] in *; [discriminate|].
    destruct (ascii_dec x y); [apply IH; assumption|discriminate].
Qed.

Lemma contains_prefix (p s : string) : prefix p s = true -> contains p s = true.
Proof. intros H. destruct s; cbn [contains]; rewrite H; reflexivity. Qed.

Lemma contains_app_l (p a b : string) :
  contains p a = true -> contains p (a ++ b) = true.
Proof.
  induction a as [|x a IH]; intros H.
  - cbn [contains] in H. rewrite orb_false_r in H.
    apply contains_prefix. apply (prefix_app p "" b H).
  - cbn [contains] in H. apply orb_true_iff in H as [H|H].
    + apply contains_prefix. apply prefix_app. assumption.
    + cbn [append contains]. rewrite (IH H). apply orb_true_r.
Qed.

Lemma contains_app_r (p a b : string) :
  contains p b = true -> contains p (a ++ b) = true.
Proof.
  intros H. induction a as [|x a IH]; cbn [append]; [assumption|].
  cbn [contains]. rewrite IH. apply orb_true_r.
Qed.

(** ** The trade window *)

Section Renderings.

Hypothesis calendar_one_line : forall now date, no_newline (calendar now date) = true.
Hypothesis fromNow_one_line : forall now date, no_newline (fromNow now date) = true.

Lemma tradableLine_one_line (now date : Z) : no_newline (tradableLine now date) = true.
Proof.
  unfold tradableLine. rewrite !no_newline_app.
  rewrite calendar_one_line, fromNow_one_line. reflexivity.
Qed.

Lemma expiresLine_one_line (now date : Z) : no_newline (expiresLine now date) = true.
Proof.
  unfold expiresLine. rewrite !no_newline_app.
  rewrite calendar_one_line, fromNow_one_line. reflexivity.
Qed.

(** The lines of the description of a trade window. *)
Lemma datesDescription_lines (now : Z) (order : Order) :
  lines (datesDescription now order)
  = if (now <? validFrom order)%Z
    then [tradableLine now (validFrom order); expiresLine now (validUntil order)]
    else [expiresLine now (validUntil order)].
Proof.
  unfold datesDescription. destruct (now <? validFrom order)%Z.
  - rewrite append_assoc. change (nl ++ ?x) with (String newline x).
    rewrite lines_app_newline.
    rewrite !lines_no_newline by (apply tradableLine_one_line || apply expiresLine_one_line).
    reflexivity.
  - cbn [append]. apply lines_no_newline, expiresLine_one_line.
Qed.

(** C5. When the renderings of moment stay on one line, the description of
    the trade window has a Tradable line exactly when validFrom is after the
    time of processing, has none when validFrom is at or before it, and has
    exactly one Expires line in both cases. *)
Theorem tradable_line_iff_not_started (now : Z) (order : Order) :
  let description := datesDescription now order in
  (count_lines "  - *Tradable*" description = 1%nat <-> now < validFrom order) /\
  (validFrom order <= now -> count_lines "  - *Tradable*" description = 0%nat) /\
  count_lines "  - *Expires*" description = 1%nat.
Proof.
  intros description. unfold description, count_lines.
  rewrite datesDescription_lines.
  destruct (Z.ltb_spec now (validFrom order)) as [Hlt|Hge].
  - repeat split; try reflexivity; intros; try assumption; lia.
  - repeat split; try reflexivity; intros H; try lia.
    cbn in H. discriminate.
Qed.

End Renderings.


(** ** The announcement *)

(** What a successful run of the handler went through. *)
Lemma onNewOrder_ok (now : Z) (order : Order) (call : SinkCall) :
  onNewOrder now order = Ok call ->
  exists sellAmount buyAmount fillSellAmount
         sellAmountFmt buyAmountFmt fillSellAmountFmt buyAmountFullFmt,
    BN (priceDenominator order) = Ok sellAmount /\
    BN (priceNumerator order) = Ok buyAmount /\
    BN (fillAmount order) = Ok fillSellAmount /\
    formatAmount precision sellAmount (decimals (sellToken order)) = Ok sellAmountFmt /\
    formatAmount precision buyAmount (decimals (buyToken order)) = Ok buyAmountFmt /\
    formatAmountFull fillSellAmount (decimals (buyToken order)) = Ok fillSellAmountFmt /\
    formatAmountFull sellAmount (decimals (sellToken order)) = Ok buyAmountFullFmt /\
    call = sendMessage channelId
             (message sellAmountFmt (tokenLabel (sellToken order))
                buyAmountFmt (tokenLabel (buyToken order))
                (BigNumber.toString (price order)) (datesDescription now order)
                fillSellAmountFmt buyAmountFullFmt)
             "Markdown".
Proof.
  unfold onNewOrder.
  destruct (BN (priceDenominator order)) as [a|e] eqn:Ha; [|discriminate]. cbn [bind].
  destruct (formatAmount precision a _) as [sa|e] eqn:Hsa; [|discriminate]. cbn [bind].
  destruct (BN (priceNumerator order)) as [b|e] eqn:Hb; [|discriminate]. cbn [bind].
  destruct (formatAmount precision b _) as [sb|e] eqn:Hsb; [|discriminate]. cbn [bind].
  destruct (BN (fillAmount order)) as [c|e] eqn:Hc; [|discriminate]. cbn [bind].
  destruct (formatAmountFull c _) as [sc|e] eqn:Hsc; [|discriminate]. cbn [bind].
  destruct (formatAmountFull a _) as [sd|e] eqn:Hsd; [|discriminate]. cbn [bind].
  intros [= <-]. exists a, b, c, sa, sb, sc, sd. repeat split; assumption.
Qed.

(** The handler succeeds on whole, non-negative amounts below 10^21 whose
    inflated numerator is whole and below 10^21 as well. *)
Lemma onNewOrder_integers (now : Z) (order : Order) (n d f : Z) :
  0 <= n < 10 ^ 21 -> 0 <= d < 10 ^ 21 -> 0 <= f < 10 ^ 21 ->
  priceNumerator order = BigNumber.of_Z n ->
  priceDenominator order = BigNumber.of_Z d ->
  fillAmount order = BigNumber.of_Z f ->
  onNewOrder now order
  = Ok (sendMessage channelId
          (message (displayFormat precision d (decimals (sellToken order)))
             (tokenLabel (sellToken order))
             (displayFormat precision n (decimals (buyToken order)))
             (tokenLabel (buyToken order))
             (BigNumber.toString (price order)) (datesDescription now order)
             (fullFormat f (decimals (buyToken order)))
             (fullFormat d (decimals (sellToken order))))
          "Markdown").
Proof.
  intros Hn0 Hd0 Hf0 Hn Hd Hf. unfold onNewOrder.
  rewrite Hf, Hn, Hd, !BN_of_Z by assumption.
  cbn [bind]. unfold formatAmount, formatAmountFull.
  destruct Hn0 as [Hn0 _]. destruct Hd0 as [Hd0 _]. destruct Hf0 as [Hf0 _].
  apply Z.ltb_ge in Hn0, Hd0, Hf0. rewrite Hn0, Hd0, Hf0. reflexivity.
Qed.

(** C6. Every announcement the handler sends follows one template: the
    headline Sell *X* `SELL` for *Y* `BUY` with the display amounts, a blank
    line, the price line with 1 `SELL` = price `BUY`, the description of the
    trade window, a blank line, and the link
    WEB_BASE_URL/trade/BUY-SELL?sell=...&buy=... with the full-precision
    amounts; an order with whole, non-negative amounts below 10^21 and such
    an inflated numerator is announced; the label of a token is its symbol,
    else its name, else its address, the first of them that is not empty. *)
Theorem announcement_template (now : Z) (order : Order) :
  let SELL := tokenLabel (sellToken order) in
  let BUY := tokenLabel (buyToken order) in
  (forall call,
     onNewOrder now order = Ok call ->
     exists sellAmount buyAmount fillSellAmount X Y fillSellFull buyFull,
       BN (priceDenominator order) = Ok sellAmount /\
       BN (priceNumerator order) = Ok buyAmount /\
       BN (fillAmount order) = Ok fillSellAmount /\
       formatAmount precision sellAmount (decimals (sellToken order)) = Ok X /\
       formatAmount precision buyAmount (decimals (buyToken order)) = Ok Y /\
       formatAmountFull fillSellAmount (decimals (buyToken order)) = Ok fillSellFull /\
       formatAmountFull sellAmount (decimals (sellToken order)) = Ok buyFull /\
       chat call = channelId /\
       parse_mode call = "Markdown" /\
       text call =
         "Sell *" ++ X ++ "* `" ++ SELL ++ "` for *" ++ Y ++ "* `" ++ BUY ++ "`" ++ nl
         ++ nl
         ++ "  - *Price*:  1 `" ++ SELL ++ "` = " ++ BigNumber.toString (price order)
         ++ " `" ++ BUY ++ "`" ++ nl
         ++ datesDescription now order ++ nl
         ++ nl
         ++ "Fill the order here: " ++ WEB_BASE_URL ++ "/trade/" ++ BUY ++ "-" ++ SELL
         ++ "?sell=" ++ fillSellFull ++ "&buy=" ++ buyFull) /\
  (forall n d f,
     0 <= n < 10 ^ 21 -> 0 <= d < 10 ^ 21 -> 0 <= f < 10 ^ 21 ->
     priceNumerator order = BigNumber.of_Z n ->
     priceDenominator order = BigNumber.of_Z d ->
     fillAmount order = BigNumber.of_Z f ->
     exists call, onNewOrder now order = Ok call) /\
  (forall token : Token,
     (forall s, symbol token = Some s -> s <> "" -> tokenLabel token = s) /\
     (forall s, symbol token = None \/ symbol token = Some "" ->
                name token = Some s -> s <> "" -> tokenLabel token = s) /\
     (symbol token = None \/ symbol token = Some "" ->
      name token = None \/ name token = Some "" ->
      tokenLabel token = address token)).
Proof.
  intros SELL BUY. split; [|split].
  - intros call Hcall.
    destruct (onNewOrder_ok _ _ _ Hcall)
      as (a & b & c & sa & sb & sc & sd & Ha & Hb & Hc & Hsa & Hsb & Hsc & Hsd & ->).
    exists a, b, c, sa, sb, sc, sd.
    do 7 (split; [assumption|]). split; [reflexivity|]. split; [reflexivity|].
    cbn [text]. unfold message, headline, priceLine, fillLink. fold SELL BUY.
    rewrite !append_assoc. reflexivity.
  - intros n d f Hn0 Hd0 Hf0 Hn Hd Hf. eexists.
    apply (onNewOrder_integers now order n d f); assumption.
  - intros token. unfold tokenLabel. split; [|split].
    + intros s -> Hs. destruct s; [contradiction|reflexivity].
    + intros s Hsym -> Hs.
      destruct Hsym as [-> | ->]; destruct s; try contradiction; reflexivity.
    + intros [-> | ->] [-> | ->]; reflexivity.
Qed.

(** ** A zero denominator *)

(** A positive numerator over a zero denominator is [Infinity]. *)
Lemma price_zero_denominator (order : Order) (n : Z) :
  (decimals (buyToken order) <= decimals (sellToken order) + 22)%nat ->
  (decimals (sellToken order) <= decimals (buyToken order) + 22)%nat ->
  0 < n ->
  priceNumerator order = BigNumber.of_Z n ->
  priceDenominator order = BigNumber.of_Z 0 ->
  price order = BigNumber.Inf false.
Proof.
  intros Hgap1 Hgap2 Hpos Hn Hd.
  destruct (price_exact order) as [H1 H2]. rewrite Hn, Hd in H1, H2.
  destruct (Nat.leb_spec (decimals (sellToken order)) (decimals (buyToken order)))
    as [Hle|Hlt].
  - rewrite (H1 Hle Hgap1).
    cbn [BigNumber.multipliedBy BigNumber.of_Z].
    rewrite (dividedBy_Qeq_r _ _ 0) by (rewrite Qred_correct; ring).
    unfold BigNumber.of_Z. cbn [BigNumber.dividedBy].
    change (BigNumber.isZero 0) with true. cbv iota.
    destruct (positive_sign _ (inject_Z_pos n Hpos)) as [-> ->]. reflexivity.
  - rewrite (H2 Hlt Hgap2).
    cbn [BigNumber.multipliedBy BigNumber.of_Z BigNumber.dividedBy].
    change (BigNumber.isZero (inject_Z 0)) with true. cbv iota.
    match goal with |- context [Qred ?x] =>
      assert (Hx : (0 < Qred x)%Q)
    end.
    { rewrite Qred_correct. apply Qmult_lt_0_compat; apply inject_Z_pos;
        [assumption|apply Z.pow_pos_nonneg; lia]. }
    destruct (positive_sign _ Hx) as [-> ->]. reflexivity.
Qed.

Lemma contains_cons (p : string) (c : ascii) (s : string) :
  contains p s = true -> contains p (String c s) = true.
Proof. intros H. cbn [contains]. rewrite H. apply orb_true_r. Qed.

Lemma nl_app (s : string) : nl ++ s = String newline s.
Proof. reflexivity. Qed.

(** The price line is part of the announcement. *)
Lemma message_contains_price (p X S Y B P D F G : string) :
  contains p (priceLine S P B) = true ->
  contains p (message X S Y B P D F G) = true.
Proof.
  intros H. unfold message. rewrite !nl_app.
  apply contains_app_r, contains_cons, contains_cons, contains_app_l.
  assumption.
Qed.

(** C1, amended. An order whose denominator is 0 is not rejected: when its
    decimals differ by at most 22, its numerator is a positive integer
    below 10^21 and its inflated numerator is a whole number below 10^21,
    its price is Infinity, the handler sends one announcement whose price
    line shows Infinity, and the run goes on with the following events. *)
Theorem zero_denominator_announced (now : Z) (order : Order) (n f : Z) :
  (decimals (buyToken order) <= decimals (sellToken order) + 22)%nat ->
  (decimals (sellToken order) <= decimals (buyToken order) + 22)%nat ->
  0 < n < 10 ^ 21 -> 0 <= f < 10 ^ 21 ->
  priceNumerator order = BigNumber.of_Z n ->
  priceDenominator order = BigNumber.of_Z 0 ->
  fillAmount order = BigNumber.of_Z f ->
  price order = BigNumber.Inf false /\
  exists call,
    onNewOrder now order = Ok call /\
    chat call = channelId /\
    text call
    = message (displayFormat precision 0 (decimals (sellToken order)))
        (tokenLabel (sellToken order))
        (displayFormat precision n (decimals (buyToken order)))
        (tokenLabel (buyToken order))
        "Infinity" (datesDescription now order)
        (fullFormat f (decimals (buyToken order)))
        (fullFormat 0 (decimals (sellToken order))) /\
    contains "= Infinity" (text call) = true /\
    forall events, pipeline ((now, order) :: events) = call :: pipeline events.
Proof.
  intros Hgap1 Hgap2 Hpos Hf0 Hn Hd Hf.
  pose proof (price_zero_denominator order n Hgap1 Hgap2 ltac:(lia) Hn Hd) as Hprice.
  split; [assumption|].
  pose proof (onNewOrder_integers now order n 0 f ltac:(lia) ltac:(lia) Hf0 Hn Hd Hf)
    as Hrun.
  rewrite Hprice in Hrun. change (BigNumber.toString (BigNumber.Inf false)) with "Infinity" in Hrun.
  eexists. split; [exact Hrun|]. cbn [chat text].
  split; [reflexivity|]. split; [reflexivity|]. split.
  - apply message_contains_price. unfold priceLine.
    apply contains_app_r, contains_app_r. reflexivity.
  - intros events. cbn [pipeline]. rewrite Hrun. reflexivity.
Qed.

(** ** The WETH/USDC example *)

(** A number is a multiple of 2, or has no factor in common with it; the
    same for 5. *)
Lemma divides_or_coprime (p f : Z) :
  p = 2 \/ p = 5 -> 0 < f -> (p | f) \/ Z.gcd f p = 1.
Proof.
  intros Hp Hf.
  pose proof (Z.gcd_nonneg f p) as Hg0.
  pose proof (Z.gcd_divide_r f p) as Hgp.
  pose proof (Z.gcd_divide_l f p) as Hgf.
  assert (Hle : Z.gcd f p <= p) by (apply Z.divide_pos_le; [lia|assumption]).
  destruct Hgp as [k Hk].
  remember (Z.gcd f p) as g eqn:Eg.
  assert (Hcases : g = 1 \/ g = p).
  { assert (Hg : g = 0 \/ g = 1 \/ g = 2 \/ g = 3 \/ g = 4 \/ g = 5)
      by (destruct Hp; subst p; lia).
    destruct Hp; subst p;
      destruct Hg as [E|[E|[E|[E|[E|E]]]]]; rewrite E in Hk; lia. }
  destruct Hcases as [E|E]; [right; assumption|left; rewrite <- E; assumption].
Qed.

(** The divisors of p^a * M are the products of a power of p up to p^a and
    a divisor of M. *)
Lemma divisor_of_power (p : Z) (a : nat) :
  p = 2 \/ p = 5 ->
  forall f M, 0 < f -> (f | p ^ Z.of_nat a * M) ->
  exists i f', (i <= a)%nat /\ f = p ^ Z.of_nat i * f' /\ 0 < f' /\ (f' | M).
Proof.
  intros Hp. induction a as [|a IH]; intros f M Hf Hdiv.
  - exists O, f. simpl (p ^ Z.of_nat 0) in *. rewrite Z.mul_1_l in *.
    repeat split; try assumption; lia.
  - rewrite Nat2Z.inj_succ, Z.pow_succ_r, <- Z.mul_assoc in Hdiv by lia.
    destruct (divides_or_coprime p f Hp Hf) as [[g Hg]|Hco].
    + assert (Hg0 : 0 < g) by (destruct Hp; subst p; lia).
      assert (Hdiv' : (g | p ^ Z.of_nat a * M)).
      { rewrite Hg, (Z.mul_comm g p) in Hdiv.
        apply Z.mul_divide_cancel_l in Hdiv; [assumption|destruct Hp; lia]. }
      destruct (IH g M Hg0 Hdiv') as (i & f' & Hi & Hgi & Hf' & Hd').
      exists (S i), f'. split; [lia|]. split; [|split; assumption].
      rewrite Nat2Z.inj_succ, Z.pow_succ_r by lia. rewrite Hg, Hgi. ring.
    + apply Z.gauss in Hdiv; [|assumption].
      destruct (IH f M Hf Hdiv) as (i & f' & Hi & Hgi & Hf' & Hd').
      exists i, f'. split; [lia|]. split; [|split]; assumption.
Qed.

(** The divisors of 4000000000 = 2^11 * 5^9. *)
Lemma divisors_of_4000000000 (f : Z) :
  0 < f -> (f | 4000000000) ->
  exists i j, (i < 12)%nat /\ (j < 10)%nat /\ f = 2 ^ Z.of_nat i * 5 ^ Z.of_nat j.
Proof.
  intros Hf Hdiv.
  change 4000000000 with (2 ^ Z.of_nat 11 * (5 ^ Z.of_nat 9 * 1)) in Hdiv.
  destruct (divisor_of_power 2 11 (or_introl eq_refl) f _ Hf Hdiv)
    as (i & f' & Hi & -> & Hf' & Hd').
  destruct (divisor_of_power 5 9 (or_intror eq_refl) f' _ Hf' Hd')
    as (j & f'' & Hj & -> & Hf'' & Hd'').
  assert (f'' = 1).
  { apply Z.divide_1_r_nonneg in Hd''; lia. }
  subst f''. exists i, j. split; [lia|]. split; [lia|]. ring.
Qed.

(** With a fee denominator that divides 4000000000, the double
    1 + 2 / FEE_DENOMINATOR is read as the exact 1 + 2/FEE_DENOMINATOR and
    the numerator 2000000000 is inflated to a whole number. *)
Lemma weth_usdc_fill (from until : Z) :
  0 < FEE_DENOMINATOR -> (FEE_DENOMINATOR | 4000000000) ->
  fillAmount (wethUsdcOrder from until)
  = BigNumber.of_Z (2000000000 + 4000000000 / FEE_DENOMINATOR).
Proof.
  intros Hfee Hdiv.
  destruct (divisors_of_4000000000 _ Hfee Hdiv) as (i & j & Hi & Hj & Hf).
  assert (Hall :
    forallb (fun i =>
      forallb (fun j =>
        let f := 2 ^ Z.of_nat i * 5 ^ Z.of_nat j in
        match BigNumber.multipliedBy (BigNumber.of_Z 2000000000)
                (BigNumber.ofNumber (JS.add (JS.ofZ 1) (JS.div (JS.ofZ 2) (JS.ofZ f)))) with
        | BigNumber.Fin q =>
            (Qnum q =? 2000000000 + 4000000000 / f)%Z && (Z.pos (Qden q) =? 1)%Z
        | _ => false
        end) (seq 0 10)) (seq 0 12) = true) by (vm_compute; reflexivity).
  rewrite forallb_forall in Hall.
  specialize (Hall i ltac:(apply in_seq; lia)).
  rewrite forallb_forall in Hall.
  specialize (Hall j ltac:(apply in_seq; lia)).
  cbv zeta in Hall. rewrite <- Hf in Hall.
  unfold fillAmount, FACTOR_TO_FILL_ORDER.
  change (priceNumerator (wethUsdcOrder from until)) with (BigNumber.of_Z 2000000000).
  destruct (BigNumber.multipliedBy _ _) as [[a d]| |]; try discriminate.
  cbn [Qnum Qden] in Hall. apply andb_true_iff in Hall as [Ha Hd].
  apply Z.eqb_eq in Ha, Hd. unfold BigNumber.of_Z, inject_Z. congruence.
Qed.

Lemma weth_usdc_price (from until : Z) :
  price (wethUsdcOrder from until) = BigNumber.of_Z 2000.
Proof. vm_compute. reflexivity. Qed.

Lemma fullFormat_one_line (amount : Z) (decimals : nat) :
  no_newline (fullFormat amount decimals) = true.
Proof. unfold fullFormat. rewrite no_newline_point_after. reflexivity. Qed.

Lemma displayFormat_one_line (amount : Z) (decimals : nat) :
  no_newline (displayFormat precision amount decimals) = true.
Proof. unfold displayFormat. apply fullFormat_one_line. Qed.

Lemma lines_newline (s : string) : lines (String newline s) = EmptyString :: lines s.
Proof. cbn [lines]. rewrite Ascii.eqb_refl. reflexivity. Qed.

Section OneLine.

Hypothesis calendar_one_line : forall now date, no_newline (calendar now date) = true.
Hypothesis fromNow_one_line : forall now date, no_newline (fromNow now date) = true.
Hypothesis url_one_line : no_newline WEB_BASE_URL = true.

(** The lines of an announcement whose parts stay on one line. *)
Lemma message_lines (X S Y B P D F G : string) :
  no_newline X = true -> no_newline S = true -> no_newline Y = true ->
  no_newline B = true -> no_newline P = true -> no_newline F = true ->
  no_newline G = true ->
  lines (message X S Y B P D F G)
  = headline X S Y B :: EmptyString :: priceLine S P B
    :: (lines D
        ++ [EmptyString; ("Fill the order here: " ++ fillLink B S F G)%string])%list.
Proof.
  intros HX HS HY HB HP HF HG. unfold message. rewrite !nl_app.
  rewrite lines_app_newline, lines_newline, lines_app_newline, lines_app_newline,
    lines_newline.
  rewrite (lines_no_newline (headline X S Y B)), (lines_no_newline (priceLine S P B)),
    (lines_no_newline ("Fill the order here: " ++ fillLink B S F G));
    [reflexivity| | |].
  - unfold fillLink. rewrite !no_newline_app, url_one_line, HB, HS, HF, HG. reflexivity.
  - unfold priceLine. rewrite !no_newline_app, HS, HP, HB. reflexivity.
  - unfold headline. rewrite !no_newline_app, HX, HS, HY, HB. reflexivity.
Qed.

(** C2, amended. For the order that sells WETH (18 decimals) for USDC
    (6 decimals) with numerator 2000000000 and denominator
    1000000000000000000, validFrom in the past and validUntil in the future:
    the price is (numerator * 10^12) / denominator = 2000 USDC per WETH, and
    the announcement contains Sell and the line with 1 `WETH` = 2000 `USDC`
    and has no Tradable line. *)
Theorem weth_usdc_announcement (now from until : Z) :
  0 < FEE_DENOMINATOR -> (FEE_DENOMINATOR | 4000000000) ->
  from < now -> now < until ->
  let order := wethUsdcOrder from until in
  price order
  = BigNumber.dividedBy
      (BigNumber.multipliedBy (priceNumerator order) (BigNumber.of_Z (10 ^ 12)))
      (priceDenominator order) /\
  price order = BigNumber.of_Z 2000 /\
  exists call,
    onNewOrder now order = Ok call /\
    contains "Sell" (text call) = true /\
    contains "1 `WETH` = 2000 `USDC`" (text call) = true /\
    has_line "  - *Price*:  1 `WETH` = 2000 `USDC`" (text call) = true /\
    count_lines "  - *Tradable*" (text call) = 0%nat.
Proof.
  intros Hfee Hdiv Hpast Hfuture order.
  split; [vm_compute; reflexivity|]. split; [apply weth_usdc_price|].
  assert (Hfill : 0 <= 2000000000 + 4000000000 / FEE_DENOMINATOR < 10 ^ 21).
  { pose proof (Z.div_pos 4000000000 FEE_DENOMINATOR ltac:(lia) Hfee).
    pose proof (Z.div_le_upper_bound 4000000000 FEE_DENOMINATOR 4000000000 Hfee ltac:(nia)).
    lia. }
  pose proof (onNewOrder_integers now order 2000000000 1000000000000000000 _
                ltac:(lia) ltac:(lia) Hfill eq_refl eq_refl
                (weth_usdc_fill from until Hfee Hdiv)) as Hrun.
  unfold order in Hrun at 6. rewrite weth_usdc_price in Hrun.
  change (BigNumber.toString (BigNumber.of_Z 2000)) with "2000" in Hrun.
  eexists. split; [exact Hrun|]. cbn [text].
  change (tokenLabel (sellToken order)) with "WETH".
  change (tokenLabel (buyToken order)) with "USDC".
  split; [|split; [|split]].
  - reflexivity.
  - apply message_contains_price. reflexivity.
  - unfold has_line.
    rewrite message_lines by
      (reflexivity || apply displayFormat_one_line || apply fullFormat_one_line).
    reflexivity.
  - unfold count_lines.
    rewrite message_lines by
      (reflexivity || apply displayFormat_one_line || apply fullFormat_one_line).
    rewrite (datesDescription_lines calendar_one_line fromNow_one_line).
    replace (now <? validFrom order)%Z with false
      by (symmetry; apply Z.ltb_ge; cbn; lia).
    reflexivity.
Qed.

End OneLine.


(** * Further properties *)

(** ** Labels *)

(** X1. A token whose address is not empty has a label that is not empty,
    whatever its symbol and its name are. *)
Theorem tokenLabel_not_empty (token : Token) :
  address token <> "" -> tokenLabel token <> "".
Proof.
  intros Ha. unfold tokenLabel, or_else.
  destruct (symbol token) as [[|c s]|]; try discriminate;
    destruct (name token) as [[|c' s']|]; try discriminate; assumption.
Qed.

(** ** The value of the price *)

Lemma pow10_split (a b : nat) :
  (a <= b)%nat -> 10 ^ Z.of_nat b = 10 ^ Z.of_nat (b - a) * 10 ^ Z.of_nat a.
Proof.
  intros H. rewrite <- Z.pow_add_r by lia. f_equal. lia.
Qed.

(** The quotient of the amounts of an order in whole tokens. *)
Lemma price_finite (order : Order) (n d : Z) :
  (decimals (buyToken order) <= decimals (sellToken order) + 22)%nat ->
  (decimals (sellToken order) <= decimals (buyToken order) + 22)%nat ->
  0 < d ->
  priceNumerator order = BigNumber.of_Z n ->
  priceDenominator order = BigNumber.of_Z d ->
  price order
  = BigNumber.Fin
      (BigNumber.round
         (inject_Z (n * 10 ^ Z.of_nat (decimals (sellToken order)))
          / inject_Z (d * 10 ^ Z.of_nat (decimals (buyToken order))))).
Proof.
  intros Hgap1 Hgap2 Hd Hn Hden.
  set (s := decimals (sellToken order)) in *. set (b := decimals (buyToken order)) in *.
  pose proof (inject_Z_pos d Hd) as Hdq.
  pose proof (inject_Z_pow10_pos s) as Hs.
  pose proof (inject_Z_pow10_pos b) as Hb.
  assert (Hdnz : ~ (inject_Z d == 0)%Q) by (apply inject_Z_nonzero; lia).
  destruct (price_of_values order (inject_Z n) (inject_Z d) Hn Hden Hdnz) as [V1 V2].
  fold s b in V1, V2.
  destruct (Nat.leb_spec s b) as [Hle|Hlt].
  - pose proof (inject_Z_pow10_pos (b - s)) as Hk.
    rewrite (V1 Hle Hgap1). f_equal. apply round_Qeq.
    rewrite (pow10_split s b Hle), !inject_Z_mult.
    field. repeat split; intros E; rewrite E in *; discriminate.
  - pose proof (inject_Z_pow10_pos (s - b)) as Hk.
    rewrite (V2 Hlt Hgap2). f_equal. apply round_Qeq.
    rewrite (pow10_split b s) by lia. rewrite !inject_Z_mult.
    field. repeat split; intros E; rewrite E in *; discriminate.
Qed.

(** Nothing over nothing is not a number. *)
Lemma price_zero_zero (order : Order) :
  (decimals (buyToken order) <= decimals (sellToken order) + 22)%nat ->
  (decimals (sellToken order) <= decimals (buyToken order) + 22)%nat ->
  priceNumerator order = BigNumber.of_Z 0 ->
  priceDenominator order = BigNumber.of_Z 0 ->
  price order = BigNumber.NaN.
Proof.
  intros Hgap1 Hgap2 Hn Hd.
  destruct (price_exact order) as [H1 H2]. rewrite Hn, Hd in H1, H2.
  destruct (Nat.leb_spec (decimals (sellToken order)) (decimals (buyToken order)))
    as [Hle|Hlt].
  - rewrite (H1 Hle Hgap1). cbn [BigNumber.multipliedBy BigNumber.of_Z].
    rewrite (dividedBy_Qeq_r _ _ 0) by (rewrite Qred_correct; ring). reflexivity.
  - rewrite (H2 Hlt Hgap2). cbn [BigNumber.multipliedBy BigNumber.of_Z].
    cbn [BigNumber.dividedBy]. change (BigNumber.isZero (inject_Z 0)) with true. cbv iota.
    assert (Hz : BigNumber.isZero (Qred (inject_Z 0 * inject_Z
                   (10 ^ Z.of_nat (decimals (sellToken order) - decimals (buyToken order)))))
                 = true).
    { apply isZero_iff. rewrite Qred_correct. ring. }
    rewrite Hz. reflexivity.
Qed.

(** X2. For whole, non-negative amounts of tokens whose decimals differ by
    at most 22, the price is not a number exactly when numerator and
    denominator are both 0, it is Infinity exactly when only the denominator
    is 0, and it is a finite number exactly when the denominator is
    positive. *)
Theorem price_special_values (order : Order) (n d : Z) :
  (decimals (buyToken order) <= decimals (sellToken order) + 22)%nat ->
  (decimals (sellToken order) <= decimals (buyToken order) + 22)%nat ->
  0 <= n -> 0 <= d ->
  priceNumerator order = BigNumber.of_Z n ->
  priceDenominator order = BigNumber.of_Z d ->
  (price order = BigNumber.NaN <-> n = 0 /\ d = 0) /\
  (price order = BigNumber.Inf false <-> 0 < n /\ d = 0) /\
  ((exists p, price order = BigNumber.Fin p) <-> 0 < d).
Proof.
  intros Hgap1 Hgap2 Hn0 Hd0 Hn Hd.
  destruct (Z.eq_dec d 0) as [->|Hdpos].
  - destruct (Z.eq_dec n 0) as [->|Hnpos].
    + rewrite (price_zero_zero order Hgap1 Hgap2 Hn Hd).
      split; [|split]; split; try discriminate; try lia; try (intros; reflexivity).
      intros [p Hp]. discriminate.
    + rewrite (price_zero_denominator order n Hgap1 Hgap2 ltac:(lia) Hn Hd).
      split; [|split]; split; try discriminate; try lia; try (intros; reflexivity).
      intros [p Hp]. discriminate.
  - rewrite (price_finite order n d Hgap1 Hgap2 ltac:(lia) Hn Hd).
    split; [|split]; split; try discriminate; try lia.
    intros _. eexists. reflexivity.
Qed.

(** Rounding to 20 decimal places moves a non-negative value by at most
    half a unit of the last place. *)
Lemma round_error (q : Q) :
  (0 <= q)%Q ->
  (Qabs (BigNumber.round q - q) <= 1 # 200000000000000000000)%Q.
Proof.
  intros Hq. unfold BigNumber.round.
  assert (Hneg : BigNumber.isNeg q = false).
  { destruct (BigNumber.isNeg q) eqn:E; [|reflexivity].
    apply isNeg_iff in E. exfalso. apply (Qlt_irrefl q).
    apply Qlt_le_trans with 0%Q; assumption. }
  rewrite Hneg, Qred_correct, (Qabs_pos q Hq).
  change (inject_Z (10 ^ Z.of_nat BigNumber.DECIMAL_PLACES))
    with (100000000000000000000 # 1)%Q.
  pose proof (Qfloor_le (q * (100000000000000000000 # 1) + (1 # 2))) as H1.
  pose proof (Qlt_floor (q * (100000000000000000000 # 1) + (1 # 2))) as H2.
  rewrite inject_Z_plus in H2. change (inject_Z 1) with 1%Q in H2.
  generalize dependent (inject_Z (Qfloor (q * (100000000000000000000 # 1) + (1 # 2)))).
  intros x H1 H2.
  setoid_replace (x / (100000000000000000000 # 1))%Q
    with (x * (1 # 100000000000000000000))%Q by reflexivity.
  apply Qabs_Qle_condition. split; lra.
Qed.

(** X3. For tokens whose decimals differ by at most 22, a whole,
    non-negative numerator n and a whole, positive denominator d, the price
    differs from the quotient of the two amounts in whole tokens,
    (n * 10^s) / (d * 10^b) with s and b the decimals of the sell and of the
    buy token, by at most 5 * 10^-21. *)
Theorem price_accuracy (order : Order) (n d : Z) :
  (decimals (buyToken order) <= decimals (sellToken order) + 22)%nat ->
  (decimals (sellToken order) <= decimals (buyToken order) + 22)%nat ->
  0 <= n -> 0 < d ->
  priceNumerator order = BigNumber.of_Z n ->
  priceDenominator order = BigNumber.of_Z d ->
  exists p,
    price order = BigNumber.Fin p /\
    (Qabs (p - inject_Z (n * 10 ^ Z.of_nat (decimals (sellToken order)))
               / inject_Z (d * 10 ^ Z.of_nat (decimals (buyToken order))))
     <= 1 # 200000000000000000000)%Q.
Proof.
  intros Hgap1 Hgap2 Hn0 Hd0 Hn Hd.
  rewrite (price_finite order n d Hgap1 Hgap2 Hd0 Hn Hd).
  eexists. split; [reflexivity|].
  apply round_error.
  apply Qle_shift_div_l.
  - apply inject_Z_pos. pose proof (pow10_pos (decimals (buyToken order))). nia.
  - rewrite Qmult_0_l. change 0%Q with (inject_Z 0). rewrite <- Zle_Qle.
    pose proof (pow10_pos (decimals (sellToken order))). nia.
Qed.

(** A quotient does not change when both amounts are multiplied by the
    same positive number. *)
Lemma dividedBy_scale (k p q : Q) :
  (0 < k)%Q ->
  BigNumber.dividedBy (BigNumber.Fin (k * p)) (BigNumber.Fin (k * q))
  = BigNumber.dividedBy (BigNumber.Fin p) (BigNumber.Fin q).
Proof.
  intros Hk. cbn [BigNumber.dividedBy].
  assert (Hknz : ~ (k == 0)%Q) by (intros E; rewrite E in Hk; discriminate).
  assert (Hz : forall x, BigNumber.isZero (k * x) = BigNumber.isZero x).
  { intros x. apply eq_true_iff_eq. rewrite !isZero_iff. split; intros E.
    - apply Qmult_integral in E as [E|E]; [contradiction|assumption].
    - rewrite E. ring. }
  assert (Hs : forall x, BigNumber.isNeg (k * x) = BigNumber.isNeg x).
  { intros x. apply eq_true_iff_eq. rewrite !isNeg_iff. split; intros E.
    - apply Qnot_le_lt. intros Hx. apply (Qlt_irrefl 0).
      apply Qle_lt_trans with (k * x)%Q; [|assumption].
      apply Qmult_le_0_compat; [apply Qlt_le_weak|]; assumption.
    - setoid_replace 0%Q with (k * 0)%Q by ring.
      apply Qmult_lt_l; assumption. }
  rewrite !Hz, Hs.
  destruct (BigNumber.isZero q) eqn:E; [reflexivity|].
  f_equal. apply round_Qeq. field. split; [|assumption].
  intros Eq. apply isZero_iff in Eq. congruence.
Qed.

(** The two shapes of the price do not change either, whatever the
    precision factor is. *)
Lemma price_scale (k p q : Q) (factor : BigNumber.t) :
  (0 < k)%Q ->
  BigNumber.dividedBy (BigNumber.Fin (k * p))
    (BigNumber.multipliedBy (BigNumber.Fin (k * q)) factor)
  = BigNumber.dividedBy (BigNumber.Fin p) (BigNumber.multipliedBy (BigNumber.Fin q) factor) /\
  BigNumber.dividedBy (BigNumber.multipliedBy (BigNumber.Fin (k * p)) factor)
    (BigNumber.Fin (k * q))
  = BigNumber.dividedBy (BigNumber.multipliedBy (BigNumber.Fin p) factor) (BigNumber.Fin q).
Proof.
  intros Hk.
  assert (Hknz : ~ (k == 0)%Q) by (intros E; rewrite E in Hk; discriminate).
  assert (Hz : forall x, BigNumber.isZero (k * x) = BigNumber.isZero x).
  { intros x. apply eq_true_iff_eq. rewrite !isZero_iff. split; intros E.
    - apply Qmult_integral in E as [E|E]; [contradiction|assumption].
    - rewrite E. ring. }
  assert (Hs : forall x, BigNumber.isNeg (k * x) = BigNumber.isNeg x).
  { intros x. apply eq_true_iff_eq. rewrite !isNeg_iff. split; intros E.
    - apply Qnot_le_lt. intros Hx. apply (Qlt_irrefl 0).
      apply Qle_lt_trans with (k * x)%Q; [|assumption].
      apply Qmult_le_0_compat; [apply Qlt_le_weak|]; assumption.
    - setoid_replace 0%Q with (k * 0)%Q by ring.
      apply Qmult_lt_l; assumption. }
  destruct factor as [f|a|]; cbn [BigNumber.multipliedBy].
  - split.
    + rewrite (dividedBy_Qeq_r _ _ (k * (q * f))) by (rewrite Qred_correct; ring).
      rewrite (dividedBy_Qeq_r _ (Qred (q * f)) (q * f)) by apply Qred_correct.
      apply dividedBy_scale, Hk.
    + rewrite (dividedBy_Qeq_l _ _ (k * (p * f))) by (rewrite Qred_correct; ring).
      rewrite (dividedBy_Qeq_l _ (Qred (p * f)) (p * f)) by apply Qred_correct.
      apply dividedBy_scale, Hk.
  - rewrite !Hz, !Hs. split.
    + destruct (BigNumber.isZero q); reflexivity.
    + destruct (BigNumber.isZero p); cbn [BigNumber.dividedBy]; rewrite ?Hs; reflexivity.
  - split; reflexivity.
Qed.

(** X4. The price depends on the ratio of the amounts only: an order for k
    times the amounts of another one, between the same tokens, has the same
    price. *)
Theorem price_scale_invariant (order scaled : Order) (n d k : Z) :
  0 < k -> 0 <= n -> 0 <= d ->
  buyToken scaled = buyToken order ->
  sellToken scaled = sellToken order ->
  priceNumerator order = BigNumber.of_Z n ->
  priceDenominator order = BigNumber.of_Z d ->
  priceNumerator scaled = BigNumber.of_Z (k * n) ->
  priceDenominator scaled = BigNumber.of_Z (k * d) ->
  price scaled = price order.
Proof.
  intros Hk Hn0 Hd0 Hb Hs Hn Hd Hkn Hkd.
  unfold price. rewrite Hb, Hs, Hn, Hd, Hkn, Hkd. unfold BigNumber.of_Z.
  pose proof (inject_Z_pos k Hk) as Hkq.
  rewrite !inject_Z_mult.
  destruct (decimals (sellToken order) <=? decimals (buyToken order))%nat;
    apply price_scale, Hkq.
Qed.

(** ** The order of prices *)

(** Rounding keeps the order of non-negative values. *)
Lemma round_monotone (p q : Q) :
  (0 <= p)%Q -> (p <= q)%Q -> (BigNumber.round p <= BigNumber.round q)%Q.
Proof.
  intros Hp Hpq.
  assert (Hq : (0 <= q)%Q) by (apply Qle_trans with p; assumption).
  unfold BigNumber.round.
  rewrite (isNeg_nonneg p Hp), (isNeg_nonneg q Hq).
  apply Qred_le.
  rewrite (Qabs_pos p Hp), (Qabs_pos q Hq).
  unfold Qdiv. apply Qmult_le_compat_r.
  - rewrite <- Zle_Qle. apply Qfloor_resp_le.
    apply Qplus_le_l. apply Qmult_le_compat_r; [assumption|].
    apply Qlt_le_weak, inject_Z_pow10_pos.
  - apply Qlt_le_weak, Qinv_lt_0_compat, inject_Z_pow10_pos.
Qed.

(** X5. Between the same tokens, whose decimals differ by at most 22, and
    for the same positive denominator, an order that asks for more does not
    have a lower price: the price does not decrease when the numerator
    grows. *)
Theorem price_monotone (order more : Order) (n n' d : Z) :
  (decimals (buyToken order) <= decimals (sellToken order) + 22)%nat ->
  (decimals (sellToken order) <= decimals (buyToken order) + 22)%nat ->
  0 <= n -> n <= n' -> 0 < d ->
  buyToken more = buyToken order ->
  sellToken more = sellToken order ->
  priceNumerator order = BigNumber.of_Z n ->
  priceNumerator more = BigNumber.of_Z n' ->
  priceDenominator order = BigNumber.of_Z d ->
  priceDenominator more = BigNumber.of_Z d ->
  exists p p',
    price order = BigNumber.Fin p /\ price more = BigNumber.Fin p' /\ (p <= p')%Q.
Proof.
  intros Hgap1 Hgap2 Hn0 Hnn Hd Hb Hs Hn Hn' Hden Hden'.
  rewrite (price_finite order n d Hgap1 Hgap2 Hd Hn Hden).
  rewrite (price_finite more n' d) by (rewrite ?Hb, ?Hs; assumption).
  rewrite Hb, Hs.
  do 2 eexists. split; [reflexivity|]. split; [reflexivity|].
  pose proof (pow10_pos (decimals (sellToken order))) as Hps.
  pose proof (pow10_pos (decimals (buyToken order))) as Hpb.
  assert (Hden_pos : (0 < inject_Z (d * 10 ^ Z.of_nat (decimals (buyToken order))))%Q)
    by (apply inject_Z_pos; nia).
  apply round_monotone.
  - apply Qle_shift_div_l; [assumption|].
    rewrite Qmult_0_l. change 0%Q with (inject_Z 0). rewrite <- Zle_Qle. nia.
  - unfold Qdiv. apply Qmult_le_compat_r.
    + rewrite <- Zle_Qle. nia.
    + apply Qlt_le_weak, Qinv_lt_0_compat. assumption.
Qed.

(** ** The handle of the channel *)

(** A text does not start with white space when its first byte is a
    visible ASCII character. *)
Lemma whiteSpaceLength_visible (c : ascii) (rest : string) :
  (33 <= N_of_ascii c)%N -> (N_of_ascii c < 128)%N ->
  whiteSpaceLength (String c rest) = 0%nat.
Proof.
  intros Hlo Hhi. unfold whiteSpaceLength.
  assert (H1 : ((9 <=? N_of_ascii c) && (N_of_ascii c <=? 13)
                || (N_of_ascii c =? 32))%N = false).
  { apply orb_false_iff. split.
    - apply andb_false_iff. right. apply N.leb_gt. lia.
    - apply N.eqb_neq. lia. }
  rewrite H1. cbn [prefix].
  destruct (ascii_dec "194" c) as [E|_].
  { subst c. cbn in Hhi. lia. }
  destruct rest as [|c1 [|c2 rest]]; try reflexivity.
  assert (E1 : (N_of_ascii c =? 225)%N = false) by (apply N.eqb_neq; lia).
  assert (E2 : (N_of_ascii c =? 226)%N = false) by (apply N.eqb_neq; lia).
  assert (E3 : (N_of_ascii c =? 227)%N = false) by (apply N.eqb_neq; lia).
  assert (E4 : (N_of_ascii c =? 239)%N = false) by (apply N.eqb_neq; lia).
  rewrite E1, E2, E3, E4. reflexivity.
Qed.

Lemma trimStart_visible (c : ascii) (rest : string) :
  (33 <= N_of_ascii c)%N -> (N_of_ascii c < 128)%N ->
  trimStart (String c rest) = String c rest.
Proof.
  intros Hlo Hhi. unfold trimStart. cbn [String.length skipWhiteSpace].
  rewrite (whiteSpaceLength_visible c rest Hlo Hhi). reflexivity.
Qed.

Lemma isDecimalDigit_range (c : ascii) :
  isDecimalDigit c = true -> (48 <= N_of_ascii c <= 57)%N.
Proof.
  unfold isDecimalDigit. intros H. apply andb_true_iff in H as [H1 H2].
  apply N.leb_le in H1, H2. lia.
Qed.

Lemma dropWhile_all (p : ascii -> bool) (s : string) :
  allChars p s = true -> dropWhile p s = "".
Proof.
  induction s as [|c s IH]; cbn [allChars dropWhile]; [reflexivity|].
  intros H. apply andb_true_iff in H as [-> Hs]. apply IH, Hs.
Qed.

Lemma takeWhile_all (p : ascii -> bool) (s : string) :
  allChars p s = true -> takeWhile p s = s.
Proof.
  induction s as [|c s IH]; cbn [allChars takeWhile]; [reflexivity|].
  intros H. apply andb_true_iff in H as [-> Hs]. rewrite (IH Hs). reflexivity.
Qed.

(** A run of decimal digits is a numeric literal. *)
Lemma afterUnsignedDecimal_digits (digits : string) :
  digits <> "" -> allChars isDecimalDigit digits = true ->
  afterUnsignedDecimal digits = Some "".
Proof.
  intros Hne Hall. destruct digits as [|c rest]; [contradiction|].
  pose proof Hall as Hc. cbn [allChars] in Hc. apply andb_true_iff in Hc as [Hc _].
  unfold afterUnsignedDecimal.
  assert (HI : prefix "Infinity" (String c rest) = false).
  { cbn [prefix]. destruct (ascii_dec "I" c) as [E|_]; [|reflexivity].
    subst c. discriminate. }
  rewrite HI. cbn [startsWith]. rewrite Hc, (dropWhile_all _ _ Hall). reflexivity.
Qed.

Lemma isNaN_digits (digits : string) :
  digits <> "" -> allChars isDecimalDigit digits = true ->
  isNaN digits = false /\ isNaN (String "-" digits) = false.
Proof.
  intros Hne Hall. pose proof (afterUnsignedDecimal_digits digits Hne Hall) as Hafter.
  destruct digits as [|c rest]; [contradiction|].
  pose proof Hall as Hc. cbn [allChars] in Hc. apply andb_true_iff in Hc as [Hc _].
  pose proof (isDecimalDigit_range c Hc) as Hrange.
  split; unfold isNaN.
  - rewrite trimStart_visible by lia.
    assert (Hd : afterDecimal (String c rest) = Some "").
    { unfold afterDecimal.
      destruct (Ascii.eqb_spec c "+") as [E|_]; [subst c; discriminate|].
      destruct (Ascii.eqb_spec c "-") as [E|_]; [subst c; discriminate|].
      exact Hafter. }
    rewrite Hd. cbn [onlyWhiteSpace]. rewrite orb_true_r. reflexivity.
  - rewrite trimStart_visible by (cbn; lia).
    assert (Hd : afterDecimal (String "-" (String c rest)) = Some "") by exact Hafter.
    rewrite Hd. cbn [onlyWhiteSpace]. rewrite orb_true_r. reflexivity.
Qed.

(** X6. When the channel is given by a name that starts with an at sign,
    the bot takes it for a public channel and shows that name as the handle
    of the channel. *)
Theorem channelHandle_of_name (rest : string) :
  channelId = String "@" rest -> channelHandle = channelId.
Proof.
  intros E. unfold channelHandle, isPublicChannel, isNaN. rewrite E.
  rewrite trimStart_visible by (cbn; lia).
  destruct rest as [|c rest]; reflexivity.
Qed.

(** X7. When the channel is given by a number, a run of decimal digits with
    or without a minus sign in front, the bot takes it for a private
    channel and shows no more than [**private chat**] as its handle. *)
Theorem channelHandle_of_number (digits : string) :
  digits <> "" -> allChars isDecimalDigit digits = true ->
  channelId = digits \/ channelId = String "-" digits ->
  channelHandle = "**private chat**".
Proof.
  intros Hne Hall Hid. unfold channelHandle, isPublicChannel.
  destruct (isNaN_digits digits Hne Hall) as [H1 H2].
  destruct Hid as [-> | ->]; [rewrite H1|rewrite H2]; reflexivity.
Qed.

(** ** The commands *)

Lemma sends_app (a b : list (Effect Reason)) :
  sends (a ++ b) = (sends a ++ sends b)%list.
Proof.
  induction a as [|[c t m|l args] a IH]; cbn [sends List.app]; [reflexivity| |assumption].
  rewrite IH. reflexivity.
Qed.

Lemma prefix_nil (s : string) : prefix "" s = true.
Proof. destruct s; reflexivity. Qed.

Lemma prefix_append (a b : string) : prefix a (a ++ b) = true.
Proof.
  induction a as [|c a IH]; cbn [append prefix]; [apply prefix_nil|].
  destruct (ascii_dec c c) as [_|N]; [assumption|contradiction].
Qed.

Lemma prefix_append3 (a b c r : string) :
  prefix (a ++ b ++ c) ((a ++ b) ++ c ++ r) = true.
Proof.
  replace ((a ++ b) ++ c ++ r) with ((a ++ b ++ c) ++ r)
    by (rewrite !append_assoc; reflexivity).
  apply prefix_append.
Qed.

Lemma takeWhile_app (p : ascii -> bool) (w rest : string) :
  allChars p w = true -> startsWith p rest = false ->
  takeWhile p (w ++ rest) = w /\ dropWhile p (w ++ rest) = rest.
Proof.
  intros Hw Hrest. induction w as [|c w IH]; cbn [append].
  - destruct rest as [|c rest]; [split; reflexivity|].
    cbn [startsWith] in Hrest. cbn [takeWhile dropWhile]. rewrite Hrest.
    split; reflexivity.
  - cbn [allChars] in Hw. apply andb_true_iff in Hw as [Hc Hw].
    cbn [takeWhile dropWhile]. rewrite Hc.
    destruct (IH Hw) as [-> ->]. split; reflexivity.
Qed.

Lemma allChars_takeWhile (p : ascii -> bool) (s : string) :
  allChars p (takeWhile p s) = true.
Proof.
  induction s as [|c s IH]; cbn [takeWhile]; [reflexivity|].
  destruct (p c) eqn:E; [|reflexivity]. cbn [allChars]. rewrite E, IH. reflexivity.
Qed.

(** A text without a slash holds no command. *)
Lemma commandRegExp_no_slash (t : string) :
  allChars notSlash t = true -> commandRegExp_exec t = None.
Proof.
  induction t as [|c t IH]; cbn [allChars commandRegExp_exec]; [reflexivity|].
  intros H. apply andb_true_iff in H as [Hc Ht].
  unfold notSlash in Hc. apply negb_true_iff in Hc. rewrite Hc. cbn [andb].
  apply IH, Ht.
Qed.

(** A text in which no slash is followed by a word character holds no
    command. *)
Lemma commandRegExp_none (t : string) :
  (forall pre c rest, t = pre ++ String "/" (String c rest) -> isWordChar c = false) ->
  commandRegExp_exec t = None.
Proof.
  induction t as [|a t IH]; intros H; cbn [commandRegExp_exec]; [reflexivity|].
  destruct (Ascii.eqb_spec a "/") as [->|Ha]; cbn [andb].
  - destruct t as [|c rest]; cbn [startsWith].
    + reflexivity.
    + rewrite (H "" c rest eq_refl). apply IH.
      intros pre c' rest' E. apply (H (String "/" pre) c' rest').
      cbn [append]. rewrite E. reflexivity.
  - apply IH. intros pre c rest E. apply (H (String a pre) c rest).
    cbn [append]. rewrite E. reflexivity.
Qed.

(** The command of a text: the word after its first slash. *)
Lemma commandRegExp_found (pre w rest : string) :
  allChars notSlash pre = true ->
  w <> "" -> allChars isWordChar w = true -> startsWith isWordChar rest = false ->
  exists m,
    commandRegExp_exec (pre ++ String "/" (w ++ rest)) = Some m /\ item m 1 = Some w.
Proof.
  intros Hpre Hne Hw Hrest. induction pre as [|c pre IH]; cbn [append commandRegExp_exec].
  - change (Ascii.eqb "/" "/") with true. cbn [andb].
    assert (Hstart : startsWith isWordChar (w ++ rest) = true).
    { destruct w as [|c w]; [contradiction|]. cbn [allChars] in Hw.
      apply andb_true_iff in Hw as [Hc _]. exact Hc. }
    rewrite Hstart. eexists. split; [reflexivity|].
    cbn [item items nth]. destruct (takeWhile_app isWordChar w rest Hw Hrest) as [-> _].
    reflexivity.
  - cbn [allChars] in Hpre. apply andb_true_iff in Hpre as [Hc Hpre].
    unfold notSlash in Hc. apply negb_true_iff in Hc. rewrite Hc. cbn [andb].
    apply IH, Hpre.
Qed.

(** X8. The word that the regular expression of the commands hands over is
    never empty and is made of letters, digits and underscores only; and for
    a text with no slash before the first command, it is the word after that
    slash, up to the first character that is not of a word. *)
Theorem command_word (s : string) :
  (forall m, commandRegExp_exec s = Some m ->
             exists w, item m 1 = Some w /\ w <> "" /\ allChars isWordChar w = true) /\
  (forall pre w rest,
     s = pre ++ String "/" (w ++ rest) ->
     allChars notSlash pre = true ->
     w <> "" -> allChars isWordChar w = true -> startsWith isWordChar rest = false ->
     exists m, commandRegExp_exec s = Some m /\ item m 1 = Some w).
Proof.
  split.
  - induction s as [|c s IH]; cbn [commandRegExp_exec]; [discriminate|].
    intros m. destruct (Ascii.eqb c "/" && startsWith isWordChar s) eqn:E.
    + intros [= <-]. cbn [item items nth]. eexists. split; [reflexivity|].
      apply andb_true_iff in E as [_ E]. split.
      * destruct s as [|c' s]; [discriminate|]. cbn [startsWith] in E.
        cbn [takeWhile]. rewrite E. discriminate.
      * apply allChars_takeWhile.
    + apply IH.
  - intros pre w rest -> Hpre Hne Hw Hrest.
    apply commandRegExp_found; assumption.
Qed.

Lemma isCommand_slash (msg : Telegram.Message) (rest : string) :
  Telegram.text msg = Some (String "/" rest) -> isCommand msg = true.
Proof.
  intros H. unfold isCommand. rewrite H. cbn [String.eqb negb andb prefix].
  destruct (ascii_dec "/" "/") as [_|N]; [apply prefix_nil|contradiction].
Qed.

Lemma isCommand_no_slash (msg : Telegram.Message) (t : string) :
  Telegram.text msg = Some t -> startsWith notSlash t = true \/ t = "" ->
  isCommand msg = false.
Proof.
  intros H Ht. unfold isCommand. rewrite H.
  destruct t as [|c t]; [reflexivity|].
  destruct Ht as [Ht|Ht]; [|discriminate].
  cbn [startsWith] in Ht. unfold notSlash in Ht. apply negb_true_iff in Ht.
  cbn [String.eqb negb andb prefix].
  destruct (ascii_dec "/" c) as [E|_]; [|reflexivity].
  subst c. discriminate.
Qed.

(** What the bot does with a text that starts with a command. *)
Lemma processUpdate_command (msg : Telegram.Message) (w rest : string) :
  Telegram.text msg = Some (String "/" (w ++ rest)) ->
  w <> "" -> allChars isWordChar w = true -> startsWith isWordChar rest = false ->
  exists m,
    item m 1 = Some w /\
    processUpdate msg = onText msg (Some m).
Proof.
  intros Htext Hne Hw Hrest.
  destruct (commandRegExp_found "" w rest eq_refl Hne Hw Hrest) as (m & Hexec & Hitem).
  exists m. split; [assumption|].
  unfold processUpdate, onMessage.
  rewrite (isCommand_slash msg _ Htext), Htext. cbn [List.app String.eqb].
  cbn [append] in Hexec. rewrite Hexec. reflexivity.
Qed.

(** X9. A message whose text starts with [/start] or [/help], followed by
    nothing or by a character that is not of a word, gets the help text as
    its only answer, in its own chat; the text greets the sender by first
    name, or with Hi there when the sender is not known; no error is logged,
    whatever becomes of the delivery. *)
Theorem help_command (msg : Telegram.Message) (w rest : string) :
  Telegram.text msg = Some (String "/" (w ++ rest)) ->
  w = "start" \/ w = "help" -> startsWith isWordChar rest = false ->
  processUpdate msg
  = [Log "debug" [ArgText "New command: %o"; ArgMessage msg];
     Send (ChatNumber (Telegram.id (Telegram.chat msg))) (helpText msg) None] /\
  (forall user, Telegram.from msg = Some user ->
                prefix ("Hi " ++ Telegram.first_name user ++ "!") (helpText msg) = true) /\
  (Telegram.from msg = None -> prefix "Hi there!" (helpText msg) = true).
Proof.
  intros Htext Hw Hrest. split; [|split].
  - destruct (processUpdate_command msg w rest Htext) as (m & Hitem & ->);
      [destruct Hw as [-> | ->]; discriminate
      |destruct Hw as [-> | ->]; reflexivity
      |assumption|].
    unfold onText, _runCommand. rewrite Hitem.
    destruct Hw as [-> | ->]; reflexivity.
  - intros user Hfrom. unfold helpText. rewrite Hfrom.
    apply prefix_append3.
  - intros Hfrom. unfold helpText. rewrite Hfrom. reflexivity.
Qed.

(** X10. A command is looked for in the whole text, a command at its start
    is not: a text that holds [/start] or [/help] after some words without a
    slash is answered twice with the help text, once by the listener of all
    messages and once by the command. *)
Theorem help_answered_twice (msg : Telegram.Message) (pre w rest : string) :
  Telegram.text msg = Some (pre ++ String "/" (w ++ rest)) ->
  pre <> "" -> allChars notSlash pre = true ->
  w = "start" \/ w = "help" -> startsWith isWordChar rest = false ->
  sends (processUpdate msg)
  = [(ChatNumber (Telegram.id (Telegram.chat msg)), helpText msg);
     (ChatNumber (Telegram.id (Telegram.chat msg)), helpText msg)].
Proof.
  intros Htext Hne Hpre Hw Hrest.
  destruct (commandRegExp_found pre w rest Hpre) as (m & Hexec & Hitem);
    [destruct Hw as [-> | ->]; discriminate
    |destruct Hw as [-> | ->]; reflexivity
    |assumption|].
  unfold processUpdate, onMessage.
  assert (Hno : isCommand msg = false).
  { apply (isCommand_no_slash msg _ Htext). left.
    destruct pre as [|c pre]; [contradiction|].
    cbn [allChars] in Hpre. apply andb_true_iff in Hpre as [Hc _]. exact Hc. }
  rewrite Hno, Htext, Hexec.
  assert (Hnonempty : String.eqb (pre ++ String "/" (w ++ rest)) "" = false).
  { destruct pre as [|c pre]; [contradiction|reflexivity]. }
  rewrite Hnonempty. unfold onText, _runCommand. rewrite Hitem.
  destruct Hw as [-> | ->]; reflexivity.
Qed.

(** X11. A text that starts with a slash and in which no slash is followed
    by a letter, a digit or an underscore gets no answer and leaves no
    trace in the log. *)
Theorem lone_slash_ignored (msg : Telegram.Message) (rest : string) :
  Telegram.text msg = Some (String "/" rest) ->
  (forall pre c rest', String "/" rest = pre ++ String "/" (String c rest') ->
                       isWordChar c = false) ->
  processUpdate msg = [].
Proof.
  intros Htext Hno. unfold processUpdate, onMessage.
  rewrite (isCommand_slash msg _ Htext), Htext, (commandRegExp_none _ Hno).
  reflexivity.
Qed.

(** X12. A command other than start, help and about is answered with one
    note that the command is not recognized, in the chat of the message; the
    handler waits for its delivery and logs the failure, with the message
    and then the reason, when the delivery fails. *)
Theorem unknown_command (msg : Telegram.Message) (w rest : string) :
  Telegram.text msg = Some (String "/" (w ++ rest)) ->
  w <> "" -> allChars isWordChar w = true -> startsWith isWordChar rest = false ->
  w <> "start" -> w <> "help" -> w <> "about" ->
  let sender := ChatNumber (Telegram.id (Telegram.chat msg)) in
  sends (processUpdate msg) = [(sender, unknownCommandText)] /\
  (delivery sender unknownCommandText = None -> errors (processUpdate msg) = []) /\
  (forall reason,
     delivery sender unknownCommandText = Some reason ->
     errors (processUpdate msg)
     = [[ArgText "Error running command for message: %o"; ArgMessage msg];
        [ArgReason reason]]).
Proof.
  intros Htext Hne Hw Hrest Hs Hh Ha sender.
  destruct (processUpdate_command msg w rest Htext Hne Hw Hrest) as (m & Hitem & ->).
  unfold onText, _runCommand. rewrite Hitem.
  apply String.eqb_neq in Hs, Hh, Ha. rewrite Hs, Hh, Ha. cbn [orb fst snd].
  fold sender. split; [|split].
  - destruct (delivery sender unknownCommandText); reflexivity.
  - intros ->. reflexivity.
  - intros reason ->. reflexivity.
Qed.

Lemma contains_here (p rest : string) : contains p (p ++ rest) = true.
Proof. apply contains_prefix, prefix_append. Qed.

Lemma contains_fact (label value rest : string) :
  contains (label ++ value) (label ++ value ++ rest) = true.
Proof. rewrite <- append_assoc. apply contains_here. Qed.

(** X13. When the facts about the service are available, the about command
    is answered once, in the chat of the message, with a text that gives the
    version of the bot, the address of the contract, the network, the node
    and the last block; no error is logged. *)
Theorem about_command (msg : Telegram.Message) (rest : string) (about : About) :
  Telegram.text msg = Some (String "/" ("about" ++ rest)) ->
  startsWith isWordChar rest = false ->
  getAbout = inl about ->
  sends (processUpdate msg)
  = [(ChatNumber (Telegram.id (Telegram.chat msg)), aboutText about)] /\
  errors (processUpdate msg) = [] /\
  contains ("- Bot version: " ++ version about) (aboutText about) = true /\
  contains ("- Contract Address: " ++ stablecoinConverterAddress about)
    (aboutText about) = true /\
  contains ("- Ethereum Network: " ++ networkId about) (aboutText about) = true /\
  contains ("- Ethereum Node: " ++ nodeInfo about) (aboutText about) = true /\
  contains ("- Last minded block: " ++ blockNumber about) (aboutText about) = true.
Proof.
  intros Htext Hrest Habout.
  destruct (processUpdate_command msg "about" rest Htext) as (m & Hitem & ->);
    [discriminate|reflexivity|assumption|].
  unfold onText, _runCommand, _aboutCommand. rewrite Hitem, Habout.
  split; [reflexivity|]. split; [reflexivity|].
  unfold aboutText.
  split; [do 11 apply contains_app_r; apply contains_fact|].
  split; [do 14 apply contains_app_r; apply contains_fact|].
  split; [do 17 apply contains_app_r; apply contains_fact|].
  split; [do 20 apply contains_app_r; apply contains_fact|].
  do 23 apply contains_app_r. apply contains_fact.
Qed.

(** X14. When the facts about the service cannot be had, the about command
    is not answered at all, and the failure is logged, with the message and
    then the reason. *)
Theorem about_command_fails (msg : Telegram.Message) (rest : string) (reason : Reason) :
  Telegram.text msg = Some (String "/" ("about" ++ rest)) ->
  startsWith isWordChar rest = false ->
  getAbout = inr reason ->
  sends (processUpdate msg) = [] /\
  errors (processUpdate msg)
  = [[ArgText "Error running command for message: %o"; ArgMessage msg];
     [ArgReason reason]].
Proof.
  intros Htext Hrest Habout.
  destruct (processUpdate_command msg "about" rest Htext) as (m & Hitem & ->);
    [discriminate|reflexivity|assumption|].
  unfold onText, _runCommand, _aboutCommand. rewrite Hitem, Habout.
  split; reflexivity.
Qed.

(** X15. A message without a text, or with a text that holds no slash, is
    answered once with the help text, in its own chat. *)
Theorem plain_message_gets_help (msg : Telegram.Message) :
  (forall t, Telegram.text msg = Some t -> allChars notSlash t = true) ->
  processUpdate msg
  = [Log "debug" [ArgText "Received msg: %o"; ArgMessage msg];
     Send (ChatNumber (Telegram.id (Telegram.chat msg))) (helpText msg) None].
Proof.
  intros H. unfold processUpdate, onMessage.
  destruct (Telegram.text msg) as [t|] eqn:Htext.
  - specialize (H t eq_refl).
    rewrite (isCommand_no_slash msg t Htext), (commandRegExp_no_slash t H).
    + destruct (String.eqb t ""); reflexivity.
    + destruct t as [|c t]; [right; reflexivity|left].
      cbn [allChars] in H. apply andb_true_iff in H as [Hc _]. exact Hc.
  - unfold isCommand. rewrite Htext. reflexivity.
Qed.

(** X16. Whatever the message, the bot answers in the chat the message
    came from and nowhere else, never in the channel, without a parse mode,
    and at most twice. *)
Theorem answers_go_to_sender (msg : Telegram.Message) :
  (forall chatId text mode,
     In (Send chatId text mode) (processUpdate msg) ->
     chatId = ChatNumber (Telegram.id (Telegram.chat msg)) /\ mode = None) /\
  (List.length (sends (processUpdate msg)) <= 2)%nat.
Proof.
  unfold processUpdate, onMessage, onText, _runCommand, _helpCommand, _aboutCommand.
  destruct (isCommand msg);
    destruct (Telegram.text msg) as [t|];
    try destruct (String.eqb t "");
    try destruct (commandRegExp_exec t) as [m|];
    try destruct (item m 1) as [w|];
    try destruct (String.eqb w "start" || String.eqb w "help");
    try destruct (String.eqb w "about");
    try destruct getAbout as [about|reason];
    try destruct (delivery _ _);
    cbn [fst snd List.app sends List.length];
    (split; [|lia]);
    intros chatId text mode Hin; cbn [In] in Hin;
    repeat match goal with
           | H : _ \/ _ |- _ => destruct H as [H|H]
           | H : False |- _ => contradiction
           | H : Send _ _ _ = Send _ _ _ |- _ => injection H as <- <- <-
           | H : Log _ _ = Send _ _ _ |- _ => discriminate H
           end; split; reflexivity.
Qed.

(** ** The echo bot *)

Lemma append_nil_r (a : string) : a ++ "" = a.
Proof. induction a as [|c a IH]; cbn [append]; [reflexivity|]. rewrite IH. reflexivity. Qed.

(** The first byte of a line terminator is none of the bytes that end
    one. *)
Lemma lineTerminator_first (c : ascii) (rest : string) :
  lineTerminatorLength (String c rest) <> 0%nat ->
  Ascii.eqb c "128" = false /\ Ascii.eqb c "168" = false /\ Ascii.eqb c "169" = false.
Proof.
  intros H.
  repeat split;
    match goal with
    | |- Ascii.eqb c ?k = false =>
        destruct (Ascii.eqb_spec c k) as [E|_]; [|reflexivity];
        subst c; exfalso; apply H;
        destruct rest as [|c1 [|c2 rest]]; reflexivity
    end.
Qed.

(** No line terminator starts where none started before the end of a line
    was appended. *)
Lemma lineTerminatorLength_app (c : ascii) (p rest : string) :
  rest = "" \/ lineTerminatorLength rest <> 0%nat ->
  lineTerminatorLength (String c p) = 0%nat ->
  lineTerminatorLength (String c (p ++ rest)) = 0%nat.
Proof.
  intros [->|Hrest] H; [rewrite append_nil_r; assumption|].
  destruct rest as [|r1 rest]; [contradiction Hrest; reflexivity|].
  destruct (lineTerminator_first r1 rest Hrest) as (H128 & H168 & H169).
  unfold lineTerminatorLength in *.
  destruct (Ascii.eqb c "010" || Ascii.eqb c "013"); [discriminate|].
  destruct p as [|c1 [|c2 p]]; cbn [append].
  - destruct rest as [|r2 rest]; [reflexivity|].
    rewrite H128, andb_false_r. reflexivity.
  - rewrite H168, H169, andb_false_r. reflexivity.
  - exact H.
Qed.

(** The rest of a line followed by its end is the rest of the line. *)
Lemma dotStar_app (p rest : string) :
  dotStar p = p ->
  rest = "" \/ lineTerminatorLength rest <> 0%nat ->
  dotStar (p ++ rest) = p.
Proof.
  intros Hp Hrest. induction p as [|c p IH]; cbn [append].
  - destruct Hrest as [->|Hrest]; [reflexivity|].
    destruct rest as [|r rest]; [reflexivity|]. cbn [dotStar].
    apply Nat.eqb_neq in Hrest. rewrite Hrest. reflexivity.
  - cbn [dotStar] in Hp |- *.
    destruct (Nat.eqb_spec (lineTerminatorLength (String c p)) 0) as [E|_];
      [|discriminate].
    injection Hp as Hp.
    rewrite (lineTerminatorLength_app c p rest Hrest E). cbn [Nat.eqb].
    rewrite (IH Hp). reflexivity.
Qed.

Lemma lineTerminatorLength_dotStar (c : ascii) (r : string) :
  lineTerminatorLength (String c r) = 0%nat ->
  lineTerminatorLength (String c (dotStar r)) = 0%nat.
Proof.
  intros H. unfold lineTerminatorLength in H |- *.
  destruct (Ascii.eqb c "010" || Ascii.eqb c "013"); [discriminate|].
  destruct r as [|c1 r1]; [reflexivity|]. cbn [dotStar].
  destruct (lineTerminatorLength (String c1 r1) =? 0)%nat; [|reflexivity].
  destruct r1 as [|c2 r2]; [reflexivity|]. cbn [dotStar].
  destruct (lineTerminatorLength (String c2 r2) =? 0)%nat; [|reflexivity].
  exact H.
Qed.

(** The rest of a line holds no line terminator. *)
Lemma dotStar_idempotent (s : string) : dotStar (dotStar s) = dotStar s.
Proof.
  induction s as [|c r IH]; [reflexivity|]. cbn [dotStar].
  destruct (Nat.eqb_spec (lineTerminatorLength (String c r)) 0) as [E|_];
    [|reflexivity].
  cbn [dotStar]. rewrite (lineTerminatorLength_dotStar c r E). cbn [Nat.eqb].
  rewrite IH. reflexivity.
Qed.

(** What the regular expression of the echo hands over. *)
Lemma echoRegExp_some (t : string) (m : RegExpExecArray) :
  echoRegExp_exec t = Some m ->
  contains "/echo " t = true /\
  exists p, item m 1 = Some p /\ p <> "" /\ dotStar p = p.
Proof.
  induction t as [|c t IH]; cbn [echoRegExp_exec]; [discriminate|].
  destruct (prefix "/echo " (String c t)) eqn:Hprefix; cbn [andb].
  - destruct (String.eqb_spec (dotStar (skip 6 (String c t))) "") as [E|Hne];
      cbn [negb].
    + intros H. destruct (IH H) as (Hc & Hp).
      split; [apply contains_cons, Hc|exact Hp].
    + intros [= <-]. split; [apply contains_prefix, Hprefix|].
      eexists. split; [reflexivity|]. split; [exact Hne|apply dotStar_idempotent].
  - intros H. destruct (IH H) as (Hc & Hp).
    split; [apply contains_cons, Hc|exact Hp].
Qed.

(** X17. A message that starts with [/echo ] and goes on with a line that is
    not empty is answered in its own chat with the pointer to the channel,
    and that line, and nothing of what follows it, is posted in the channel
    after the words This is a new order. *)
Theorem echo_posts_first_line (msg : Telegram.Message) (line rest : string) :
  Telegram.text msg = Some ("/echo " ++ line ++ rest) ->
  line <> "" -> dotStar line = line ->
  rest = "" \/ lineTerminatorLength rest <> 0%nat ->
  sends (echoProcessUpdate msg)
  = [(ChatNumber (Telegram.id (Telegram.chat msg)), MESSAGE_GO_TO_CHANNEL);
     (ChatName channelId, "This is a new order: " ++ line)].
Proof.
  intros Htext Hne Hline Hrest. unfold echoProcessUpdate. rewrite Htext.
  cbn [append String.eqb echoRegExp_exec skip].
  rewrite (dotStar_app line rest Hline Hrest).
  assert (Hprefix : prefix "/echo " ("/echo " ++ line ++ rest) = true)
    by apply prefix_append.
  cbn [append] in Hprefix. rewrite Hprefix.
  apply String.eqb_neq in Hne. rewrite Hne. reflexivity.
Qed.

(** X18. Every message is answered in its own chat with the pointer to the
    channel, whatever it says; besides that answer the echo bot posts at most
    one text in the channel, and that text is This is a new order followed
    by one line that is not empty. *)
Theorem echo_answers (msg : Telegram.Message) :
  exists posts,
    sends (echoProcessUpdate msg)
    = (ChatNumber (Telegram.id (Telegram.chat msg)), MESSAGE_GO_TO_CHANNEL) :: posts /\
    (posts = [] \/
     exists line,
       posts = [(ChatName channelId, "This is a new order: " ++ line)] /\
       line <> "" /\ dotStar line = line).
Proof.
  unfold echoProcessUpdate.
  destruct (Telegram.text msg) as [t|]; [|eexists; split; [reflexivity|left; reflexivity]].
  destruct (String.eqb t ""); [eexists; split; [reflexivity|left; reflexivity]|].
  destruct (echoRegExp_exec t) as [m|] eqn:E;
    [|eexists; split; [reflexivity|left; reflexivity]].
  destruct (echoRegExp_some t m E) as (_ & line & Hitem & Hne & Hline).
  eexists. split; [reflexivity|]. right. exists line.
  unfold echoOnText. rewrite Hitem. cbn [jsString sends]. repeat split; assumption.
Qed.

(** X19. A message without a text, or with a text in which [/echo ] does
    not occur, only gets the pointer to the channel: nothing is posted in
    the channel. *)
Theorem echo_needs_command (msg : Telegram.Message) :
  (forall t, Telegram.text msg = Some t -> contains "/echo " t = false) ->
  sends (echoProcessUpdate msg)
  = [(ChatNumber (Telegram.id (Telegram.chat msg)), MESSAGE_GO_TO_CHANNEL)].
Proof.
  intros H. unfold echoProcessUpdate.
  destruct (Telegram.text msg) as [t|]; [|reflexivity].
  specialize (H t eq_refl).
  destruct (String.eqb t ""); [reflexivity|].
  destruct (echoRegExp_exec t) as [m|] eqn:E; [|reflexivity].
  destruct (echoRegExp_some t m E) as (Hc & _). rewrite Hc in H. discriminate.
Qed.

End Bot.

(** * The properties on the sample data *)

(** C3, amended, at the order that sells USDC (6 decimals) for WETH
    (18 decimals): the price is the numerator over the denominator times
    10^12, here 10^18 / (2 * 10^9 * 10^12) = 0.0005. *)
Lemma price_normalization_witness :
  (18 <= 6 + 22)%nat /\ (6 <= 18 + 22)%nat /\
  price samplePow10 usdcWethOrder
  = BigNumber.dividedBy (priceNumerator usdcWethOrder)
      (BigNumber.multipliedBy (priceDenominator usdcWethOrder)
         (BigNumber.of_Z (10 ^ Z.of_nat (18 - 6)))) /\
  exists v,
    price samplePow10 usdcWethOrder = BigNumber.Fin v /\
    BigNumber.rounds
      (inject_Z 1000000000000000000 / (inject_Z 2000000000 * inject_Z (10 ^ 12))) v /\
    (v == 5 # 10000)%Q.
Proof.
  split; [lia|]. split; [lia|].
  destruct (price_normalization samplePow10 usdcWethOrder) as (H1 & _ & _ & H4);
    [simpl; lia|simpl; lia|].
  split; [apply H1; simpl; lia|].
  destruct (H4 (inject_Z 1000000000000000000) (inject_Z 2000000000) eq_refl eq_refl)
    as (v & Hv & _ & _ & _ & H); [discriminate|].
  exists v. split; [exact Hv|]. split; [apply H; reflexivity|].
  assert (E : BigNumber.Fin v = BigNumber.Fin (1 # 2000)) by (rewrite <- Hv; reflexivity).
  injection E as ->. reflexivity.
Defined.

(** C3 as stated fails when the decimals are far apart: for a sell token of
    309 decimals and a buy token of none the factor 10 ** 309 is Infinity,
    on every engine, and so is the price of one unit for one unit, where
    numerator * 10^309 / denominator is the number 10^309. *)
Lemma price_of_far_decimals :
  (decimals (buyToken fineUnitOrder) < decimals (sellToken fineUnitOrder))%nat /\
  price samplePow10 fineUnitOrder = BigNumber.Inf false /\
  BigNumber.dividedBy
    (BigNumber.multipliedBy (priceNumerator fineUnitOrder)
       (BigNumber.of_Z (10 ^ Z.of_nat (309 - 0))))
    (priceDenominator fineUnitOrder)
  = BigNumber.of_Z (10 ^ 309) /\
  price samplePow10 fineUnitOrder
  <> BigNumber.dividedBy
       (BigNumber.multipliedBy (priceNumerator fineUnitOrder)
          (BigNumber.of_Z (10 ^ Z.of_nat (309 - 0))))
       (priceDenominator fineUnitOrder) /\
  BigNumber.toString (price samplePow10 fineUnitOrder) = "Infinity".
Proof.
  split; [simpl; lia|].
  split; [reflexivity|].
  split; [vm_compute; reflexivity|].
  split; [vm_compute; discriminate|reflexivity].
Defined.

(** C4, amended, at the WETH/USDC order with a fee denominator of 1000:
    the factor is read as 1.002 and the amount is 2004000000. *)
Lemma fillAmount_margin_witness :
  1 <= 1000 <= 2 ^ 50 /\
  (0 < inject_Z 2000000000)%Q /\
  exists f F,
    BigNumber.ofNumber (FACTOR_TO_FILL_ORDER 1000) = BigNumber.Fin F /\
    fillAmount 1000 (wethUsdcOrder 1000 9000) = BigNumber.Fin f /\
    (f / inject_Z 2000000000 == F)%Q /\
    (Qabs (f / inject_Z 2000000000 - (1 + inject_Z 2 / inject_Z 1000))
     <= 1 # 1000000000000000)%Q /\
    (inject_Z 2000000000 < f)%Q /\
    BigNumber.isGreaterThan (fillAmount 1000 (wethUsdcOrder 1000 9000))
      (priceNumerator (wethUsdcOrder 1000 9000)) = true.
Proof.
  split; [lia|]. split; [reflexivity|].
  apply (fillAmount_margin 1000 (wethUsdcOrder 1000 9000) (inject_Z 2000000000));
    [lia|reflexivity|reflexivity].
Defined.

(** C4 as stated fails for an order that buys nothing: the amount of the
    link is 0, not more than the numerator, and their ratio is not a
    number. It fails as well for a fee denominator of 2^54, where the
    double 1 + 2 / FEE_DENOMINATOR is 1 and the amount of the link is the
    numerator itself. *)
Lemma fillAmount_of_zero_numerator :
  priceNumerator zeroNumeratorOrder = BigNumber.of_Z 0 /\
  BigNumber.isGreaterThan (fillAmount 1000 zeroNumeratorOrder)
    (priceNumerator zeroNumeratorOrder) = false /\
  BigNumber.dividedBy (fillAmount 1000 zeroNumeratorOrder)
    (priceNumerator zeroNumeratorOrder) = BigNumber.NaN /\
  FACTOR_TO_FILL_ORDER (2 ^ 54) = JS.Num 1 /\
  fillAmount (2 ^ 54) (wethUsdcOrder 1000 9000) = priceNumerator (wethUsdcOrder 1000 9000) /\
  BigNumber.isGreaterThan (fillAmount (2 ^ 54) (wethUsdcOrder 1000 9000))
    (priceNumerator (wethUsdcOrder 1000 9000)) = false.
Proof.
  split; [reflexivity|].
  split; [vm_compute; reflexivity|].
  split; [vm_compute; reflexivity|].
  split; [vm_compute; reflexivity|].
  split; vm_compute; reflexivity.
Defined.

(** C5 at an order that is not yet tradable. *)
Lemma tradable_line_iff_not_started_witness :
  500 < validFrom (wethUsdcOrder 1000 9000) /\
  count_lines "  - *Tradable*"
    (datesDescription sampleCalendar sampleFromNow 500 (wethUsdcOrder 1000 9000)) = 1%nat /\
  count_lines "  - *Expires*"
    (datesDescription sampleCalendar sampleFromNow 500 (wethUsdcOrder 1000 9000)) = 1%nat.
Proof.
  destruct (tradable_line_iff_not_started sampleCalendar sampleFromNow
              (fun _ _ => eq_refl) (fun _ _ => eq_refl) 500 (wethUsdcOrder 1000 9000))
    as (H1 & _ & H3).
  split; [cbn; lia|]. split; [apply H1; cbn; lia|exact H3].
Defined.

(** C6 at the WETH/USDC order. *)
Lemma announcement_template_witness :
  exists call,
    onNewOrder 1000 sampleUrl sampleChannel 4 sampleCalendar sampleFromNow samplePow10 5000
      (wethUsdcOrder 1000 9000) = Ok call /\
    chat call = sampleChannel /\
    parse_mode call = "Markdown" /\
    contains "https://dex.example/trade/USDC-WETH?sell=2004.000000&buy=1.000000000000000000"
      (text call) = true.
Proof.
  destruct (announcement_template 1000 sampleUrl sampleChannel 4 sampleCalendar
              sampleFromNow samplePow10 5000 (wethUsdcOrder 1000 9000)) as (H & Hrun & _).
  destruct (Hrun 2000000000 1000000000000000000 2004000000) as [call Hcall];
    [lia|lia|lia|reflexivity|reflexivity|vm_compute; reflexivity|].
  exists call. split; [exact Hcall|].
  destruct (H call Hcall)
    as (a & b & c & X & Y & F & G & _ & _ & _ & _ & _ & _ & _ & Hchat & Hmode & _).
  split; [exact Hchat|]. split; [exact Hmode|].
  assert (E : Ok call
              = onNewOrder 1000 sampleUrl sampleChannel 4 sampleCalendar sampleFromNow
                  samplePow10 5000 (wethUsdcOrder 1000 9000)) by (symmetry; exact Hcall).
  vm_compute in E. injection E as ->. vm_compute. reflexivity.
Defined.

(** C7 at the amount -5. *)
Lemma malformed_amount_rejected_witness :
  BigNumber.isNegative (BigNumber.of_Z (-5)) /\
  (let* amount := BN (BigNumber.of_Z (-5)) in formatAmount 4 amount 18)
  = Err InvalidOrderData /\
  (let* amount := BN (BigNumber.of_Z (-5)) in formatAmountFull amount 18)
  = Err InvalidOrderData.
Proof.
  split; [reflexivity|].
  destruct (malformed_amount_rejected 1000 sampleUrl sampleChannel 4 sampleCalendar
              sampleFromNow samplePow10 (BigNumber.of_Z (-5)) 18 (or_introl eq_refl))
    as (H1 & H2 & _).
  split; [exact H1|exact H2].
Defined.

(** C8 at 1234.567 with three decimals. *)
Lemma formatAmountFull_roundtrip_witness :
  0 <= 1234567 /\
  exists s, formatAmountFull 1234567 3 = Ok s /\ parseAmountFull s 3 = Some 1234567.
Proof.
  split; [lia|]. apply (formatAmountFull_roundtrip 1234567 3). lia.
Defined.

(** C1, amended, at the sample order with a zero denominator and a fee
    denominator of 1000. *)
Lemma zero_denominator_announced_witness :
  priceDenominator zeroDenominatorOrder = BigNumber.of_Z 0 /\
  fillAmount 1000 zeroDenominatorOrder = BigNumber.of_Z 2004000000 /\
  price samplePow10 zeroDenominatorOrder = BigNumber.Inf false /\
  exists call,
    onNewOrder 1000 sampleUrl sampleChannel 4 sampleCalendar sampleFromNow samplePow10 5000
      zeroDenominatorOrder = Ok call /\
    contains "= Infinity" (text call) = true.
Proof.
  split; [reflexivity|]. split; [vm_compute; reflexivity|].
  destruct (zero_denominator_announced 1000 sampleUrl sampleChannel 4 sampleCalendar
              sampleFromNow samplePow10 5000 zeroDenominatorOrder 2000000000 2004000000)
    as (Hprice & call & Hrun & _ & _ & Hinf & _);
    [simpl; lia|simpl; lia|lia|lia|reflexivity|reflexivity|vm_compute; reflexivity|].
  split; [exact Hprice|]. exists call. split; [exact Hrun|exact Hinf].
Defined.

(** C1 as stated fails: the sample order with a zero denominator is not
    rejected, its announcement reaches the sink. *)
Lemma zero_denominator_not_rejected :
  priceDenominator zeroDenominatorOrder = BigNumber.of_Z 0 /\
  onNewOrder 1000 sampleUrl sampleChannel 4 sampleCalendar sampleFromNow samplePow10 5000
    zeroDenominatorOrder <> Err InvalidOrderData /\
  exists call,
    pipeline 1000 sampleUrl sampleChannel 4 sampleCalendar sampleFromNow samplePow10
      [(5000, zeroDenominatorOrder)] = [call] /\
    chat call = sampleChannel /\
    contains "1 `WETH` = Infinity `USDC`" (text call) = true.
Proof.
  split; [reflexivity|]. split.
  - vm_compute. discriminate.
  - eexists. split; [vm_compute; reflexivity|].
    split; vm_compute; reflexivity.
Defined.

(** C2, amended, at a time between validFrom and validUntil. *)
Lemma weth_usdc_announcement_witness :
  1000 < 5000 /\ 5000 < 9000 /\
  price samplePow10 (wethUsdcOrder 1000 9000) = BigNumber.of_Z 2000 /\
  exists call,
    onNewOrder 1000 sampleUrl sampleChannel 4 sampleCalendar sampleFromNow samplePow10 5000
      (wethUsdcOrder 1000 9000) = Ok call /\
    contains "1 `WETH` = 2000 `USDC`" (text call) = true /\
    count_lines "  - *Tradable*" (text call) = 0%nat.
Proof.
  split; [lia|]. split; [lia|].
  destruct (weth_usdc_announcement 1000 sampleUrl sampleChannel 4 sampleCalendar
              sampleFromNow samplePow10 (fun _ _ => eq_refl) (fun _ _ => eq_refl) eq_refl
              5000 1000 9000)
    as (_ & Hprice & call & Hrun & _ & Hline & _ & Hcount);
    [lia|exists 4000000; reflexivity|lia|lia|].
  split; [exact Hprice|]. exists call.
  split; [exact Hrun|]. split; [exact Hline|exact Hcount].
Defined.

(** C2 as stated fails: the price of the order is 2000, not 2, it is not
    numerator / (denominator * 10^12), and no line of the announcement
    reads 1 `WETH` = 2 `USDC`. *)
Lemma weth_usdc_price_is_not_2 :
  price samplePow10 (wethUsdcOrder 1000 9000) <> BigNumber.of_Z 2 /\
  price samplePow10 (wethUsdcOrder 1000 9000)
  <> BigNumber.dividedBy (priceNumerator (wethUsdcOrder 1000 9000))
       (BigNumber.multipliedBy (priceDenominator (wethUsdcOrder 1000 9000))
          (BigNumber.of_Z (10 ^ 12))) /\
  BigNumber.toString (price samplePow10 (wethUsdcOrder 1000 9000)) = "2000" /\
  exists call,
    onNewOrder 1000 sampleUrl sampleChannel 4 sampleCalendar sampleFromNow samplePow10 5000
      (wethUsdcOrder 1000 9000) = Ok call /\
    contains "1 `WETH` = 2 `USDC`" (text call) = false.
Proof.
  split; [vm_compute; discriminate|].
  split; [vm_compute; discriminate|].
  split; [vm_compute; reflexivity|].
  eexists. split; vm_compute; reflexivity.
Defined.

(** * The further properties on the sample data *)

(** X1 at WETH. *)
Lemma tokenLabel_not_empty_witness :
  address WETH <> "" /\ tokenLabel WETH <> "".
Proof.
  split; [discriminate|]. apply (tokenLabel_not_empty WETH). discriminate.
Defined.

(** X2 at the order with a zero denominator. *)
Lemma price_special_values_witness :
  (6 <= 18 + 22)%nat /\ (18 <= 6 + 22)%nat /\ 0 <= 2000000000 /\ 0 <= 0 /\
  (price samplePow10 zeroDenominatorOrder = BigNumber.Inf false <-> 0 < 2000000000 /\ 0 = 0).
Proof.
  split; [lia|]. split; [lia|]. split; [lia|]. split; [lia|].
  destruct (price_special_values samplePow10 zeroDenominatorOrder 2000000000 0)
    as (_ & H & _);
    [simpl; lia|simpl; lia|lia|lia|reflexivity|reflexivity|exact H].
Defined.

(** X3 at the WETH/USDC order. *)
Lemma price_accuracy_witness :
  exists p,
    price samplePow10 (wethUsdcOrder 1000 9000) = BigNumber.Fin p /\
    (Qabs (p - inject_Z (2000000000 * 10 ^ Z.of_nat 18)
               / inject_Z (1000000000000000000 * 10 ^ Z.of_nat 6))
     <= 1 # 200000000000000000000)%Q.
Proof.
  apply (price_accuracy samplePow10 (wethUsdcOrder 1000 9000)
           2000000000 1000000000000000000);
    [simpl; lia|simpl; lia|lia|lia|reflexivity|reflexivity].
Defined.

(** X4 at the WETH/USDC order and three times its amounts. *)
Lemma price_scale_invariant_witness :
  price samplePow10 tripleWethUsdcOrder = price samplePow10 (wethUsdcOrder 1000 9000).
Proof.
  apply (price_scale_invariant samplePow10 (wethUsdcOrder 1000 9000) tripleWethUsdcOrder
           2000000000 1000000000000000000 3);
    [lia|lia|lia|reflexivity|reflexivity|reflexivity|reflexivity|reflexivity|reflexivity].
Defined.

(** X6 at the channel [@dfusion]. *)
Lemma channelHandle_of_name_witness :
  channelHandle "@dfusion" = "@dfusion".
Proof. apply (channelHandle_of_name "@dfusion" "dfusion"). reflexivity. Defined.

(** X7 at the channel -1001234567890. *)
Lemma channelHandle_of_number_witness :
  channelHandle "-1001234567890" = "**private chat**".
Proof.
  apply (channelHandle_of_number "-1001234567890" "1001234567890");
    [discriminate|reflexivity|right; reflexivity].
Defined.

(** X8 at a command addressed to a bot by name. *)
Lemma command_word_witness :
  exists m, commandRegExp_exec "hey /help@dfusion_bot" = Some m /\ item m 1 = Some "help".
Proof.
  destruct (command_word "hey /help@dfusion_bot") as (_ & H).
  apply (H "hey " "help" "@dfusion_bot"); [reflexivity|reflexivity|discriminate|reflexivity|reflexivity].
Defined.

(** X9 at the message /help. *)
Lemma help_command_witness :
  processUpdate "@dfusion" string (inl sampleAbout) sampleDelivery (sampleMessage "/help")
  = [Log "debug" [ArgText "New command: %o"; ArgMessage (sampleMessage "/help")];
     Send (ChatNumber 42) (helpText "@dfusion" (sampleMessage "/help")) None] /\
  prefix "Hi Ada!" (helpText "@dfusion" (sampleMessage "/help")) = true.
Proof.
  destruct (help_command "@dfusion" string (inl sampleAbout) sampleDelivery
              (sampleMessage "/help") "help" "")
    as (H1 & H2 & _); [reflexivity|right; reflexivity|reflexivity|].
  split; [exact H1|]. apply (H2 {| Telegram.first_name := "Ada" |}). reflexivity.
Defined.

(** X10 at a message that mentions /help. *)
Lemma help_answered_twice_witness :
  sends (processUpdate "@dfusion" string (inl sampleAbout) sampleDelivery
           (sampleMessage "see /help"))
  = [(ChatNumber 42, helpText "@dfusion" (sampleMessage "see /help"));
     (ChatNumber 42, helpText "@dfusion" (sampleMessage "see /help"))].
Proof.
  apply (help_answered_twice "@dfusion" string (inl sampleAbout) sampleDelivery
           (sampleMessage "see /help") "see " "help" "");
    [reflexivity|discriminate|reflexivity|right; reflexivity|reflexivity].
Defined.

(** X11 at the message that is a slash and no more. *)
Lemma lone_slash_ignored_witness :
  processUpdate "@dfusion" string (inl sampleAbout) sampleDelivery (sampleMessage "/") = [].
Proof.
  apply (lone_slash_ignored "@dfusion" string (inl sampleAbout) sampleDelivery
           (sampleMessage "/") ""); [reflexivity|].
  intros [|a [|b pre]] c rest E; discriminate E.
Defined.

(** X12 at the message /price. *)
Lemma unknown_command_witness :
  sends (processUpdate "@dfusion" string (inl sampleAbout) sampleDelivery
           (sampleMessage "/price WETH"))
  = [(ChatNumber 42, unknownCommandText)] /\
  errors (processUpdate "@dfusion" string (inl sampleAbout) sampleDelivery
            (sampleMessage "/price WETH")) = [].
Proof.
  destruct (unknown_command "@dfusion" string (inl sampleAbout) sampleDelivery
              (sampleMessage "/price WETH") "price" " WETH")
    as (H1 & H2 & _);
    [reflexivity|discriminate|reflexivity|reflexivity
    |discriminate|discriminate|discriminate|].
  split; [exact H1|]. apply H2. reflexivity.
Defined.

(** X13 at the message /about. *)
Lemma about_command_witness :
  sends (processUpdate "@dfusion" string (inl sampleAbout) sampleDelivery
           (sampleMessage "/about"))
  = [(ChatNumber 42, aboutText sampleAbout)] /\
  contains "- Bot version: 0.3.0" (aboutText sampleAbout) = true.
Proof.
  destruct (about_command "@dfusion" string (inl sampleAbout) sampleDelivery
              (sampleMessage "/about") "" sampleAbout)
    as (H1 & _ & H3 & _); [reflexivity|reflexivity|reflexivity|].
  split; [exact H1|exact H3].
Defined.

(** X14 at the message /about when the node cannot be reached. *)
Lemma about_command_fails_witness :
  sends (processUpdate "@dfusion" string (inr "node unreachable") sampleDelivery
           (sampleMessage "/about")) = [] /\
  errors (processUpdate "@dfusion" string (inr "node unreachable") sampleDelivery
            (sampleMessage "/about"))
  = [[ArgText "Error running command for message: %o"; ArgMessage (sampleMessage "/about")];
     [ArgReason "node unreachable"]].
Proof.
  apply (about_command_fails "@dfusion" string (inr "node unreachable") sampleDelivery
           (sampleMessage "/about") "" "node unreachable");
    reflexivity.
Defined.

(** X15 at the message hello. *)
Lemma plain_message_gets_help_witness :
  processUpdate "@dfusion" string (inl sampleAbout) sampleDelivery (sampleMessage "hello")
  = [Log "debug" [ArgText "Received msg: %o"; ArgMessage (sampleMessage "hello")];
     Send (ChatNumber 42) (helpText "@dfusion" (sampleMessage "hello")) None].
Proof.
  apply (plain_message_gets_help "@dfusion" string (inl sampleAbout) sampleDelivery
           (sampleMessage "hello")).
  intros t [= <-]. reflexivity.
Defined.

(** X16 at the message /about. *)
Lemma answers_go_to_sender_witness :
  In (Send (ChatNumber 42) (aboutText sampleAbout) None)
     (processUpdate "@dfusion" string (inl sampleAbout) sampleDelivery
        (sampleMessage "/about")) /\
  ChatNumber 42 = ChatNumber (Telegram.id (Telegram.chat (sampleMessage "/about"))).
Proof.
  assert (H : In (Send (ChatNumber 42) (aboutText sampleAbout) None)
                (processUpdate "@dfusion" string (inl sampleAbout) sampleDelivery
                   (sampleMessage "/about")))
    by (right; left; reflexivity).
  split; [exact H|].
  destruct (answers_go_to_sender "@dfusion" string (inl sampleAbout) sampleDelivery
              (sampleMessage "/about")) as (Hto & _).
  apply (Hto _ _ _ H).
Defined.

(** X17 at an echo of two lines. *)
Lemma echo_posts_first_line_witness :
  sends (echoProcessUpdate "@dfusion" string
           (sampleMessage ("/echo " ++ "1 WETH for 2000 USDC" ++ nl ++ "and more")))
  = [(ChatNumber 42, MESSAGE_GO_TO_CHANNEL);
     (ChatName "@dfusion", "This is a new order: 1 WETH for 2000 USDC")].
Proof.
  apply (echo_posts_first_line "@dfusion" string
           (sampleMessage ("/echo " ++ "1 WETH for 2000 USDC" ++ nl ++ "and more"))
           "1 WETH for 2000 USDC" (nl ++ "and more"));
    [reflexivity|discriminate|reflexivity|right; discriminate].
Defined.

(** X19 at the message hello. *)
Lemma echo_needs_command_witness :
  sends (echoProcessUpdate "@dfusion" string (sampleMessage "hello"))
  = [(ChatNumber 42, MESSAGE_GO_TO_CHANNEL)].
Proof.
  apply (echo_needs_command "@dfusion" string (sampleMessage "hello")).
  intros t [= <-]. reflexivity.
Defined.

(** X5 at the WETH/USDC order and one that asks for 2500 USDC. *)
Lemma price_monotone_witness :
  exists p p',
    price samplePow10 (wethUsdcOrder 1000 9000) = BigNumber.Fin p /\
    price samplePow10 dearWethUsdcOrder = BigNumber.Fin p' /\ (p <= p')%Q.
Proof.
  apply (price_monotone samplePow10 (wethUsdcOrder 1000 9000) dearWethUsdcOrder
           2000000000 2500000000 1000000000000000000);
    [simpl; lia|simpl; lia|lia|lia|lia
    |reflexivity|reflexivity|reflexivity|reflexivity|reflexivity|reflexivity].
Defined.
